(** * MCP-MONI: the transaction-orchestration core

    A shallow embedding of the token registry and the balance helpers
    (config.ts), the swap functions (swap.ts), wrap and unwrap
    (wrapUnwrap.ts), staking (staking.ts), and the direct transfer and the
    balance, wrap and stake tools of index.ts, with the properties of the
    sequences of calls they make to the chain client.

    Conventions.
    - A JavaScript [bigint] is a [Z]; the division of bigints is [Z.quot],
      which truncates toward zero.
    - A JavaScript string is a [string], character by character.  The case
      conversions are those of the ASCII letters, which is what
      [toLowerCase] and [toUpperCase] do on a text of ASCII characters
      ([isAscii]); beyond ASCII JavaScript converts more (the Kelvin sign
      to [k], the sharp s to [SS]), so a statement that rests on a symbol
      not being found carries [isAscii] as a hypothesis.
    - A finite [number] is the rational it denotes, and the result of an
      operation on numbers is the double nearest to the exact result, ties
      going to the even significand ([nearest]), an infinity beyond the
      range.  So are read [Number(text)], [Number(bigint)], the sum
      [currentTimestamp + 20 * 60] and the product [slippagePercent * 10];
      [BigInt(x)] is defined on the integers among the finite numbers and
      is a RangeError elsewhere.  Zero has one sign, and [NaN] does not
      arise.
    - viem's [parseUnits] and [formatUnits] are transcribed from the
      library (the version that first tests the text against its decimal
      pattern), the rounding of surplus decimals through a double
      included.
    - Every [await] on the chain client is a node of a program tree
      ([Prog]); a [World] answers each call, with a value or by throwing.
      A throw stands for whatever makes the call reject, a refusal of the
      network as well as one of the client before anything is sent (viem
      does not encode a negative integer as a [uint256]).  Creating a
      client, importing a module and [console.error] are local and leave
      no node. *)

From Stdlib Require Import ZArith List String Ascii QArith Bool Lia.
From Stdlib Require Import Qround Qabs Qpower Lqa.
From Stdlib Require Import DecimalString DecimalPos.
Import ListNotations.

Local Open Scope string_scope.
Local Open Scope Z_scope.

(** ** JavaScript strings and bigints *)

Module Js.

(** What a [throw] carries.  [ErrorObj] is an [Error] with its message;
    [LibError] is an [Error] raised by the runtime or by viem, whose
    message text belongs to the host; [NonError] is any other thrown
    value, with its rendering [String(value)]. *)
Inductive Fault : Type :=
| InvalidDecimalNumber (value : string)
| BigIntSyntax (text : string)
| BigIntRange
| UndefinedOperand.

Inductive Thrown : Type :=
| ErrorObj (message : string)
| LibError (f : Fault)
| NonError (text : string).

Definition isUpper (c : ascii) : bool :=
  (65 <=? nat_of_ascii c)%nat && (nat_of_ascii c <=? 90)%nat.

Definition isLower (c : ascii) : bool :=
  (97 <=? nat_of_ascii c)%nat && (nat_of_ascii c <=? 122)%nat.

Definition isDigit (c : ascii) : bool :=
  (48 <=? nat_of_ascii c)%nat && (nat_of_ascii c <=? 57)%nat.

Definition lowerChar (c : ascii) : ascii :=
  if isUpper c then ascii_of_nat (nat_of_ascii c + 32) else c.

Definition upperChar (c : ascii) : ascii :=
  if isLower c then ascii_of_nat (nat_of_ascii c - 32) else c.

Fixpoint mapChars (f : ascii -> ascii) (s : string) : string :=
  match s with
  | EmptyString => EmptyString
  | String c r => String (f c) (mapChars f r)
  end.

(** [s.toLowerCase()] and [s.toUpperCase()], on a text of ASCII
    characters. *)
Definition toLowerCase (s : string) : string := mapChars lowerChar s.
Definition toUpperCase (s : string) : string := mapChars upperChar s.

Definition startsWith (s p : string) : bool := prefix p s.

Fixpoint allChars (f : ascii -> bool) (s : string) : bool :=
  match s with
  | EmptyString => true
  | String c r => f c && allChars f r
  end.

(** The texts made of ASCII characters, on which the case conversions
    above are those of JavaScript. *)
Definition isAscii (s : string) : bool :=
  allChars (fun c => (nat_of_ascii c <? 128)%nat) s.

Fixpoint repeatChar (c : ascii) (n : nat) : string :=
  match n with
  | O => EmptyString
  | S k => String c (repeatChar c k)
  end.

Definition padStart (s : string) (n : nat) (c : ascii) : string :=
  repeatChar c (n - String.length s) ++ s.

Definition padEnd (s : string) (n : nat) (c : ascii) : string :=
  s ++ repeatChar c (n - String.length s).

(** [s.slice(a, b)] and [s.slice(a)] for indices within [0 .. length]. *)
Definition slice (s : string) (a b : nat) : string := substring a (b - a) s.
Definition sliceFrom (s : string) (a : nat) : string :=
  substring a (String.length s - a) s.

(** [s.split('.')] *)
Fixpoint splitDot (s : string) : list string :=
  match s with
  | EmptyString => [EmptyString]
  | String c r =>
      if Ascii.eqb c "." then EmptyString :: splitDot r
      else match splitDot r with
           | [] => [String c EmptyString]
           | h :: t => String c h :: t
           end
  end.

(** [s.replace(/(0+)$/, '')] *)
Fixpoint trimTrailingZeros (s : string) : string :=
  match s with
  | EmptyString => EmptyString
  | String c r =>
      let r' := trimTrailingZeros r in
      if Ascii.eqb c "0" && String.eqb r' EmptyString then EmptyString
      else String c r'
  end.

Definition digitValue (c : ascii) : Z := Z.of_nat (nat_of_ascii c - 48).

Fixpoint digitsValue (acc : Z) (s : string) : Z :=
  match s with
  | EmptyString => acc
  | String c r => digitsValue (10 * acc + digitValue c) r
  end.

(** [BigInt(text)] on the texts made of an optional minus sign and
    decimal digits, the only ones this code base builds; the empty text
    is [0n] and a lone sign is a SyntaxError. *)
Definition BigInt_of_string (text : string) : Thrown + Z :=
  match text with
  | String "-" r =>
      if allChars isDigit r && negb (String.eqb r EmptyString)
      then inr (- digitsValue 0 r)
      else inl (LibError (BigIntSyntax text))
  | _ =>
      if allChars isDigit text then inr (digitsValue 0 text)
      else inl (LibError (BigIntSyntax text))
  end.

(** [x.toString()] of a bigint. *)
Definition BigInt_toString (x : Z) : string :=
  NilZero.string_of_int (Z.to_int x).

(** *** Numbers *)

(** A [number]: a finite double, as the rational it denotes, or an
    infinity. *)
Inductive Number : Type :=
| Finite (x : Q)
| Infinity (negative : bool).

(** [2^k], for [k] of either sign. *)
Definition pow2 (k : Z) : Q := ((2 # 1) ^ k)%Q.

(** The binary exponent of [x <> 0]: the [e] with [2^e <= |x| < 2^(e+1)]. *)
Definition exponentOf (x : Q) : Z :=
  let e := Z.log2 (Z.abs (Qnum x)) - Z.log2 (Zpos (Qden x)) in
  if Qle_bool (pow2 e) (Qabs x) then e else e - 1.

(** The integer nearest to [y], the even one of two that are as near. *)
Definition roundHalfEven (y : Q) : Z :=
  let f := Qfloor y in
  match (y - inject_Z f ?= 1 # 2)%Q with
  | Lt => f
  | Gt => f + 1
  | Eq => if Z.even f then f else f + 1
  end.

(** The double nearest to [x], were the exponent unbounded above: a
    multiple of the quantum [2^(e - 52)] of the binade of [x], of
    [2^(-1074)] among the subnormals. *)
Definition double (x : Q) : Q :=
  if Qeq_bool x 0 then 0%Q
  else
    let quantum := pow2 (Z.max (exponentOf x) (-1022) - 52) in
    (inject_Z (roundHalfEven (x / quantum)) * quantum)%Q.

(** The number a real [x] rounds to: an infinity when the nearest double
    would reach [2^1024]. *)
Definition nearest (x : Q) : Number :=
  let d := double x in
  if Qle_bool (pow2 1024) (Qabs d) then Infinity (Qnum x <? 0) else Finite d.

(** [Number(x)] of a bigint. *)
Definition Number_of_bigint (x : Z) : Number := nearest (inject_Z x).

(** [a + y], for a finite [y]. *)
Definition Number_plus (a : Number) (y : Q) : Number :=
  match a with
  | Finite x => nearest (x + y)
  | Infinity negative => Infinity negative
  end.

Definition isInteger (x : Q) : bool := Qnum x mod Zpos (Qden x) =? 0.

(** [BigInt(x)] of a number: defined on the finite integers only. *)
Definition BigInt_of_number (a : Number) : Thrown + Z :=
  match a with
  | Finite x =>
      if isInteger x then inr (Qnum x / Zpos (Qden x))
      else inl (LibError BigIntRange)
  | Infinity _ => inl (LibError BigIntRange)
  end.

(** [Math.round(x)] of a finite number: the nearest integer, the greater
    one of two that are as near. *)
Definition Math_round (x : Q) : Z := Qfloor (x + (1 # 2)).

(** [xs.join(sep)] *)
Definition join (sep : string) (xs : list string) : string := concat sep xs.

End Js.

(** ** viem: unit conversion *)

Module Viem.
Import Js.

(** The validity test of [parseUnits]: an optional minus sign, digits,
    an optional point, digits, and nothing else. *)
Fixpoint dropDigits (s : string) : string :=
  match s with
  | EmptyString => EmptyString
  | String c r => if isDigit c then dropDigits r else s
  end.

Definition isDecimalNumber (value : string) : bool :=
  let unsigned := match value with String "-" r => r | _ => value end in
  match dropDigits unsigned with
  | String "." r => allChars isDigit r
  | rest => allChars isDigit rest
  end.

(** The real that the digits [unit], a point and the digits [right]
    write. *)
Definition decimalValue (unit right : string) : Q :=
  digitsValue 0 (unit ++ right) # Z.to_pos (10 ^ Z.of_nat (String.length right)).

(** [Math.round(Number(`${unit}.${right}`))], for the one digit [unit]
    and the digits [right]: the text is read as the double nearest to
    what it writes, a number below ten, and that double is rounded. *)
Definition roundUnit (unit right : string) : Z :=
  Math_round (double (decimalValue unit right)).

Definition addOne (digits : string) : Thrown + string :=
  match BigInt_of_string digits with
  | inl e => inl e
  | inr v => inr (BigInt_toString (v + 1))
  end.

(** [parseUnits(value, decimals)] *)
Definition parseUnits (value : string) (decimals : nat) : Thrown + Z :=
  if negb (isDecimalNumber value) then inl (LibError (InvalidDecimalNumber value))
  else
    let parts := splitDot value in
    let integer0 := hd EmptyString parts in
    let fraction0 := match tl parts with [] => "0" | f :: _ => f end in
    let negative := startsWith integer0 "-" in
    let integer1 := if negative then sliceFrom integer0 1 else integer0 in
    let fraction1 := trimTrailingZeros fraction0 in
    let rounded : Thrown + (string * string) :=
      match decimals with
      | O =>
          if roundUnit "0" fraction1 =? 1
          then match addOne integer1 with
               | inl e => inl e
               | inr i => inr (i, EmptyString)
               end
          else inr (integer1, EmptyString)
      | S d =>
          if (decimals <? String.length fraction1)%nat then
            let left := slice fraction1 0 d in
            let unit := slice fraction1 d decimals in
            let right := sliceFrom fraction1 decimals in
            let r := roundUnit unit right in
            let fraction2 : Thrown + string :=
              if 9 <? r
              then match addOne left with
                   | inl e => inl e
                   | inr l => inr (padStart (l ++ "0") (String.length left + 1) "0")
                   end
              else inr (left ++ BigInt_toString r) in
            match fraction2 with
            | inl e => inl e
            | inr f2 =>
                if (decimals <? String.length f2)%nat
                then match addOne integer1 with
                     | inl e => inl e
                     | inr i => inr (i, slice (sliceFrom f2 1) 0 decimals)
                     end
                else inr (integer1, slice f2 0 decimals)
            end
          else inr (integer1, padEnd fraction1 decimals "0")
      end in
    match rounded with
    | inl e => inl e
    | inr (i, f) => BigInt_of_string ((if negative then "-" else "") ++ i ++ f)
    end.

Definition parseEther (ether : string) : Thrown + Z := parseUnits ether 18.

(** [formatUnits(value, decimals)] *)
Definition formatUnits (value : Z) (decimals : nat) : string :=
  let display0 := BigInt_toString value in
  let negative := startsWith display0 "-" in
  let display1 := if negative then sliceFrom display0 1 else display0 in
  let display := padStart display1 decimals "0" in
  let integer := slice display 0 (String.length display - decimals) in
  let fraction := trimTrailingZeros (sliceFrom display (String.length display - decimals)) in
  (if negative then "-" else "") ++
  (if String.eqb integer EmptyString then "0" else integer) ++
  (if String.eqb fraction EmptyString then EmptyString else "." ++ fraction).

Definition formatEther (wei : Z) : string := formatUnits wei 18.

End Viem.


(** ** config.ts: the token registry *)

Module Config.

Record TokenConfig : Type := mkToken {
  name : string;
  symbol : string;
  decimals : nat;
  address : string
}.

Definition WMON : TokenConfig :=
  mkToken "Wrapped MON" "WMON" 18 "0x760AfE86e5de5fa0Ee542fc7B7B713e1c5425701".

Definition aprMON : TokenConfig :=
  mkToken "Apriori Staked MON" "aprMON" 18 "0xb2f82D0f38dc453D596Ad40A37799446Cc89274A".

(** [TOKEN_MAP], in the order of its keys. *)
Definition TOKEN_MAP : list (string * TokenConfig) :=
  [ ("MON",    mkToken "Monad" "MON" 18 "0x0000000000000000000000000000000000000000");
    ("WMON",   WMON);
    ("aprMON", aprMON);
    ("USDC",   mkToken "USD Coin" "USDC" 6 "0xf817257fed379853cDe0fa4F97AB987181B1E5Ea");
    ("USDT",   mkToken "Tether USD" "USDT" 6 "0x88b8E2161DEDC77EF4ab7585569D2415a1C1055D");
    ("WETH",   mkToken "Wrapped Ethereum" "WETH" 18 "0xB5a30b0FDc5EA94A52fDc42e3E9760Cb8449Fb37");
    ("WBTC",   mkToken "Wrapped Bitcoin" "WBTC" 8 "0xcf5a6076cfa32686c0Df13aBaDa2b40dec133F1d");
    ("DAK",    mkToken "Daiki Finance" "DAK" 18 "0x0F0BDEbF0F83cD1EE3974779Bcb7315f9808c714");
    ("COG",    mkToken "Cogito" "COG" 18 "0xE0590015A873bF326bd645c3E1266d4db41C4E6B");
    ("YAKI",   mkToken "Yaki Finance" "YAKI" 18 "0xfe140e1dCe99Be9F4F15d657CD9b7BF622270C50");
    ("shMON",  mkToken "Staked MON" "shMON" 18 "0x3a98250F98Dd388C211206983453837C8365BDc1");
    ("gMON",   mkToken "Governance MON" "gMON" 18 "0xaEef2f6B429Cb59C9B2D7bB2141ADa993E8571c3") ].

(** [Object.keys(TOKEN_MAP)] *)
Definition keys : list string := map fst TOKEN_MAP.

(** [TOKEN_MAP[key]] for an own key. *)
Fixpoint lookupIn (m : list (string * TokenConfig)) (key : string) : option TokenConfig :=
  match m with
  | [] => None
  | (k, v) :: rest => if String.eqb k key then Some v else lookupIn rest key
  end.

Definition lookup (key : string) : option TokenConfig := lookupIn TOKEN_MAP key.

(** [Object.keys(TOKEN_MAP).find(key => key.toLowerCase() === s.toLowerCase())] *)
Definition findKey (s : string) : option string :=
  find (fun key => String.eqb (Js.toLowerCase key) (Js.toLowerCase s)) keys.

End Config.

(** ** The chain client *)

Module Chain.
Import Js.

Definition Address := string.
Definition Hash := string.

(** Contract functions called through [readContract]. *)
Inductive ReadFn : Type :=
| getAmountsOut (amountIn : Z) (path : list Address)
| allowance (owner spender : Address)
| balanceOf (account : Address).

(** Contract functions called through [writeContract]. *)
Inductive WriteFn : Type :=
| approve (spender : Address) (amount : Z)
| transfer (to : Address) (value : Z)
| wmonDeposit
| wmonWithdraw (amount : Z)
| stakingDeposit (amount : Z) (receiver : Address)
| stakingWithdraw (amount : Z) (from receiver : Address)
| swapExactTokensForTokens (amountIn amountOutMin : Z) (path : list Address)
    (to : Address) (deadline : Z)
| swapExactETHForTokens (amountOutMin : Z) (path : list Address)
    (to : Address) (deadline : Z)
| swapExactTokensForETH (amountIn amountOutMin : Z) (path : list Address)
    (to : Address) (deadline : Z).

(** [receipt.status] as the code inspects it: by [typeof] and value. *)
Inductive Status : Type :=
| StatusString (s : string)
| StatusNumber (n : Z)
| StatusBigInt (n : Z)
| StatusOther.

Record Receipt : Type := mkReceipt {
  status : Status;
  blockNumber : Z;
  transactionHash : Hash
}.

Record Block : Type := mkBlock { timestamp : Z }.

(** One call of the chain client. *)
Inductive Call : Type :=
| getBlock
| getBalance (address : Address)
| readContract (address : Address) (fn : ReadFn)
| writeContract (account : Address) (address : Address) (fn : WriteFn) (value : option Z)
| sendTransaction (account : Address) (to : Address) (value : Z)
| waitForTransactionReceipt (hash : Hash) (timeout confirmations : Z).

Definition ReadRet (fn : ReadFn) : Type :=
  match fn with
  | getAmountsOut _ _ => list Z
  | allowance _ _ => Z
  | balanceOf _ => Z
  end.

(** What the call resolves to. *)
Definition Resp (c : Call) : Type :=
  match c with
  | getBlock => Block
  | getBalance _ => Z
  | readContract _ fn => ReadRet fn
  | writeContract _ _ _ _ => Hash
  | sendTransaction _ _ _ => Hash
  | waitForTransactionReceipt _ _ _ => Receipt
  end.

(** An awaited call settles: it rejects with a thrown value or resolves. *)
Definition Settled (c : Call) : Type := (Thrown + Resp c)%type.

(** Async functions as trees of calls. *)
Inductive Prog (A : Type) : Type :=
| Ret (a : A)
| Throw (e : Thrown)
| Vis (c : Call) (k : Settled c -> Prog A).

Arguments Ret {A} a.
Arguments Throw {A} e.
Arguments Vis {A} c k.

Fixpoint bind {A B} (p : Prog A) (f : A -> Prog B) : Prog B :=
  match p with
  | Ret a => f a
  | Throw e => Throw e
  | Vis c k => Vis c (fun r => bind (k r) f)
  end.

(** [try { p } catch (e) { h e }] *)
Fixpoint tryCatch {A} (p : Prog A) (h : Thrown -> Prog A) : Prog A :=
  match p with
  | Ret a => Ret a
  | Throw e => h e
  | Vis c k => Vis c (fun r => tryCatch (k r) h)
  end.

(** [await client.call(...)] *)
Definition await (c : Call) : Prog (Resp c) :=
  Vis c (fun r => match r with inl e => Throw e | inr v => Ret v end).

(** A local computation that may throw. *)
Definition lift {A} (r : Thrown + A) : Prog A :=
  match r with inl e => Throw e | inr a => Ret a end.

(** One settled call of a run. *)
Inductive Event : Type :=
| Ev (c : Call) (r : Settled c).

Definition callOf (e : Event) : Call := match e with Ev c _ => c end.

(** The network and the client before it: they settle each call, knowing
    the calls so far. *)
Definition World : Type := forall c : Call, list Event -> Settled c.

Inductive Outcome (A : Type) : Type :=
| Returned (a : A)
| Raised (e : Thrown).

Arguments Returned {A} a.
Arguments Raised {A} e.

Fixpoint run {A} (w : World) (p : Prog A) (tr : list Event) : Outcome A * list Event :=
  match p with
  | Ret a => (Returned a, tr)
  | Throw e => (Raised e, tr)
  | Vis c k => let r := w c tr in run w (k r) (tr ++ [Ev c r])
  end.

Definition exec {A} (w : World) (p : Prog A) : Outcome A * list Event := run w p [].

Definition result {A} (w : World) (p : Prog A) : Outcome A := fst (exec w p).
Definition trace {A} (w : World) (p : Prog A) : list Event := snd (exec w p).
Definition calls {A} (w : World) (p : Prog A) : list Call := map callOf (trace w p).

End Chain.

Declare Scope prog_scope.
Delimit Scope prog_scope with prog.
Notation "x <- p ;; q" := (Chain.bind p (fun x => q))
  (at level 61, p at next level, right associativity) : prog_scope.
Notation "p ;;; q" := (Chain.bind p (fun _ => q))
  (at level 61, right associativity) : prog_scope.

(** ** The host: what lies outside the repository *)

Module Host.
Import Js.

Record t : Type := mk {
  (** [process.env.TEST_WALLET_PRIVATE_KEY] *)
  TEST_WALLET_PRIVATE_KEY : option string;
  (** viem's [privateKeyToAccount], to the account's address *)
  privateKeyToAccount : string -> Thrown + string;
  (** the message text of an error raised by the runtime or by viem *)
  faultMessage : Fault -> string
}.

(** [if (!privateKey) throw new Error(message)]: the key, when it is
    defined and not empty. *)
Definition requireKey (h : t) (message : string) : Thrown + string :=
  match TEST_WALLET_PRIVATE_KEY h with
  | None => inl (ErrorObj message)
  | Some k => if String.eqb k EmptyString then inl (ErrorObj message) else inr k
  end.

(** The key with its [0x] prefix added when absent. *)
Definition formatted (k : string) : string :=
  if negb (startsWith k "0x") then "0x" ++ k else k.

(** [error instanceof Error ? error.message : fallback] *)
Definition messageOr (h : t) (e : Thrown) (fallback : string) : string :=
  match e with
  | ErrorObj m => m
  | LibError f => faultMessage h f
  | NonError _ => fallback
  end.

(** [error instanceof Error ? error.message : String(error)] *)
Definition messageOrString (h : t) (e : Thrown) : string :=
  match e with
  | ErrorObj m => m
  | LibError f => faultMessage h f
  | NonError text => text
  end.

End Host.

(** The record every orchestrated operation returns: all the fields of a
    success, or the error message alone. *)
Inductive Result (S : Type) : Type :=
| Success (s : S)
| Failure (error : string).

Arguments Success {S} s.
Arguments Failure {S} error.

(** ** swap.ts *)

Module Swap.
Import Js Viem Config Chain.
Local Open Scope prog_scope.

Definition SWAP_ROUTER_ADDRESS : Address := "0xCa810D095e90Daae6e867c19DF6D9A8C56db2c89".

Record Quote : Type := mkQuote {
  quoteFromToken : string;
  quoteToToken : string;
  quoteFromAmount : string;
  quoteToAmount : string
  (* [rate], a double computed for display, is not part of the model *)
}.

Record Swapped : Type := mkSwapped {
  fromToken : string;
  toToken : string;
  fromAmount : string;
  toAmount : string;
  txHash : Hash;
  blockNumber : Z;
  from : Address
}.

Definition notSupported (side sym : string) : Thrown :=
  ErrorObj (side ++ " token " ++ sym ++ " is not supported. Supported tokens: "
            ++ join ", " keys).

(** [token.toUpperCase() === "MON" ? "MON" : tokenExists as string];
    a missing [tokenExists] is excluded by the guard before it. *)
Definition canonical (token : string) (tokenExists : option string) : string :=
  if (toUpperCase token =? "MON")%string then "MON"
  else match tokenExists with Some key => key | None => EmptyString end.

Definition isNone {A} (o : option A) : bool :=
  match o with None => true | Some _ => false end.

(** The symbol normalisation both functions start with: the registry's
    spelling of each symbol, [MON] being always accepted. *)
Definition normalize (fromToken toToken : string) : Thrown + (string * string) :=
  let sourceTokenExists := findKey fromToken in
  let destTokenExists := findKey toToken in
  if isNone sourceTokenExists && negb (toUpperCase fromToken =? "MON")%string
  then inl (notSupported "Source" fromToken)
  else if isNone destTokenExists && negb (toUpperCase toToken =? "MON")%string
  then inl (notSupported "Destination" toToken)
  else inr (canonical fromToken sourceTokenExists, canonical toToken destTokenExists).

(** [token === "MON" ? TOKEN_MAP["WMON"] : TOKEN_MAP[token]]; reading a
    field of a missing entry is a TypeError. *)
Definition tokenInfo (token : string) : Thrown + TokenConfig :=
  match (if (token =? "MON")%string then lookup "WMON" else lookup token) with
  | Some info => inr info
  | None => inl (LibError UndefinedOperand)
  end.

(** [(amounts as bigint[])[1]], used as a bigint. *)
Definition second (amounts : list Z) : Thrown + Z :=
  match nth_error amounts 1 with
  | Some v => inr v
  | None => inl (LibError UndefinedOperand)
  end.

(** [slippagePercent * 10]: the double nearest to the product of the
    number passed by ten.  A product that is an integer is taken as it
    stands: up to 2^53 every integer is a double, and no slippage is of
    the size beyond. *)
Definition timesTen (slippagePercent : Q) : Number :=
  let product := (slippagePercent * (10 # 1))%Q in
  if isInteger product then Finite product else nearest product.

(** [1000n - BigInt(slippagePercent * 10)] *)
Definition slippageFactor (slippagePercent : Q) : Thrown + Z :=
  match BigInt_of_number (timesTen slippagePercent) with
  | inl e => inl e
  | inr bps => inr (1000 - bps)
  end.

(** [BigInt(Number(currentBlock.timestamp) + 20 * 60)] *)
Definition deadlineOf (blockTimestamp : Z) : Thrown + Z :=
  let currentTimestamp := Number_of_bigint blockTimestamp in
  BigInt_of_number (Number_plus currentTimestamp (inject_Z (20 * 60))).

(** [(expectedOutput * slippageFactor) / 1000n] *)
Definition amountOutMin (expectedOutput factor : Z) : Z :=
  Z.quot (expectedOutput * factor) 1000.

Definition getSwapQuote_try (fromToken toToken amount : string) : Prog Quote :=
  tokens <- lift (normalize fromToken toToken) ;;
  let sourceToken := fst tokens in
  let destToken := snd tokens in
  sourceTokenInfo <- lift (tokenInfo sourceToken) ;;
  destTokenInfo <- lift (tokenInfo destToken) ;;
  let path := [address sourceTokenInfo; address destTokenInfo] in
  amountIn <- lift (parseUnits amount (decimals sourceTokenInfo)) ;;
  amounts <- await (readContract SWAP_ROUTER_ADDRESS (getAmountsOut amountIn path)) ;;
  expectedOutputAmount <- lift (second amounts) ;;
  let formattedOutputAmount := formatUnits expectedOutputAmount (decimals destTokenInfo) in
  Ret (mkQuote sourceToken destToken amount formattedOutputAmount).

Definition getSwapQuote (h : Host.t) (fromToken toToken amount : string)
  : Prog (Result Quote) :=
  tryCatch
    (q <- getSwapQuote_try fromToken toToken amount ;; Ret (Success q))
    (fun error => Ret (Failure (Host.messageOr h error "Unknown error getting swap quote"))).

(** The path of the aprMON to MON special case. *)
Definition specialPath : list Address :=
  [ "0xb2f82d0f38dc453d596ad40a37799446cc89274a";
    "0xe1d2439b75fb9746e7bc6cb777ae10aa7f7ef9c5";
    "0x760afe86e5de5fa0ee542fc7b7b713e1c5425701" ].

(** The check after the receipt of the default branch. *)
Definition statusFails (txStatus : Status) : bool :=
  match txStatus with
  | StatusString s => negb (s =? "success")%string
  | StatusNumber n => negb (n =? 1)
  | StatusBigInt n => negb (n =? 1)
  | StatusOther => false
  end.

Definition approveAndWait (account token : Address) (amountIn : Z) : Prog unit :=
  approvalHash <- await (writeContract account token (approve SWAP_ROUTER_ADDRESS amountIn) None) ;;
  _ <- await (waitForTransactionReceipt approvalHash 60000 1) ;;
  Ret tt.

Definition executeSwap_try (h : Host.t) (fromToken toToken amount : string)
  (slippagePercent : Q) : Prog Swapped :=
  privateKey <- lift (Host.requireKey h "Private key not found in environment variables") ;;
  account <- lift (Host.privateKeyToAccount h (Host.formatted privateKey)) ;;
  tokens <- lift (normalize fromToken toToken) ;;
  let sourceToken := fst tokens in
  let destToken := snd tokens in
  let isNativeSource := (sourceToken =? "MON")%string in
  let isNativeDest := (destToken =? "MON")%string in
  sourceTokenInfo <- lift (tokenInfo sourceToken) ;;
  destTokenInfo <- lift (tokenInfo destToken) ;;
  amountIn <- lift (parseUnits amount (decimals sourceTokenInfo)) ;;
  currentBlock <- await getBlock ;;
  deadline <- lift (deadlineOf (timestamp currentBlock)) ;;
  if (sourceToken =? "aprMON")%string && (destToken =? "MON")%string then
    let path := specialPath in
    approveAndWait account (address aprMON) amountIn ;;;
    let expectedOutput := Z.quot (amountIn * 9988) 10000 in
    factor <- lift (slippageFactor slippagePercent) ;;
    let amountOutMin := amountOutMin expectedOutput factor in
    hash <- await (writeContract account SWAP_ROUTER_ADDRESS
                     (swapExactTokensForETH amountIn amountOutMin path account deadline) None) ;;
    receipt <- await (waitForTransactionReceipt hash 60000 1) ;;
    let formattedOutput := formatUnits (Z.quot (amountIn * 9988) 10000) 18 in
    Ret (mkSwapped sourceToken destToken amount formattedOutput hash
           (Chain.blockNumber receipt) account)
  else
    let path := [address sourceTokenInfo; address destTokenInfo] in
    amounts <- await (readContract SWAP_ROUTER_ADDRESS (getAmountsOut amountIn path)) ;;
    factor <- lift (slippageFactor slippagePercent) ;;
    expectedOutput <- lift (second amounts) ;;
    let amountOutMin := amountOutMin expectedOutput factor in
    hash <-
      (if isNativeSource then
         await (writeContract account SWAP_ROUTER_ADDRESS
                  (swapExactETHForTokens amountOutMin path account deadline) (Some amountIn))
       else if isNativeDest then
         approveAndWait account (address sourceTokenInfo) amountIn ;;;
         await (writeContract account SWAP_ROUTER_ADDRESS
                  (swapExactTokensForETH amountIn amountOutMin path account deadline) None)
       else
         approveAndWait account (address sourceTokenInfo) amountIn ;;;
         await (writeContract account SWAP_ROUTER_ADDRESS
                  (swapExactTokensForTokens amountIn amountOutMin path account deadline) None)) ;;
    receipt <- await (waitForTransactionReceipt hash 60000 1) ;;
    let txStatus := status receipt in
    if statusFails txStatus
    then Throw (ErrorObj "Swap transaction failed or was reverted on blockchain")
    else
      let formattedOutput := formatUnits expectedOutput (decimals destTokenInfo) in
      Ret (mkSwapped sourceToken destToken amount formattedOutput hash
             (Chain.blockNumber receipt) account).

Definition executeSwap (h : Host.t) (fromToken toToken amount : string)
  (slippagePercent : Q) : Prog (Result Swapped) :=
  tryCatch
    (s <- executeSwap_try h fromToken toToken amount slippagePercent ;; Ret (Success s))
    (fun error => Ret (Failure (Host.messageOr h error "Unknown error executing swap"))).

End Swap.

(** ** wrapUnwrap.ts *)

Module WrapUnwrap.
Import Js Viem Config Chain.
Local Open Scope prog_scope.

Record Wrapped : Type := mkWrapped {
  from : Address;
  txHash : Hash;
  blockNumber : Z;
  amount : string;
  token : string;
  otherToken : string   (* [wrappedToken] of a wrap, [unwrappedToken] of an unwrap *)
}.

(** [getWalletClient()], to the address of its account. *)
Definition getWalletClient (h : Host.t) : Thrown + Address :=
  match Host.requireKey h "Private key not found in environment variables" with
  | inl e => inl e
  | inr privateKey => Host.privateKeyToAccount h (Host.formatted privateKey)
  end.

(** [receipt.status !== 'success' && receipt.status !== 1] *)
Definition statusFails (st : Status) : bool :=
  match st with
  | StatusString s => negb (s =? "success")%string
  | StatusNumber n => negb (n =? 1)
  | StatusBigInt _ => true
  | StatusOther => true
  end.

Definition wmonAddress : Thrown + Address :=
  match lookup "WMON" with
  | Some info => inr (address info)
  | None => inl (LibError UndefinedOperand)
  end.

Definition wrapMON_try (h : Host.t) (amount : string) : Prog Wrapped :=
  account <- lift (getWalletClient h) ;;
  amountInWei <- lift (parseEther amount) ;;
  wmonAddress <- lift wmonAddress ;;
  balance <- await (getBalance account) ;;
  if balance <? amountInWei
  then Throw (ErrorObj ("Insufficient MON balance. You have " ++ formatEther balance
                        ++ " MON but trying to wrap " ++ amount ++ " MON"))
  else
    hash <- await (writeContract account wmonAddress wmonDeposit (Some amountInWei)) ;;
    receipt <- await (waitForTransactionReceipt hash 60000 1) ;;
    if statusFails (status receipt)
    then Throw (ErrorObj "Transaction failed or was reverted on blockchain")
    else Ret (mkWrapped account (transactionHash receipt) (Chain.blockNumber receipt)
                amount "MON" "WMON").

Definition wrapMON (h : Host.t) (amount : string) : Prog (Result Wrapped) :=
  tryCatch (r <- wrapMON_try h amount ;; Ret (Success r))
    (fun error => Ret (Failure (Host.messageOr h error "Unknown error"))).

Definition unwrapWMON_try (h : Host.t) (amount : string) : Prog Wrapped :=
  account <- lift (getWalletClient h) ;;
  amountInWei <- lift (parseEther amount) ;;
  wmonAddress <- lift wmonAddress ;;
  wmonBalance <- await (readContract wmonAddress (balanceOf account)) ;;
  if wmonBalance <? amountInWei
  then Throw (ErrorObj ("Insufficient WMON balance. You have " ++ formatEther wmonBalance
                        ++ " WMON but trying to unwrap " ++ amount ++ " WMON"))
  else
    hash <- await (writeContract account wmonAddress (wmonWithdraw amountInWei) None) ;;
    receipt <- await (waitForTransactionReceipt hash 60000 1) ;;
    if statusFails (status receipt)
    then Throw (ErrorObj "Transaction failed or was reverted on blockchain")
    else Ret (mkWrapped account (transactionHash receipt) (Chain.blockNumber receipt)
                amount "WMON" "MON").

Definition unwrapWMON (h : Host.t) (amount : string) : Prog (Result Wrapped) :=
  tryCatch (r <- unwrapWMON_try h amount ;; Ret (Success r))
    (fun error => Ret (Failure (Host.messageOr h error "Unknown error"))).

End WrapUnwrap.

(** ** staking.ts *)

Module Staking.
Import Js Viem Config Chain.
Local Open Scope prog_scope.

Definition APRIORI_STAKING_ADDRESS : Address := address aprMON.

Record Staked : Type := mkStaked {
  stakedAmount : string;
  stakedTxHash : Hash;
  stakedBlockNumber : Z;
  stakedFrom : Address;
  stakedMethod : string
}.

Record Unstaked : Type := mkUnstaked {
  amount : string;
  receivedAmount : option string;
  txHash : Hash;
  blockNumber : Z;
  from : Address;
  method : string;
  message : string
}.

Definition expectedAddress : Address := "0x5b84Dc548e45cC4f1498b95C000C748c1c953f64".

(** [!receipt || receipt.status === 'reverted'], on a receipt that is
    there. *)
Definition statusFails (st : Status) : bool :=
  match st with
  | StatusString s => (s =? "reverted")%string
  | _ => false
  end.

Definition stakeMON_try (h : Host.t) (amount : string) : Prog Staked :=
  privateKey <- lift (Host.requireKey h "Private key not found in environment variables") ;;
  account <- lift (Host.privateKeyToAccount h (Host.formatted privateKey)) ;;
  if negb (toLowerCase account =? toLowerCase expectedAddress)%string
  then Throw (ErrorObj ("Private key generates different address (" ++ account
                        ++ ") than expected (" ++ expectedAddress
                        ++ "). Please check your private key in .env file."))
  else
    amountIn <- lift (parseUnits amount 18) ;;
    balance <- await (getBalance account) ;;
    if balance <? amountIn
    then Throw (ErrorObj ("Insufficient MON balance. You have " ++ formatUnits balance 18
                          ++ " MON but tried to stake " ++ amount ++ " MON"))
    else
      hash <- await (writeContract account (address aprMON)
                       (stakingDeposit amountIn account) (Some amountIn)) ;;
      receipt <- await (waitForTransactionReceipt hash 60000 1) ;;
      if statusFails (status receipt)
      then Throw (ErrorObj "Staking transaction failed or was reverted on blockchain")
      else Ret (mkStaked amount hash (Chain.blockNumber receipt) account "deposit").

Definition stakeMON (h : Host.t) (amount : string) : Prog (Result Staked) :=
  tryCatch (r <- stakeMON_try h amount ;; Ret (Success r))
    (fun error => Ret (Failure (Host.messageOr h error "Unknown error staking MON"))).

(** The two strategies of an unstake that does not swap: the official
    withdraw, then, should it throw, the transfer to the staking
    contract.  Each yields the hash, the receipt and the method name. *)
Definition withdrawStrategy (account : Address) (amountIn : Z)
  : Prog (Hash * Receipt * string) :=
  hash <- await (writeContract account APRIORI_STAKING_ADDRESS
                   (stakingWithdraw amountIn account account) None) ;;
  receipt <- await (waitForTransactionReceipt hash 60000 1) ;;
  Ret (hash : Hash, receipt : Receipt, "withdraw").

Definition transferStrategy (account : Address) (amountIn : Z)
  : Prog (Hash * Receipt * string) :=
  hash <- await (writeContract account (address aprMON)
                   (transfer APRIORI_STAKING_ADDRESS amountIn) None) ;;
  receipt <- await (waitForTransactionReceipt hash 60000 1) ;;
  Ret (hash : Hash, receipt : Receipt, "transfer").

Definition requestUnstakeAprMON_try (h : Host.t) (amount : string) (useSwap : bool)
  : Prog Unstaked :=
  privateKey <- lift (Host.requireKey h "Private key not found in environment variables") ;;
  account <- lift (Host.privateKeyToAccount h (Host.formatted privateKey)) ;;
  amountIn <- lift (parseUnits amount 18) ;;
  allowance <- await (readContract (address aprMON)
                        (allowance account APRIORI_STAKING_ADDRESS)) ;;
  (if allowance <? amountIn then
     ceiling <- lift (parseUnits "1000000000" 18) ;;
     approvalHash <- await (writeContract account (address aprMON)
                              (approve APRIORI_STAKING_ADDRESS ceiling) None) ;;
     _ <- await (waitForTransactionReceipt approvalHash 60000 1) ;;
     Ret tt
   else Ret tt) ;;;
  if useSwap then
    swapResult <- Swap.executeSwap h "aprMON" "MON" amount (5 # 1) ;;
    match swapResult with
    | Failure error => Throw (ErrorObj ("Swap failed: " ++ error))
    | Success s =>
        Ret (mkUnstaked amount (Some (Swap.toAmount s)) (Swap.txHash s)
               (Swap.blockNumber s) account "swap"
               ("Your " ++ amount ++ " aprMON has been converted to approximately "
                ++ Swap.toAmount s ++ " MON using the swap method."))
    end
  else
    done <- tryCatch (withdrawStrategy account amountIn)
              (fun unstakeError => transferStrategy account amountIn) ;;
    let hash := fst (fst done) in
    let receipt := snd (fst done) in
    let method := snd done in
    Ret (mkUnstaked amount None hash (Chain.blockNumber receipt) account method
           ("Your " ++ amount ++ " aprMON has been unstaked using the " ++ method
            ++ " method. Please check your MON balance.")).

Definition requestUnstakeAprMON (h : Host.t) (amount : string) (useSwap : bool)
  : Prog (Result Unstaked) :=
  tryCatch (r <- requestUnstakeAprMON_try h amount useSwap ;; Ret (Success r))
    (fun error => Ret (Failure (Host.messageOr h error "Unknown error requesting unstake"))).

End Staking.

(** ** index.ts: the direct transfer *)

Module Index.
Import Js Viem Config Chain.
Local Open Scope prog_scope.

(** A tool response: the texts of its content items. *)
Record ContentResponse : Type := mkContent { content : list string }.

Definition textResponse (text : string) : ContentResponse := mkContent [text].

Definition nl : string := String (ascii_of_nat 10) EmptyString.

Definition notSupportedText (tokenSymbol : string) : string :=
  "Token " ++ tokenSymbol ++ " is not supported. Supported tokens: " ++ join ", " keys.

(** The response text both transfer paths build once the hash is known. *)
Definition responseText (amount tokenSymbol to from hash : string) : string :=
  let explorerLink := "https://testnet.monadexplorer.com/tx/" ++ hash in
  "## ✅ Transfer Successful!" ++ nl ++ nl
  ++ "Your " ++ amount ++ " " ++ tokenSymbol
  ++ " has been successfully sent to address:" ++ nl ++ "`" ++ to ++ "`" ++ nl ++ nl
  ++ "### Transaction Details" ++ nl
  ++ "- **From**: " ++ from ++ nl
  ++ "- **Transaction Hash**: " ++ hash ++ nl
  ++ "- **Token**: " ++ tokenSymbol ++ nl ++ nl
  ++ "### [🔍 View Transaction on Monad Explorer](" ++ explorerLink ++ ")" ++ nl ++ nl
  ++ "The transaction has been confirmed on the blockchain.".

(** The submission shared by the tool and the helper: native value
    transfer for MON, the token's [transfer] otherwise. *)
Definition submit (account to amount tokenSymbol : string) : Prog Hash :=
  if (tokenSymbol =? "MON")%string then
    value <- lift (parseUnits amount 18) ;;
    await (sendTransaction account to value)
  else
    match lookup tokenSymbol with
    | Some tokenConfig =>
        value <- lift (parseUnits amount (decimals tokenConfig)) ;;
        await (writeContract account (address tokenConfig) (transfer to value) None)
    | None => Throw (ErrorObj ("Unsupported token: " ++ tokenSymbol))
    end.

(** The handler of the [execute-transfer] tool. *)
Definition execute_transfer (h : Host.t) (to amount token : string)
  : Prog ContentResponse :=
  tryCatch
    (match Host.requireKey h EmptyString with
     | inl _ =>
         Ret (textResponse
                ("⚠️ ERROR: No test wallet private key found in .env file." ++ nl ++ nl
                 ++ "Please create a .env file with TEST_WALLET_PRIVATE_KEY variable. See .env.example for format."))
     | inr privateKey =>
         let tokenSymbol := toUpperCase token in
         match lookup tokenSymbol with
         | None => Ret (textResponse (notSupportedText tokenSymbol))
         | Some _ =>
             account <- lift (Host.privateKeyToAccount h (Host.formatted privateKey)) ;;
             let from := account in
             balance <- await (getBalance account) ;;
             if balance =? 0
             then Ret (textResponse
                         "The wallet has 0 MON balance. Please fund the wallet first before attempting a transfer.")
             else
               hash <- submit account to amount tokenSymbol ;;
               Ret (textResponse (responseText amount tokenSymbol to from hash))
         end
     end)
    (fun error =>
       Ret (textResponse ("Failed to execute transfer: " ++ Host.messageOrString h error))).

(** The helper behind the natural-language transfer request. *)
Definition executeTransfer (h : Host.t) (to amount token : string)
  : Prog ContentResponse :=
  privateKey <- lift (Host.requireKey h "No test wallet private key found in .env file") ;;
  let tokenSymbol := toUpperCase token in
  match lookup tokenSymbol with
  | None => Throw (ErrorObj (notSupportedText tokenSymbol))
  | Some _ =>
      account <- lift (Host.privateKeyToAccount h (Host.formatted privateKey)) ;;
      let from := account in
      balance <- await (getBalance account) ;;
      if balance =? 0
      then Throw (ErrorObj
                    "The wallet has 0 MON balance. Please fund the wallet first before attempting a transfer")
      else
        hash <- submit account to amount tokenSymbol ;;
        Ret (textResponse (responseText amount tokenSymbol to from hash))
  end.

End Index.

(** * Reasoning about runs *)

Module Runs.
Import Js Chain.
Local Open Scope list_scope.

(** [always P p tr]: however the network settles the calls of [p],
    started after the events [tr], the final events and outcome
    satisfy [P]. *)
Fixpoint always {A} (P : list Event -> Outcome A -> Prop) (p : Prog A)
  (tr : list Event) : Prop :=
  match p with
  | Ret a => P tr (Returned a)
  | Throw e => P tr (Raised e)
  | Vis c k => forall r : Settled c, always P (k r) (tr ++ [Ev c r])
  end.

(** The continuation of a bind runs after a return; a throw passes. *)
Definition afterBind {A B} (P : list Event -> Outcome B -> Prop) (f : A -> Prog B)
  : list Event -> Outcome A -> Prop :=
  fun tr o =>
    match o with
    | Returned a => always P (f a) tr
    | Raised e => P tr (Raised e)
    end.

(** The handler of a try runs after a throw; a return passes. *)
Definition afterCatch {A} (P : list Event -> Outcome A -> Prop)
  (h : Thrown -> Prog A) : list Event -> Outcome A -> Prop :=
  fun tr o =>
    match o with
    | Returned a => P tr (Returned a)
    | Raised e => always P (h e) tr
    end.

End Runs.

(** ** What a run shows *)

Module Observe.
Import Js Chain.

(** The amounts a resolved [getAmountsOut] read returned. *)
Definition quotedAmounts (e : Event) : option (list Z) :=
  match e with
  | Ev c r =>
      match c return Settled c -> option (list Z) with
      | readContract _ fn =>
          match fn return (Thrown + ReadRet fn) -> option (list Z) with
          | getAmountsOut _ _ =>
              fun r => match r with inr amounts => Some amounts | inl _ => None end
          | _ => fun _ => None
          end
      | _ => fun _ => None
      end r
  end.

(** The path a [getAmountsOut] read was asked about. *)
Definition quotedPath (c : Call) : option (list Address) :=
  match c with
  | readContract _ (getAmountsOut _ path) => Some path
  | _ => None
  end.

(** The allowance a resolved [allowance] read returned. *)
Definition allowanceRead (e : Event) : option Z :=
  match e with
  | Ev c r =>
      match c return Settled c -> option Z with
      | readContract _ fn =>
          match fn return (Thrown + ReadRet fn) -> option Z with
          | allowance _ _ => fun r => match r with inr a => Some a | inl _ => None end
          | _ => fun _ => None
          end
      | _ => fun _ => None
      end r
  end.

(** The hash a resolved submission returned. *)
Definition submittedHash (e : Event) : option Hash :=
  match e with
  | Ev c r =>
      match c return Settled c -> option Hash with
      | writeContract _ _ _ _ => fun r => match r with inr h => Some h | inl _ => None end
      | sendTransaction _ _ _ => fun r => match r with inr h => Some h | inl _ => None end
      | _ => fun _ => None
      end r
  end.

(** The receipt a resolved wait returned. *)
Definition receiptOf (e : Event) : option Receipt :=
  match e with
  | Ev c r =>
      match c return Settled c -> option Receipt with
      | waitForTransactionReceipt _ _ _ =>
          fun r => match r with inr rc => Some rc | inl _ => None end
      | _ => fun _ => None
      end r
  end.

(** The balance a resolved balance query returned: the chain's balance
    query, or a [balanceOf] contract read. *)
Definition balanceRead (e : Event) : option Z :=
  match e with
  | Ev c r =>
      match c return Settled c -> option Z with
      | getBalance _ => fun r => match r with inr b => Some b | inl _ => None end
      | readContract _ fn =>
          match fn return (Thrown + ReadRet fn) -> option Z with
          | balanceOf _ => fun r => match r with inr b => Some b | inl _ => None end
          | _ => fun _ => None
          end
      | _ => fun _ => None
      end r
  end.

(** The minimum-output argument of a swap submission. *)
Definition swapFloor (c : Call) : option Z :=
  match c with
  | writeContract _ _ (swapExactTokensForTokens _ m _ _ _) _ => Some m
  | writeContract _ _ (swapExactETHForTokens m _ _ _) _ => Some m
  | writeContract _ _ (swapExactTokensForETH _ m _ _ _) _ => Some m
  | _ => None
  end.

(** A swap submission. *)
Definition isSwap (c : Call) : bool :=
  match swapFloor c with
  | Some _ => true
  | None => false
  end.

(** The input amount of a swap submission: its argument, or the value
    sent with a native-source swap. *)
Definition swapAmountIn (c : Call) : option Z :=
  match c with
  | writeContract _ _ (swapExactTokensForTokens a _ _ _ _) _ => Some a
  | writeContract _ _ (swapExactETHForTokens _ _ _ _) v => v
  | writeContract _ _ (swapExactTokensForETH a _ _ _ _) _ => Some a
  | _ => None
  end.

Definition swapPath (c : Call) : option (list Address) :=
  match c with
  | writeContract _ _ (swapExactTokensForTokens _ _ p _ _) _ => Some p
  | writeContract _ _ (swapExactETHForTokens _ p _ _) _ => Some p
  | writeContract _ _ (swapExactTokensForETH _ _ p _ _) _ => Some p
  | _ => None
  end.

(** A transaction submission: a contract write or a value transfer. *)
Definition isSubmission (c : Call) : bool :=
  match c with
  | writeContract _ _ _ _ => true
  | sendTransaction _ _ _ => true
  | _ => false
  end.

Definition isApprove (c : Call) : bool :=
  match c with
  | writeContract _ _ (approve _ _) _ => true
  | _ => false
  end.

Definition isAllowanceRead (c : Call) : bool :=
  match c with
  | readContract _ (allowance _ _) => true
  | _ => false
  end.

Definition isBalanceQuery (c : Call) : bool :=
  match c with
  | getBalance _ => true
  | readContract _ (balanceOf _) => true
  | _ => false
  end.

Definition isRead (c : Call) : bool :=
  match c with
  | readContract _ _ => true
  | _ => false
  end.


Definition isWithdraw (c : Call) : bool :=
  match c with
  | writeContract _ _ (stakingWithdraw _ _ _) _ => true
  | _ => false
  end.

Definition isTransfer (c : Call) : bool :=
  match c with
  | writeContract _ _ (transfer _ _) _ => true
  | _ => false
  end.

End Observe.


(** ** Scripted networks, for concrete runs *)

Module Scenario.
Import Js Chain.

Definition wallet : Address := "0x5b84Dc548e45cC4f1498b95C000C748c1c953f64".
Definition stranger : Address := "0x1111111111111111111111111111111111111111".
Definition recipient : Address := "0x2222222222222222222222222222222222222222".

Definition messages (f : Fault) : string :=
  match f with
  | InvalidDecimalNumber value => "Number " ++ value ++ " is not a valid decimal number."
  | BigIntSyntax text => "Cannot convert " ++ text ++ " to a BigInt"
  | BigIntRange => "The number cannot be converted to a BigInt because it is not an integer"
  | UndefinedOperand => "Cannot read properties of undefined"
  end.

(** A host whose key is set and derives the account [account]. *)
Definition host (account : Address) : Host.t :=
  Host.mk (Some "ac0974bec39a17e36ba4a6b4d238ff944bacb478cbed5efcae784d7bf4f2ff80")
    (fun _ => inr account) messages.

Record Script : Type := mkScript {
  blockTime : Z;            (* the timestamp of the current block *)
  amountsOut : list Z;      (* what the router quotes *)
  allowed : Z;              (* what an allowance read returns *)
  balance : Z;              (* what a balance query returns *)
  receiptStatus : Hash -> Status;   (* the status of the receipt of a transaction *)
  rejects : Call -> bool    (* the calls that throw *)
}.

Definition hashOf (fn : WriteFn) : Hash :=
  match fn with
  | approve _ _ => "0xa0"
  | _ => "0xb1"
  end.

Definition respond (s : Script) (c : Call) : Resp c :=
  match c return Resp c with
  | getBlock => mkBlock (blockTime s)
  | getBalance _ => balance s
  | readContract _ fn =>
      match fn return ReadRet fn with
      | getAmountsOut _ _ => amountsOut s
      | allowance _ _ => allowed s
      | balanceOf _ => balance s
      end
  | writeContract _ _ fn _ => hashOf fn
  | sendTransaction _ _ _ => "0xc2"
  | waitForTransactionReceipt hash _ _ => mkReceipt (receiptStatus s hash) 7 hash
  end.

Definition world (s : Script) : World :=
  fun c _ =>
    if rejects s c then inl (ErrorObj "execution reverted") else inr (respond s c).

Definition nothing (c : Call) : bool := false.

(** All calls resolve; receipts report success. *)
Definition calm (quote : list Z) (allowance balance : Z) : Script :=
  mkScript 1700000000 quote allowance balance (fun _ => StatusString "success") nothing.

(** All calls resolve; approvals are mined with success, every other
    transaction is mined and reverted. *)
Definition reverting (quote : list Z) (allowance balance : Z) : Script :=
  mkScript 1700000000 quote allowance balance
    (fun hash => if (hash =? "0xa0")%string then StatusString "success"
                 else StatusString "reverted")
    nothing.

(** The calls in [failing] throw; the others resolve, with success. *)
Definition failing (failing : Call -> bool) (quote : list Z) (allowance balance : Z)
  : Script :=
  mkScript 1700000000 quote allowance balance (fun _ => StatusString "success") failing.

End Scenario.

(** ** Statements about runs *)

Module Spec.
Import Js Chain Observe.
Local Open Scope list_scope.

(** The expected output of the swap submitted by the call [c] of a run
    with events [tr]: what the router quoted, or, for a submission along
    the special path in a run without any read, 99.88% of the input. *)
Inductive ExpectedOutput (tr : list Event) (c : Call) (E : Z) : Prop :=
| quotedByRouter (q : Event) (amounts : list Z) :
    In q tr -> quotedAmounts q = Some amounts -> nth_error amounts 1 = Some E ->
    ExpectedOutput tr c E
| historicalRatio (amountIn : Z) :
    (forall q, In q tr -> isRead (callOf q) = false) ->
    swapPath c = Some Swap.specialPath ->
    swapAmountIn c = Some amountIn ->
    E = Z.quot (amountIn * 9988) 10000 ->
    ExpectedOutput tr c E.


(** The input amount of a swap whose source is a token. *)
Definition tokenSwapAmount (c : Call) : option Z :=
  match c with
  | writeContract _ _ (swapExactTokensForTokens a _ _ _ _) _ => Some a
  | writeContract _ _ (swapExactTokensForETH a _ _ _ _) _ => Some a
  | _ => None
  end.

(** The spender and the amount of an approval. *)
Definition approval (c : Call) : option (Address * Z) :=
  match c with
  | writeContract _ _ (approve spender amount) _ => Some (spender, amount)
  | _ => None
  end.



(** The event a run ends on. *)
Definition lastEvent (tr : list Event) : option Event :=
  match rev tr with
  | e :: _ => Some e
  | [] => None
  end.





(** The canonical path of a pair of normalised symbols: the addresses of
    the two registry entries, the wrapped asset standing for [MON]. *)
Definition canonicalPath (tokens : string * string) (path : list Address) : Prop :=
  exists source dest,
    Swap.tokenInfo (fst tokens) = inr source /\
    Swap.tokenInfo (snd tokens) = inr dest /\
    path = [Config.address source; Config.address dest].

(** Every path the run [tr] asks the router to price is the canonical
    path of the pair. *)
Definition quotesCanonical (fromToken toToken : string) (tr : list Event) : Prop :=
  forall e path, In e tr -> quotedPath (callOf e) = Some path ->
  exists tokens,
    Swap.normalize fromToken toToken = inr tokens /\ canonicalPath tokens path.

(** Every swap the run [tr] submits goes along the special path for the
    pair aprMON to MON, and along the canonical path for any other pair. *)
Definition swapsAlongSelectedPath (fromToken toToken : string) (tr : list Event) : Prop :=
  forall e path, In e tr -> swapPath (callOf e) = Some path ->
  exists tokens,
    Swap.normalize fromToken toToken = inr tokens /\
    if (fst tokens =? "aprMON")%string && (snd tokens =? "MON")%string
    then path = Swap.specialPath
    else canonicalPath tokens path.

(** Which balance a call asks for: the native one, through the chain's
    balance query, or a token's, through a contract read. *)
Inductive BalanceKind : Type := NativeBalance | TokenBalance.

Definition balanceQuery (c : Call) : option BalanceKind :=
  match c with
  | getBalance _ => Some NativeBalance
  | readContract _ (balanceOf _) => Some TokenBalance
  | _ => None
  end.

(** The balance gate of an operation moving [amount]: the run opens with
    the balance query of kind [kind]; nothing follows a query that threw;
    a balance below the amount ends the run there, with a failure; and
    whatever follows the query follows a balance that covers the amount. *)
Definition balanceGate {S} (kind : BalanceKind) (amount : Z)
  (tr : list Event) (o : Outcome (Result S)) : Prop :=
  forall q rest, tr = q :: rest ->
    balanceQuery (callOf q) = Some kind /\
    (balanceRead q = None -> rest = []) /\
    (forall b, balanceRead q = Some b -> b < amount ->
       rest = [] /\ exists message, o = Returned (Failure message)) /\
    (forall b e, balanceRead q = Some b -> In e rest -> amount <= b).


End Spec.

(** ** config.ts: the wallet address and the balances *)

Module Balances.
Import Js Viem Config Chain.
Local Open Scope prog_scope.

(** [getWalletAddressFromEnv()] *)
Definition getWalletAddressFromEnv (h : Host.t) : Thrown + Address :=
  match Host.requireKey h "Private key not found in environment variables" with
  | inl e => inl e
  | inr privateKey => Host.privateKeyToAccount h (Host.formatted privateKey)
  end.

(** The names an object literal inherits from [Object.prototype]: the
    test [name in TOKEN_MAP] holds of them as it does of the own keys. *)
Definition inheritedNames : list string :=
  [ "constructor"; "__defineGetter__"; "__defineSetter__"; "hasOwnProperty";
    "__lookupGetter__"; "__lookupSetter__"; "isPrototypeOf"; "propertyIsEnumerable";
    "toString"; "valueOf"; "__proto__"; "toLocaleString" ].

Definition inherited (name : string) : bool :=
  existsb (String.eqb name) inheritedNames.

(** The [address] and the [decimals] of an inherited member are
    undefined.  A read without an address goes to the network all the
    same; it is written here as a read at [undefinedAddress].
    [formatUnits(value, undefined)] pads nothing and cuts at [NaN], that
    is at 0: the integer part is empty and the fraction is the whole
    display. *)
Definition undefinedAddress : Address := "undefined".

Definition formatUnitsUndefined (value : Z) : string :=
  let display0 := BigInt_toString value in
  let negative := startsWith display0 "-" in
  let display := if negative then sliceFrom display0 1 else display0 in
  let fraction := trimTrailingZeros display in
  (if negative then "-" else "") ++ "0" ++
  (if String.eqb fraction EmptyString then EmptyString else "." ++ fraction).

(** [getTokenBalance(address, tokenSymbol)] *)
Definition getTokenBalance (address : Address) (tokenSymbol : string) : Prog string :=
  if (tokenSymbol =? "MON")%string then
    balance <- await (getBalance address) ;;
    Ret (formatUnits balance 18)
  else
    match lookup tokenSymbol with
    | Some tokenConfig =>
        balance <- await (readContract (Config.address tokenConfig) (balanceOf address)) ;;
        Ret (formatUnits balance (decimals tokenConfig))
    | None =>
        if inherited tokenSymbol then
          balance <- await (readContract undefinedAddress (balanceOf address)) ;;
          Ret (formatUnitsUndefined balance)
        else Ret "0"
    end.

(** An element of the list [getTokenBalanceList] returns; [error] is
    present, and true, on the elements pushed by the catch. *)
Record Balance : Type := mkBalance {
  balanceSymbol : string;
  balanceAmount : string;
  balanceDecimals : nat;
  balanceError : bool
}.

(** [TOKEN_MAP[symbol].decimals]; reading a field of a missing entry is a
    TypeError. *)
Definition decimalsOf (symbol : string) : Thrown + nat :=
  match lookup symbol with
  | Some tokenConfig => inr (decimals tokenConfig)
  | None => inl (LibError UndefinedOperand)
  end.

(** The body of the loop: what is pushed for [symbol]. *)
Definition pushed (address : Address) (symbol : string) : Prog Balance :=
  tryCatch
    (amount <- getTokenBalance address symbol ;;
     decimals <- lift (decimalsOf symbol) ;;
     Ret (mkBalance symbol amount decimals false))
    (fun error =>
       decimals <- lift (decimalsOf symbol) ;;
       Ret (mkBalance symbol "0" decimals true)).

(** [for (const symbol of symbols) { ... results.push(...) }] *)
Fixpoint forEachSymbol (address : Address) (symbols : list string)
  (results : list Balance) : Prog (list Balance) :=
  match symbols with
  | [] => Ret results
  | symbol :: rest =>
      entry <- pushed address symbol ;;
      forEachSymbol address rest (results ++ [entry])
  end.

(** [getTokenBalanceList(address)] *)
Definition getTokenBalanceList (address : Address) : Prog (list Balance) :=
  forEachSymbol address keys [].

End Balances.

(** ** The formatters of wrapUnwrap.ts and staking.ts *)

Module Format.
Import Js Config Chain Index.

Definition quote : string := String (ascii_of_nat 34) EmptyString.

(** [result.blockNumber || 'Pending']: the bigint zero is falsy. *)
Definition blockText (blockNumber : Z) : string :=
  if blockNumber =? 0 then "Pending" else BigInt_toString blockNumber.

Definition explorerUrl (txHash : Hash) : string :=
  "https://testnet.monadexplorer.com/tx/" ++ txHash.

(** [formatTransactionResult(result, type)] of wrapUnwrap.ts *)
Definition formatTransactionResult (result : Result WrapUnwrap.Wrapped) (type : string)
  : ContentResponse :=
  match result with
  | Failure error =>
      textResponse
        ("## ❌ Error "
         ++ (if (type =? "wrap")%string then "Wrapping MON" else "Unwrapping WMON")
         ++ nl ++ nl ++ error ++ nl ++ nl
         ++ "Silakan coba lagi dengan jumlah yang berbeda atau periksa saldo Anda.")
  | Success r =>
      let explorerUrl := explorerUrl (WrapUnwrap.txHash r) in
      if (type =? "wrap")%string then
        textResponse
          ("## ✅ MON Wrapped Successfully" ++ nl ++ nl ++ "Your " ++ WrapUnwrap.amount r
           ++ " MON has been successfully wrapped to " ++ WrapUnwrap.amount r
           ++ " WMON. The transaction is complete and has been confirmed on the blockchain."
           ++ nl ++ nl ++ "### Transaction Details" ++ nl
           ++ "- **From**: " ++ WrapUnwrap.from r ++ nl
           ++ "- **Transaction Hash**: " ++ WrapUnwrap.txHash r ++ nl
           ++ "- **Block Number**: " ++ blockText (WrapUnwrap.blockNumber r) ++ nl ++ nl
           ++ "### [🔍 View Transaction on Monad Explorer](" ++ explorerUrl ++ ")" ++ nl ++ nl
           ++ "You can now use your WMON tokens in compatible applications on Monad testnet.")
      else
        textResponse
          ("## ✅ WMON Unwrapped Successfully" ++ nl ++ nl ++ "Your " ++ WrapUnwrap.amount r
           ++ " WMON has been successfully unwrapped to " ++ WrapUnwrap.amount r
           ++ " MON. The transaction is complete and has been confirmed on the blockchain."
           ++ nl ++ nl ++ "### Transaction Details" ++ nl
           ++ "- **From**: " ++ WrapUnwrap.from r ++ nl
           ++ "- **Transaction Hash**: " ++ WrapUnwrap.txHash r ++ nl
           ++ "- **Block Number**: " ++ blockText (WrapUnwrap.blockNumber r) ++ nl ++ nl
           ++ "### [🔍 View Transaction on Monad Explorer](" ++ explorerUrl ++ ")" ++ nl ++ nl
           ++ "You can now use your native MON tokens for transactions on Monad testnet.")
  end.

(** [formatStakingResult(result)] of staking.ts, its texts as the file has
    them. *)
Definition formatStakingResult (result : Result Staking.Staked) : ContentResponse :=
  match result with
  | Failure error =>
      textResponse
        ("## ‚ùå Error Staking MON" ++ nl ++ nl ++ error ++ nl ++ nl
         ++ "Please check your MON balance and try again.")
  | Success r =>
      let explorerUrl := explorerUrl (Staking.stakedTxHash r) in
      let methodUsed :=
        if (Staking.stakedMethod r =? EmptyString)%string then "standard staking"
        else Staking.stakedMethod r in
      textResponse
        ("## ‚úÖ MON Staked Successfully" ++ nl ++ nl ++ "Your " ++ Staking.stakedAmount r
         ++ " MON has been successfully staked using the " ++ quote ++ methodUsed ++ quote
         ++ " method and you've received " ++ Staking.stakedAmount r
         ++ " aprMON. The transaction has been confirmed on the blockchain." ++ nl ++ nl
         ++ "### Transaction Details" ++ nl
         ++ "- **From**: " ++ Staking.stakedFrom r ++ nl
         ++ "- **Transaction Hash**: " ++ Staking.stakedTxHash r ++ nl
         ++ "- **Block Number**: " ++ blockText (Staking.stakedBlockNumber r) ++ nl
         ++ "- **Staked**: " ++ Staking.stakedAmount r ++ " MON ‚û°Ô∏è "
         ++ Staking.stakedAmount r ++ " aprMON" ++ nl
         ++ "- **Method Used**: " ++ methodUsed ++ nl ++ nl
         ++ "### [üîç View Transaction on Monad Explorer](" ++ explorerUrl ++ ")" ++ nl ++ nl
         ++ "You can unstake your aprMON at any time by using the `execute-unstake` tool.")
  end.

End Format.

(** ** index.ts: the balance, wrap and stake tools *)

Module Tools.
Import Js Viem Config Chain Index Balances Format.
Local Open Scope prog_scope.

Definition noKeyText : string :=
  "⚠️ ERROR: No test wallet private key found in .env file." ++ nl ++ nl
  ++ "Please create a .env file with TEST_WALLET_PRIVATE_KEY variable. See .env.example for format.".

Definition noAddressText (h : Host.t) (error : Thrown) : string :=
  "❌ Failed to get wallet address: " ++ Host.messageOrString h error ++ nl ++ nl
  ++ "Please make sure you have TEST_WALLET_PRIVATE_KEY set correctly in your .env file.".

(** [`${n}`] of a number that is a natural. *)
Definition Number_toString (n : nat) : string := BigInt_toString (Z.of_nat n).

(** The handler of [get-mon-balance]. *)
Definition get_mon_balance (h : Host.t) (address : string) : Prog ContentResponse :=
  tryCatch
    (balance <- await (getBalance address) ;;
     Ret (textResponse ("Balance for " ++ address ++ ": " ++ formatUnits balance 18 ++ " MON")))
    (fun error =>
       Ret (textResponse ("Failed to retrieve balance for address: " ++ address
                          ++ ". Error: " ++ Host.messageOrString h error))).

(** The handler of [get-token-balance].  No name that [TOKEN_MAP]
    inherits is in upper case, so that [TOKEN_MAP[tokenSymbol]] is the
    lookup of an own key. *)
Definition get_token_balance (h : Host.t) (address token : string) : Prog ContentResponse :=
  tryCatch
    (let tokenSymbol := toUpperCase token in
     match lookup tokenSymbol with
     | None => Ret (textResponse (notSupportedText tokenSymbol))
     | Some _ =>
         balance <- getTokenBalance address tokenSymbol ;;
         Ret (textResponse ("Balance for " ++ address ++ ": " ++ balance ++ " " ++ tokenSymbol))
     end)
    (fun error =>
       Ret (textResponse ("Failed to retrieve " ++ token ++ " balance for address: " ++ address
                          ++ ". Error: " ++ Host.messageOrString h error))).

(** [for (const balance of balances) { responseText += ... }] *)
Fixpoint portfolioText (balances : list Balance) (responseText : string) : string :=
  match balances with
  | [] => responseText
  | balance :: rest =>
      portfolioText rest
        (responseText ++
         (if balanceError balance
          then "- " ++ balanceSymbol balance ++ ": Error fetching balance" ++ nl
          else "- " ++ balanceSymbol balance ++ ": " ++ balanceAmount balance
               ++ " (decimals: " ++ Number_toString (balanceDecimals balance) ++ ")" ++ nl))
  end.

(** The handler of [get-token-portfolio]. *)
Definition get_token_portfolio (h : Host.t) (address : string) : Prog ContentResponse :=
  tryCatch
    (balances <- getTokenBalanceList address ;;
     Ret (textResponse
            (portfolioText balances
               ("Portfolio for " ++ address ++ " (Popular tokens):" ++ nl ++ nl))))
    (fun error =>
       Ret (textResponse ("Failed to retrieve portfolio for address: " ++ address
                          ++ ". Error: " ++ Host.messageOrString h error))).

(** The handler of [get-my-balance]. *)
Definition get_my_balance (h : Host.t) : Prog ContentResponse :=
  tryCatch
    (match getWalletAddressFromEnv h with
     | inl error => Ret (textResponse (noAddressText h error))
     | inr address =>
         balance <- await (getBalance address) ;;
         Ret (textResponse ("Balance for your wallet (" ++ address ++ "): "
                            ++ formatUnits balance 18 ++ " MON"))
     end)
    (fun error =>
       Ret (textResponse ("Failed to retrieve your wallet balance. Error: "
                          ++ Host.messageOrString h error))).

(** The handler of [get-my-portfolio]. *)
Definition get_my_portfolio (h : Host.t) : Prog ContentResponse :=
  tryCatch
    (match getWalletAddressFromEnv h with
     | inl error => Ret (textResponse (noAddressText h error))
     | inr address =>
         balances <- getTokenBalanceList address ;;
         Ret (textResponse
                (portfolioText balances
                   ("Portfolio for your wallet (" ++ address ++ "):" ++ nl ++ nl)))
     end)
    (fun error =>
       Ret (textResponse ("Failed to retrieve your wallet portfolio. Error: "
                          ++ Host.messageOrString h error))).

(** The handler of [execute-wrap]. *)
Definition execute_wrap (h : Host.t) (amount : string) : Prog ContentResponse :=
  tryCatch
    (match Host.requireKey h EmptyString with
     | inl _ => Ret (textResponse noKeyText)
     | inr _ =>
         result <- WrapUnwrap.wrapMON h amount ;;
         Ret (formatTransactionResult result "wrap")
     end)
    (fun error =>
       Ret (textResponse ("Failed to execute wrapping. Error: "
                          ++ Host.messageOrString h error))).

(** The handler of [execute-unwrap]. *)
Definition execute_unwrap (h : Host.t) (amount : string) : Prog ContentResponse :=
  tryCatch
    (match Host.requireKey h EmptyString with
     | inl _ => Ret (textResponse noKeyText)
     | inr _ =>
         result <- WrapUnwrap.unwrapWMON h amount ;;
         Ret (formatTransactionResult result "unwrap")
     end)
    (fun error =>
       Ret (textResponse ("Failed to execute unwrapping. Error: "
                          ++ Host.messageOrString h error))).

(** The handlers of [deposit] and [withdraw]: no key check and no
    handler of their own. *)
Definition deposit (h : Host.t) (amount : string) : Prog ContentResponse :=
  result <- WrapUnwrap.wrapMON h amount ;;
  Ret (formatTransactionResult result "wrap").

Definition withdraw (h : Host.t) (amount : string) : Prog ContentResponse :=
  result <- WrapUnwrap.unwrapWMON h amount ;;
  Ret (formatTransactionResult result "unwrap").

(** The handler of [execute-stake]. *)
Definition execute_stake (h : Host.t) (amount : string) : Prog ContentResponse :=
  tryCatch
    (match Host.requireKey h EmptyString with
     | inl _ => Ret (textResponse noKeyText)
     | inr _ =>
         result <- Staking.stakeMON h amount ;;
         Ret (formatStakingResult result)
     end)
    (fun error =>
       Ret (textResponse ("Failed to execute stake. Error: "
                          ++ Host.messageOrString h error))).

End Tools.

(** ** The parts of a call *)

Module Parts.
Import Js Chain.


(** The contract a transaction calls, or the address it pays. *)
Definition target (c : Call) : option Address :=
  match c with
  | writeContract _ address _ _ => Some address
  | sendTransaction _ to _ => Some to
  | _ => None
  end.

(** The native value sent along. *)
Definition sentValue (c : Call) : option Z :=
  match c with
  | writeContract _ _ _ value => value
  | sendTransaction _ _ value => Some value
  | _ => None
  end.



(** The block a resolved [getBlock] returned. *)
Definition blockRead (e : Event) : option Block :=
  match e with
  | Ev c r =>
      match c return Settled c -> option Block with
      | getBlock => fun r => match r with inr b => Some b | inl _ => None end
      | _ => fun _ => None
      end r
  end.

(** The submissions among the calls of a run. *)
Definition submissions (tr : list Event) : list Call :=
  filter Observe.isSubmission (map callOf tr).

End Parts.

(** ** Statements about balances *)

Module Laws.
Import Js Viem Config Chain Observe Balances.

(** The balance query [getTokenBalance] makes for a symbol of the
    registry: the chain's own for [MON], a [balanceOf] read at the
    token's contract otherwise. *)
Definition balanceCall (address : Address) (symbol : string) (t : TokenConfig) : Call :=
  if (symbol =? "MON")%string then getBalance address
  else readContract (Config.address t) (balanceOf address).

(** The element [r] is the one pushed for [symbol] after the query [e]:
    the formatted balance when the query resolved, the amount [0] and the
    error flag when it threw. *)
Definition pushedFor (address : Address) (symbol : string) (e : Event) (r : Balance)
  : Prop :=
  exists t,
    lookup symbol = Some t /\
    callOf e = balanceCall address symbol t /\
    balanceSymbol r = symbol /\
    balanceDecimals r = decimals t /\
    match balanceRead e with
    | Some b => balanceAmount r = formatUnits b (decimals t) /\ balanceError r = false
    | None => balanceAmount r = "0" /\ balanceError r = true
    end.

(** Symbols, events and elements go together, one by one. *)
Inductive Portfolio (address : Address)
  : list string -> list Event -> list Balance -> Prop :=
| portfolio_nil : Portfolio address [] [] []
| portfolio_cons (symbol : string) (e : Event) (r : Balance)
    (symbols : list string) (es : list Event) (rs : list Balance) :
    pushedFor address symbol e r ->
    Portfolio address symbols es rs ->
    Portfolio address (symbol :: symbols) (e :: es) (r :: rs).

(** The gate of a transfer of [amount]: no call reads a token balance; a
    submission comes second, right after the chain's balance query, which
    answered a balance other than zero; and an amount that is no decimal
    number is followed by no submission. *)
Definition transferGate (amount : string) (tr : list Event) : Prop :=
  (forall e, In e tr -> Spec.balanceQuery (callOf e) <> Some Spec.TokenBalance) /\
  (forall e, In e tr -> isSubmission (callOf e) = true ->
     exists q balance,
       tr = [q; e] /\
       Spec.balanceQuery (callOf q) = Some Spec.NativeBalance /\
       balanceRead q = Some balance /\
       balance <> 0) /\
  (isDecimalNumber amount = false ->
   forall e, In e tr -> isSubmission (callOf e) = false).

(** An unstake of [amount] that swaps: no withdrawal from the staking
    contract and no transfer to it; every swap goes along the special
    path, for the parsed amount, with the floor of 95% of 99.88% of it;
    and a success names the method [swap] and the amount received as
    99.88% of the input. *)
Definition unstakesBySwap (amount : string) (tr : list Event)
  (o : Outcome (Result Staking.Unstaked)) : Prop :=
  (forall e, In e tr -> isWithdraw (callOf e) = false /\ isTransfer (callOf e) = false) /\
  (forall e m, In e tr -> swapFloor (callOf e) = Some m ->
     exists amountIn,
       parseUnits amount 18 = inr amountIn /\
       swapPath (callOf e) = Some Swap.specialPath /\
       swapAmountIn (callOf e) = Some amountIn /\
       m = Z.quot (Z.quot (amountIn * 9988) 10000 * 950) 1000) /\
  (forall u, o = Returned (Success u) ->
     Staking.method u = "swap" /\
     exists amountIn,
       parseUnits amount 18 = inr amountIn /\
       Staking.receivedAmount u = Some (formatUnits (Z.quot (amountIn * 9988) 10000) 18)).

End Laws.

(** ** Statements about the course of a run *)

Module Steps.
Import Js Viem Config Chain Observe Parts.

(** What a call that rejected threw. *)
Definition thrown (e : Event) : option Thrown :=
  match e with
  | Ev _ (inl error) => Some error
  | Ev _ (inr _) => None
  end.

(** [next c k tr]: the events [tr] open with the call [c], and [k] holds
    of that event and of the events after it. *)
Definition next (c : Call) (k : Event -> list Event -> Prop) (tr : list Event) : Prop :=
  exists e rest, tr = e :: rest /\ callOf e = c /\ k e rest.

(** [nextIs P tr]: the events [tr] open with a call of which [P] holds. *)
Definition nextIs (P : Call -> Prop) (tr : list Event) : Prop :=
  exists e rest, tr = e :: rest /\ P (callOf e).

(** [answered read k]: nothing comes after a call that threw; what the
    call answered, as [read] shows it, is followed as [k] says. *)
Definition answered {V} (read : Event -> option V) (k : V -> list Event -> Prop)
  (e : Event) (rest : list Event) : Prop :=
  match read e with
  | None => rest = []
  | Some v => k v rest
  end.

(** The transaction [c] is submitted and its receipt is awaited; [k] says
    what comes after the receipt. *)
Definition confirmed (c : Call) (k : Receipt -> list Event -> Prop)
  : list Event -> Prop :=
  next c (answered submittedHash (fun hash =>
    next (waitForTransactionReceipt hash 60000 1) (answered receiptOf k))).

(** No approval of [spender] among the events. *)
Definition approvesNot (spender : Address) (tr : list Event) : Prop :=
  forall e s amount,
    In e tr -> Spec.approval (callOf e) = Some (s, amount) -> s <> spender.

(** How an unstake of [amountIn] by [account] opens.  The first call
    reads the allowance of the staking contract.  An allowance that covers
    the amount is followed by no approval of that contract, and the run
    goes on as [action] says.  An allowance below the amount is followed by
    the approval of 10^27 units, submitted and awaited, and then the run
    goes on as [action] says. *)
Definition unstakeOpens (account : Address) (amountIn : Z)
  (action : list Event -> Prop) : list Event -> Prop :=
  next (readContract (address aprMON)
          (allowance account Staking.APRIORI_STAKING_ADDRESS))
    (answered allowanceRead (fun a rest =>
       if a <? amountIn
       then confirmed (writeContract account (address aprMON)
                         (approve Staking.APRIORI_STAKING_ADDRESS (10 ^ 27)) None)
              (fun _ => action) rest
       else approvesNot Staking.APRIORI_STAKING_ADDRESS rest /\ action rest)).

(** What an unstake goes on with: the block read of the swap, or the
    official withdraw. *)
Definition unstakeAction (account : Address) (amountIn : Z) (useSwap : bool) : Call :=
  if useSwap then getBlock
  else writeContract account Staking.APRIORI_STAKING_ADDRESS
         (stakingWithdraw amountIn account account) None.

(** How the swap of a token by [account] runs up to the swap transaction,
    for the normalised pair [tokens] with the registry entries [source]
    and [dest]: the block is read; for a pair other than aprMON to MON the
    router is asked for the amounts along the two-hop path; then, whatever
    the allowance, the approval of the router for exactly [amountIn] is
    submitted and awaited, and the swap of [amountIn] comes next. *)
Definition tokenSwapOpens (account : Address) (tokens : string * string)
  (source dest : TokenConfig) (amountIn : Z) : list Event -> Prop :=
  let approved : list Event -> Prop :=
    confirmed (writeContract account (address source)
                 (approve Swap.SWAP_ROUTER_ADDRESS amountIn) None)
      (fun _ => nextIs (fun c => Spec.tokenSwapAmount c = Some amountIn
                                 /\ target c = Some Swap.SWAP_ROUTER_ADDRESS)) in
  next getBlock (answered blockRead (fun block rest =>
    match Swap.deadlineOf (timestamp block) with
    | inl _ => rest = []
    | inr _ =>
        if ((fst tokens =? "aprMON") && (snd tokens =? "MON"))%string
        then approved rest
        else
          next (readContract Swap.SWAP_ROUTER_ADDRESS
                  (getAmountsOut amountIn [address source; address dest]))
            (answered quotedAmounts (fun amounts rest2 =>
               match nth_error amounts 1 with
               | None => rest2 = []
               | Some _ => approved rest2
               end)) rest
    end)).

(** The result of an unstake that went through by [method]. *)
Definition reportedBy (method : string) (hash : Hash) (rc : Receipt)
  (o : Outcome (Result Staking.Unstaked)) : Prop :=
  exists u,
    o = Returned (Success u) /\
    Staking.method u = method /\
    Staking.txHash u = hash /\
    Staking.blockNumber u = Chain.blockNumber rc.

(** The result of an unstake after the call [e] threw: a failure that
    carries the message of what was thrown and nothing else. *)
Definition failsWith (h : Host.t) (e : Event)
  (o : Outcome (Result Staking.Unstaked)) : Prop :=
  exists error,
    thrown e = Some error /\
    o = Returned (Failure (Host.messageOr h error "Unknown error requesting unstake")).

(** One strategy of an unstake: the submission [c], then the wait for its
    receipt.  A receipt, whatever its status, ends the run, which is
    reported by [method]; when either call throws, the run goes on as
    [otherwise] says of the call that threw. *)
Definition strategy (c : Call) (method : string)
  (o : Outcome (Result Staking.Unstaked))
  (otherwise : Event -> list Event -> Prop) : list Event -> Prop :=
  next c (fun e1 rest =>
    match submittedHash e1 with
    | None => otherwise e1 rest
    | Some hash =>
        next (waitForTransactionReceipt hash 60000 1)
          (fun e2 rest2 =>
             match receiptOf e2 with
             | None => otherwise e2 rest2
             | Some rc => rest2 = [] /\ reportedBy method hash rc o
             end) rest
    end).

(** The official withdraw, then, should it throw, the transfer to the
    staking contract; should that throw too, the run ends on a failure. *)
Definition withdrawThenTransfer (h : Host.t) (account : Address) (amountIn : Z)
  (o : Outcome (Result Staking.Unstaked)) : list Event -> Prop :=
  strategy (writeContract account Staking.APRIORI_STAKING_ADDRESS
              (stakingWithdraw amountIn account account) None)
    "withdraw" o
    (fun _ =>
       strategy (writeContract account (address aprMON)
                   (transfer Staking.APRIORI_STAKING_ADDRESS amountIn) None)
         "transfer" o
         (fun e rest => rest = [] /\ failsWith h e o)).

(** The transaction of a direct transfer of [value] units of the token
    [tokenSymbol], whose registry entry is [config]. *)
Definition transferCall (account to : Address) (tokenSymbol : string)
  (config : TokenConfig) (value : Z) : Call :=
  if (tokenSymbol =? "MON")%string then sendTransaction account to value
  else writeContract account (address config) (transfer to value) None.

(** How a direct transfer runs: the native balance is queried; a balance
    of zero ends the run; otherwise [submission] is the next and the last
    call, and the hash it returns is answered at once by [report]. *)
Definition transferRuns (account : Address) (submission : Call)
  (report : Hash -> Index.ContentResponse)
  (o : Outcome Index.ContentResponse) : list Event -> Prop :=
  next (getBalance account) (answered balanceRead (fun balance rest =>
    if balance =? 0 then rest = []
    else next submission (fun e rest2 =>
           rest2 = [] /\
           forall hash, submittedHash e = Some hash -> o = Returned (report hash))
           rest)).

End Steps.

(** * Properties *)

Module UnitTests.
Import Js Viem.

Example parse_one : parseUnits "1" 18 = inr 1000000000000000000.
Proof. reflexivity. Qed.

Example parse_frac : parseUnits "0.25" 6 = inr 250000.
Proof. reflexivity. Qed.

Example parse_round : parseUnits "1.23456789" 6 = inr 1234568.
Proof. reflexivity. Qed.

Example parse_carry : parseUnits "0.9999999" 6 = inr 1000000.
Proof. reflexivity. Qed.

Example parse_zero : parseUnits "0" 18 = inr 0.
Proof. reflexivity. Qed.

Example parse_negative : parseUnits "-1.5" 6 = inr (-1500000).
Proof. reflexivity. Qed.

Example parse_empty : parseUnits "" 18 = inr 0.
Proof. reflexivity. Qed.

Example parse_word : parseUnits "abc" 18 = inl (LibError (InvalidDecimalNumber "abc")).
Proof. reflexivity. Qed.

Example parse_two_dots : parseUnits "1.2.3" 18 = inl (LibError (InvalidDecimalNumber "1.2.3")).
Proof. reflexivity. Qed.

Example format_small : formatUnits 998800000000000000 18 = "0.9988".
Proof. reflexivity. Qed.

Example format_whole : formatUnits 2000000 6 = "2".
Proof. reflexivity. Qed.

Example format_negative : formatUnits (-1500000) 6 = "-1.5".
Proof. reflexivity. Qed.

Example lower_mixed : toLowerCase "aprMON" = "aprmon".
Proof. reflexivity. Qed.

Example upper_mixed : toUpperCase "aprMON" = "APRMON".
Proof. reflexivity. Qed.

Example lookup_aprMON : Config.lookup "aprMON" = Some Config.aprMON.
Proof. reflexivity. Qed.

Example lookup_upper : Config.lookup "APRMON" = None.
Proof. reflexivity. Qed.

Example findKey_any_case : Config.findKey "APRmon" = Some "aprMON".
Proof. reflexivity. Qed.

Example normalize_native : Swap.normalize "mon" "usdc" = inr ("MON", "USDC").
Proof. reflexivity. Qed.

Example native_is_wrapped : Swap.tokenInfo "MON" = inr Config.WMON.
Proof. reflexivity. Qed.

Example factor_two_percent : Swap.slippageFactor (2 # 1) = inr 980.
Proof. reflexivity. Qed.

Example factor_quarter_percent :
  Swap.slippageFactor (1 # 4) = inl (LibError BigIntRange).
Proof. reflexivity. Qed.

Example floor_truncates : Swap.amountOutMin 1999 980 = 1959.
Proof. reflexivity. Qed.

(** The surplus digits are rounded through a double: [1.4999999999999999999]
    is read as 1.5 and rounds to 2, where the digits alone would give 1. *)
Example parse_surplus_through_double :
  parseUnits "0.0000000000000000014999999999999999999" 18 = inr 2.
Proof. vm_compute. reflexivity. Qed.

Example parse_surplus_down : parseUnits "0.00000000000000000149" 18 = inr 1.
Proof. vm_compute. reflexivity. Qed.

Example nearest_third :
  nearest (1 # 3) = Finite (6004799503160661 # 18014398509481984).
Proof. vm_compute. reflexivity. Qed.

Example nearest_tie_to_even : nearest (inject_Z (2 ^ 53 + 1)) = Finite (inject_Z (2 ^ 53)).
Proof. vm_compute. reflexivity. Qed.

Example nearest_overflow : nearest (inject_Z (2 ^ 1024 - 2 ^ 970)) = Infinity false.
Proof. vm_compute. reflexivity. Qed.

(** The double 1.7000000000000002 times ten is the double 17. *)
Example factor_of_a_double_product :
  Swap.slippageFactor (1914029841632461 # 1125899906842624) = inr 983.
Proof. vm_compute. reflexivity. Qed.

Example deadline_in_range : Swap.deadlineOf 1700000000 = inr 1700001200.
Proof. vm_compute. reflexivity. Qed.

Example deadline_rounded : Swap.deadlineOf (2 ^ 53 + 1) = inr 9007199254742192.
Proof. vm_compute. reflexivity. Qed.

End UnitTests.

(** ** Numbers *)

Module NumberFacts.
Import Js.
Local Open Scope Q_scope.

Lemma pow2_pos (k : Z) : 0 < pow2 k.
Proof. apply Qpower_0_lt. reflexivity. Qed.

Lemma pow2_int (k : Z) : (0 <= k)%Z -> pow2 k == inject_Z (2 ^ k).
Proof. intros H. unfold pow2. now rewrite (Zpower_Qpower 2 k H). Qed.

Lemma pow2_le (a b : Z) : (a <= b)%Z -> pow2 a <= pow2 b.
Proof. intros H. apply Qpower_le_compat_l; [ exact H | discriminate ]. Qed.

Lemma pow2_sub (a b : Z) : pow2 (a - b) == pow2 a / pow2 b.
Proof. apply Qpower_minus. discriminate. Qed.

Lemma pow2_inv (k : Z) : pow2 (- k) == / pow2 k.
Proof. apply Qpower_opp. Qed.

Lemma Qabs_num (x : Q) : Qabs x = (Z.abs (Qnum x) # Qden x).
Proof. destruct x as [n d]. reflexivity. Qed.

(** The exponent is not above the magnitude. *)
Lemma exponent_le (x : Q) : ~ x == 0 -> pow2 (exponentOf x) <= Qabs x.
Proof.
  intros Hx. unfold exponentOf.
  set (n := Z.abs (Qnum x)). set (d := Z.pos (Qden x)).
  destruct (Qle_bool (pow2 (Z.log2 n - Z.log2 d)) (Qabs x)) eqn:Ht.
  - now apply Qle_bool_iff.
  - assert (Hn : (0 < n)%Z).
    { unfold n. destruct x as [[ | p | p] q]; cbn; try lia.
      exfalso. apply Hx. reflexivity. }
    assert (Hd : (0 < d)%Z) by (unfold d; lia).
    replace (Z.log2 n - Z.log2 d - 1)%Z with (Z.log2 n - (Z.log2 d + 1))%Z by lia.
    rewrite pow2_sub.
    rewrite (pow2_int (Z.log2 n)) by apply Z.log2_nonneg.
    rewrite (pow2_int (Z.log2 d + 1)) by (pose proof (Z.log2_nonneg d); lia).
    pose proof (Z.log2_spec n Hn) as [Hn1 _].
    pose proof (Z.log2_spec d Hd) as [_ Hd2].
    replace (Z.succ (Z.log2 d)) with (Z.log2 d + 1)%Z in Hd2 by lia.
    set (A := (2 ^ Z.log2 n)%Z) in *. set (B := (2 ^ (Z.log2 d + 1))%Z) in *.
    apply Qle_shift_div_r.
    + unfold Qlt. cbn. lia.
    + rewrite Qabs_num. fold n. unfold Qle. cbn. fold d. nia.
Qed.

Lemma exponent_below (x : Q) (k : Z) : ~ x == 0 -> Qabs x < pow2 k -> (exponentOf x < k)%Z.
Proof.
  intros Hx Hlt.
  apply (Qpower_lt_compat_l_inv (2 # 1)); [ | reflexivity ].
  eapply Qle_lt_trans; [ apply exponent_le; exact Hx | exact Hlt ].
Qed.

Lemma roundHalfEven_le (y : Q) (k : Z) : y <= inject_Z k -> (roundHalfEven y <= k)%Z.
Proof.
  intros H. unfold roundHalfEven.
  pose proof (Qfloor_le y) as Hf.
  assert (Hk : (Qfloor y <= k)%Z).
  { rewrite <- (Qfloor_Z k). now apply Qfloor_resp_le. }
  destruct (Z.eq_dec (Qfloor y) k) as [He | Hne].
  - assert (Hc : (y - inject_Z (Qfloor y) ?= 1 # 2) = Lt).
    { apply (proj1 (Qlt_alt _ _)). rewrite He. lra. }
    rewrite Hc. lia.
  - destruct (y - inject_Z (Qfloor y) ?= 1 # 2); [ destruct (Z.even (Qfloor y)) | | ]; lia.
Qed.

Lemma roundHalfEven_ge (y : Q) (k : Z) : inject_Z k <= y -> (k <= roundHalfEven y)%Z.
Proof.
  intros H. unfold roundHalfEven.
  assert (Hk : (k <= Qfloor y)%Z).
  { rewrite <- (Qfloor_Z k). now apply Qfloor_resp_le. }
  destruct (y - inject_Z (Qfloor y) ?= 1 # 2); [ destruct (Z.even (Qfloor y)) | | ]; lia.
Qed.

(** Rounding does not change the sign. *)
Lemma double_nonneg (x : Q) : 0 <= x -> 0 <= double x.
Proof.
  intros H. unfold double.
  destruct (Qeq_bool x 0); [ apply Qle_refl | ].
  set (quantum := pow2 _).
  assert (Hq : 0 < quantum) by apply pow2_pos.
  apply Qmult_le_0_compat; [ | now apply Qlt_le_weak ].
  change 0 with (inject_Z 0). rewrite <- Zle_Qle.
  apply roundHalfEven_ge. change (inject_Z 0) with 0.
  apply Qle_shift_div_l; [ exact Hq | lra ].
Qed.

(** Rounding does not cross an integer below 2^53 in magnitude. *)
Lemma double_between (x : Q) (lo hi : Z) :
  (- 2 ^ 53 < lo)%Z -> (hi < 2 ^ 53)%Z ->
  inject_Z lo <= x -> x <= inject_Z hi ->
  inject_Z lo <= double x /\ double x <= inject_Z hi.
Proof.
  intros Hlo Hhi Hl Hh. unfold double.
  destruct (Qeq_bool x 0) eqn:H0.
  - apply Qeq_bool_iff in H0. rewrite H0 in Hl, Hh. split; assumption.
  - assert (Hx : ~ x == 0).
    { intros He. apply Qeq_bool_iff in He. congruence. }
    assert (He : (exponentOf x < 53)%Z).
    { apply exponent_below; [ exact Hx | ].
      rewrite pow2_int by lia.
      apply Qabs_Qlt_condition. split.
      - eapply Qlt_le_trans; [ | exact Hl ]. rewrite <- inject_Z_opp, <- Zlt_Qlt. lia.
      - eapply Qle_lt_trans; [ exact Hh | ]. rewrite <- Zlt_Qlt. lia. }
    set (q := (Z.max (exponentOf x) (-1022) - 52)%Z).
    assert (Hq : (q <= 0)%Z) by (unfold q; lia).
    assert (Hinv : / pow2 q == inject_Z (2 ^ (- q))).
    { rewrite <- pow2_inv. apply pow2_int. lia. }
    assert (Hpos : 0 < pow2 q) by apply pow2_pos.
    assert (Hp : (0 < 2 ^ (- q))%Z) by (apply Z.pow_pos_nonneg; lia).
    assert (Hone : inject_Z (2 ^ (- q)) * pow2 q == 1).
    { rewrite <- Hinv. field. intros Hz. rewrite Hz in Hpos. discriminate Hpos. }
    set (P := (2 ^ (- q))%Z) in *.
    assert (Hy : x / pow2 q == x * inject_Z P).
    { unfold Qdiv. now rewrite Hinv. }
    split.
    + assert (Hr : (lo * P <= roundHalfEven (x / pow2 q))%Z).
      { apply roundHalfEven_ge. rewrite Hy, inject_Z_mult.
        apply Qmult_le_compat_r; [ exact Hl | ].
        change 0 with (inject_Z 0). rewrite <- Zle_Qle. lia. }
      rewrite Zle_Qle in Hr. rewrite inject_Z_mult in Hr.
      apply (Qmult_le_compat_r _ _ (pow2 q)) in Hr; [ | now apply Qlt_le_weak ].
      eapply Qle_trans; [ | exact Hr ].
      rewrite <- Qmult_assoc, Hone. lra.
    + assert (Hr : (roundHalfEven (x / pow2 q) <= hi * P)%Z).
      { apply roundHalfEven_le. rewrite Hy, inject_Z_mult.
        apply Qmult_le_compat_r; [ exact Hh | ].
        change 0 with (inject_Z 0). rewrite <- Zle_Qle. lia. }
      rewrite Zle_Qle in Hr. rewrite inject_Z_mult in Hr.
      apply (Qmult_le_compat_r _ _ (pow2 q)) in Hr; [ | now apply Qlt_le_weak ].
      eapply Qle_trans; [ exact Hr | ].
      rewrite <- Qmult_assoc, Hone. lra.
Qed.



Lemma isInteger_value (x : Q) :
  isInteger x = true -> x == inject_Z (Qnum x / Z.pos (Qden x)).
Proof.
  unfold isInteger, Qeq. cbn. intros H. apply Z.eqb_eq in H.
  rewrite Z.mul_1_r.
  pose proof (Z_div_mod_eq_full (Qnum x) (Z.pos (Qden x))) as E.
  rewrite H in E. lia.
Qed.

Lemma nearest_finite (x : Q) (lo hi : Z) :
  (- 2 ^ 53 < lo)%Z -> (hi < 2 ^ 53)%Z ->
  inject_Z lo <= x -> x <= inject_Z hi ->
  nearest x = Finite (double x).
Proof.
  intros Hlo Hhi Hl Hh.
  destruct (double_between x lo hi Hlo Hhi Hl Hh) as [Ha Hb].
  unfold nearest.
  destruct (Qle_bool (pow2 1024) (Qabs (double x))) eqn:Ht; [ | reflexivity ].
  exfalso. apply Qle_bool_iff in Ht.
  assert (Hlt : Qabs (double x) < pow2 53).
  { rewrite pow2_int by lia. apply Qabs_Qlt_condition. split.
    - eapply Qlt_le_trans; [ | exact Ha ]. rewrite <- inject_Z_opp, <- Zlt_Qlt. lia.
    - eapply Qle_lt_trans; [ exact Hb | ]. rewrite <- Zlt_Qlt. lia. }
  assert (Hle : pow2 53 <= pow2 1024) by (apply pow2_le; lia).
  lra.
Qed.


Lemma Math_round_nonneg (x : Q) : 0 <= x -> (0 <= Math_round x)%Z.
Proof.
  intros H. unfold Math_round.
  rewrite <- (Qfloor_Z 0). apply Qfloor_resp_le. change (inject_Z 0) with 0. lra.
Qed.


End NumberFacts.

(** ** Runs *)

Module RunsFacts.
Import Js Chain Runs.
Local Open Scope list_scope.

Lemma always_run {A} (P : list Event -> Outcome A -> Prop) (p : Prog A) :
  forall tr, always P p tr ->
  forall w : World, P (snd (run w p tr)) (fst (run w p tr)).
Proof.
  induction p as [a | e | c k IH]; intros tr H w; cbn in *; auto.
Qed.

Lemma always_exec {A} (P : list Event -> Outcome A -> Prop) (p : Prog A) :
  always P p [] -> forall w : World, P (trace w p) (result w p).
Proof.
  intros H w. unfold trace, result, exec. now apply always_run.
Qed.

Lemma always_mono {A} (P Q : list Event -> Outcome A -> Prop) (p : Prog A) :
  (forall tr o, P tr o -> Q tr o) ->
  forall tr, always P p tr -> always Q p tr.
Proof.
  intros PQ. induction p as [a | e | c k IH]; intros tr H; cbn in *; auto.
Qed.

Lemma always_bind {A B} (P : list Event -> Outcome B -> Prop) (p : Prog A)
  (f : A -> Prog B) :
  forall tr, always (afterBind P f) p tr -> always P (bind p f) tr.
Proof.
  induction p as [a | e | c k IH]; intros tr H; cbn in *; auto.
Qed.

Lemma always_tryCatch {A} (P : list Event -> Outcome A -> Prop) (p : Prog A)
  (h : Thrown -> Prog A) :
  forall tr, always (afterCatch P h) p tr -> always P (tryCatch p h) tr.
Proof.
  induction p as [a | e | c k IH]; intros tr H; cbn in *; auto.
Qed.

Lemma always_await {A} (P : list Event -> Outcome A -> Prop) (c : Call)
  (f : Resp c -> Prog A) tr :
  (forall e, P (tr ++ [Ev c (inl e)]) (Raised e)) ->
  (forall v, always P (f v) (tr ++ [Ev c (inr v)])) ->
  always P (bind (await c) f) tr.
Proof.
  intros He Hv. cbn. intros [e | v]; cbn; auto.
Qed.

Lemma always_await_last (c : Call) (P : list Event -> Outcome (Resp c) -> Prop) tr :
  (forall e, P (tr ++ [Ev c (inl e)]) (Raised e)) ->
  (forall v, P (tr ++ [Ev c (inr v)]) (Returned v)) ->
  always P (await c) tr.
Proof.
  intros He Hv. cbn. intros [e | v]; cbn; auto.
Qed.

End RunsFacts.

(** Stepping through a program, one construct at a time. *)
Ltac prog_head p :=
  lazymatch p with
  | ?f _ _ _ _ _ _ => f
  | ?f _ _ _ _ _ => f
  | ?f _ _ _ _ => f
  | ?f _ _ _ => f
  | ?f _ _ => f
  | ?f _ => f
  | ?f => f
  end.

Ltac prog_step :=
  lazymatch goal with
  | |- Runs.always _ (Chain.tryCatch _ _) _ => apply RunsFacts.always_tryCatch
  | |- Runs.always ?P (Chain.bind (Chain.await ?c) ?f) ?tr =>
      apply (RunsFacts.always_await P c f tr); [intros ? | intros ?]
  | |- Runs.always _ (Chain.bind (Chain.lift ?x) _) _ =>
      first [ match goal with H : x = inr _ |- _ => rewrite H end
            | destruct x eqn:? ];
      cbn [Chain.bind Chain.lift]
  | |- Runs.always _ (Chain.bind _ _) _ => apply RunsFacts.always_bind
  | |- Runs.always ?P (Chain.await ?c) ?tr =>
      apply (RunsFacts.always_await_last c P tr); [intros ? | intros ?]
  | |- Runs.always _ (Chain.lift ?x) _ =>
      first [ match goal with H : x = inr _ |- _ => rewrite H end
            | destruct x eqn:? ];
      cbn [Chain.lift]
  | |- Runs.always _ (Chain.Ret _) _ =>
      cbn [Runs.always Runs.afterBind Runs.afterCatch]
  | |- Runs.always _ (Chain.Throw _) _ =>
      cbn [Runs.always Runs.afterBind Runs.afterCatch]
  | |- Runs.always ?P (if true then ?p else _) ?tr => change (Runs.always P p tr)
  | |- Runs.always ?P (if false then _ else ?q) ?tr => change (Runs.always P q tr)
  | |- Runs.always _ (if ?b then _ else _) _ => destruct b eqn:?
  | |- Runs.always _ (match ?x with _ => _ end) _ => destruct x eqn:?
  | |- Runs.always _ ?p _ => let f := prog_head p in unfold f
  | |- Runs.afterBind _ _ _ _ => cbn [Runs.always Runs.afterBind Runs.afterCatch]
  | |- Runs.afterCatch _ _ _ _ => cbn [Runs.always Runs.afterBind Runs.afterCatch]
  end.

Ltac prog_steps := repeat prog_step.

(** Membership in an explicit list of events, case by case. *)
Ltac in_cases H :=
  cbn [In] in H;
  repeat (let H' := fresh in destruct H as [H' | H]; [subst | ]);
  try contradiction.

(** ** swap.ts *)

Module SwapFacts.
Import Js Viem Config Chain Runs RunsFacts Observe Spec Swap.
Local Open Scope list_scope.




Lemma second_nth (amounts : list Z) (E E' : Z) :
  second amounts = inr E -> nth_error amounts 1 = Some E' -> E' = E.
Proof.
  unfold second. intros H1 H2. rewrite H2 in H1. congruence.
Qed.

(** Every swap submitted carries the floor computed from its expected
    output and the slippage factor. *)
Lemma executeSwap_floor (h : Host.t) fromToken toToken amount (s : Q) (factor : Z) :
  slippageFactor s = inr factor ->
  always (fun tr (_ : Outcome (Result Swapped)) =>
            forall e m, In e tr -> swapFloor (callOf e) = Some m ->
              (exists E, ExpectedOutput tr (callOf e) E) /\
              (forall E, ExpectedOutput tr (callOf e) E -> m = amountOutMin E factor))
    (executeSwap h fromToken toToken amount s) [].
Proof.
  intros Hf.
  prog_steps.
  all: cbn [app]; intros ev m Hin Hm; in_cases Hin;
    cbn [swapFloor callOf] in Hm; try discriminate Hm.
  all: injection Hm as <-; cbn [callOf].
  all: split.
  (* an expected output exists *)
  all: try match goal with
       | H : second ?amounts = inr ?E |- exists _, _ =>
           exists E;
           eapply quotedByRouter
             with (q := Ev (readContract _ (getAmountsOut _ _)) (inr amounts));
           [ cbn [In]; tauto | reflexivity
           | unfold second in H; destruct (nth_error amounts 1); congruence ]
       end.
  all: try match goal with
       | |- exists _, ExpectedOutput _ (writeContract _ _ (swapExactTokensForETH ?a _ _ _ _) _) _ =>
           exists (Z.quot (a * 9988) 10000);
           eapply historicalRatio;
           [ intros q Hq; in_cases Hq; reflexivity
           | reflexivity | reflexivity | reflexivity ]
       end.
  (* and it determines the floor *)
  all: intros E [q amounts Hq Hqa Hn | a Hno Hp Ha HE].
  (* quoted by the router *)
  all: try (in_cases Hq; cbn [quotedAmounts] in Hqa;
            first [ discriminate Hqa
                  | injection Hqa as <-;
                    match goal with
                    | H : second _ = inr _ |- _ => rewrite (second_nth _ _ _ H Hn)
                    end;
                    reflexivity ]).
  (* the fixed ratio, in a run without a read *)
  all: try match goal with
       | _ : second ?amounts = inr _ |- _ =>
           assert (Hr := Hno (Ev (readContract _ (getAmountsOut _ _)) (inr amounts))
                             ltac:(cbn [In]; tauto));
           discriminate Hr
       end.
  all: cbn [swapAmountIn callOf] in Ha; injection Ha as <-; subst E; reflexivity.
Qed.







(** [executeSwap] asks for no allowance and for no balance. *)
Lemma executeSwap_asks_neither (h : Host.t) fromToken toToken amount (s : Q) :
  always (fun tr (_ : Outcome (Result Swapped)) =>
            forall e, In e tr ->
              isAllowanceRead (callOf e) = false /\ isBalanceQuery (callOf e) = false)
    (executeSwap h fromToken toToken amount s) [].
Proof.
  prog_steps.
  all: cbn [app]; intros ev Hin; in_cases Hin; split; reflexivity.
Qed.

(** [executeSwap] returns a result; it does not throw. *)
Lemma executeSwap_returns (h : Host.t) fromToken toToken amount (s : Q) :
  always (fun _ (o : Outcome (Result Swapped)) => exists r, o = Returned r)
    (executeSwap h fromToken toToken amount s) [].
Proof.
  prog_steps; eexists; reflexivity.
Qed.

(** The registry entry of the special pair's source has 18 decimals. *)
Lemma tokenInfo_aprMON (t : TokenConfig) :
  tokenInfo "aprMON" = inr t -> t = aprMON.
Proof. vm_compute. congruence. Qed.

Lemma executeSwap_special_output (h : Host.t) fromToken toToken amount (s : Q) :
  normalize fromToken toToken = inr ("aprMON", "MON") ->
  always (fun tr (o : Outcome (Result Swapped)) =>
            forall r, o = Returned (Success r) ->
              (exists amountIn,
                  parseUnits amount 18 = inr amountIn /\
                  toAmount r = formatUnits (Z.quot (amountIn * 9988) 10000) 18) /\
              (forall e, In e tr -> isRead (callOf e) = false))
    (executeSwap h fromToken toToken amount s) [].
Proof.
  intros Hn.
  prog_steps.
  all: cbn [app]; intros r Hr; try discriminate Hr.
  all: cbn [fst snd] in *.
  all: try match goal with
       | H : (_ && _)%bool = false |- _ => vm_compute in H; discriminate H
       | H : (_ =? _)%string = _ |- _ => vm_compute in H; discriminate H
       end.
  all: match goal with
       | H : tokenInfo "aprMON" = inr ?t |- _ =>
           apply tokenInfo_aprMON in H; subst t
       end.
  all: injection Hr as <-; split;
    [ eexists; split; [ eassumption | reflexivity ]
    | intros ev Hin; in_cases Hin; reflexivity ].
Qed.

(** C9.  When [executeSwap] succeeds on the aprMON to MON pair, in
    whatever spelling of the symbols, the [toAmount] it reports is
    [amountIn * 9988 / 10000] formatted with 18 decimals, where [amountIn]
    is the parsed input; the run reads nothing from any contract, so no
    quote and no received amount enter the report. *)
Theorem special_swap_reports_fixed_ratio :
  forall (h : Host.t) (fromToken toToken amount : string) (slippagePercent : Q)
         (w : World) (r : Swapped),
    normalize fromToken toToken = inr ("aprMON", "MON") ->
    result w (executeSwap h fromToken toToken amount slippagePercent)
      = Returned (Success r) ->
    (exists amountIn,
        parseUnits amount 18 = inr amountIn /\
        toAmount r = formatUnits (Z.quot (amountIn * 9988) 10000) 18) /\
    (forall e, In e (trace w (executeSwap h fromToken toToken amount slippagePercent)) ->
               isRead (callOf e) = false).
Proof.
  intros h fromToken toToken amount s w r Hn Hr.
  exact (always_exec _ _ (executeSwap_special_output h fromToken toToken amount s Hn) w r Hr).
Qed.

(** A run of C9: 1 aprMON is reported as 0.9988 MON, the symbols being
    given in upper and lower case. *)
Lemma special_swap_reports_fixed_ratio_witness :
  let w := Scenario.world (Scenario.calm [] 0 0) in
  let r := mkSwapped "aprMON" "MON" "1" "0.9988" "0xb1" 7 Scenario.wallet in
  normalize "APRMON" "mon" = inr ("aprMON", "MON") /\
  result w (executeSwap (Scenario.host Scenario.wallet) "APRMON" "mon" "1" (5 # 1))
    = Returned (Success r) /\
  (exists amountIn,
      parseUnits "1" 18 = inr amountIn /\
      toAmount r = formatUnits (Z.quot (amountIn * 9988) 10000) 18).
Proof.
  intros w r.
  assert (Hn : normalize "APRMON" "mon" = inr ("aprMON", "MON")) by reflexivity.
  assert (Hr : result w (executeSwap (Scenario.host Scenario.wallet) "APRMON" "mon" "1" (5 # 1))
               = Returned (Success r)) by (vm_compute; reflexivity).
  refine (conj Hn (conj Hr _)).
  exact (proj1 (special_swap_reports_fixed_ratio (Scenario.host Scenario.wallet)
                  "APRMON" "mon" "1" (5 # 1) w r Hn Hr)).
Defined.

(** C3, at the special pair.  The swap of 1 aprMON is submitted and mined,
    its receipt reports [reverted], and [executeSwap] returns a success
    record: the special branch returns without the status check that the
    default branch makes. *)
Theorem reverted_special_swap_reports_success :
  exec (Scenario.world (Scenario.reverting [] 0 0))
       (executeSwap (Scenario.host Scenario.wallet) "aprMON" "MON" "1" (5 # 1))
  = (Returned (Success (mkSwapped "aprMON" "MON" "1" "0.9988" "0xb1" 7 Scenario.wallet)),
     [ Ev getBlock (inr (mkBlock 1700000000));
       Ev (writeContract Scenario.wallet (address aprMON)
             (approve SWAP_ROUTER_ADDRESS 1000000000000000000) None)
          (inr "0xa0");
       Ev (waitForTransactionReceipt "0xa0" 60000 1)
          (inr (mkReceipt (StatusString "success") 7 "0xa0"));
       Ev (writeContract Scenario.wallet SWAP_ROUTER_ADDRESS
             (swapExactTokensForETH 1000000000000000000 948860000000000000
                specialPath Scenario.wallet 1700001200) None)
          (inr "0xb1");
       Ev (waitForTransactionReceipt "0xb1" 60000 1)
          (inr (mkReceipt (StatusString "reverted") 7 "0xb1")) ]).
Proof. vm_compute. reflexivity. Qed.

(** The default branch does make the check: a run that read a quote and
    ends on a receipt reporting [reverted] returns a failure. *)
Lemma executeSwap_default_checks_status (h : Host.t) fromToken toToken amount (s : Q) :
  always (fun tr (o : Outcome (Result Swapped)) =>
            (exists q, In q tr /\ isRead (callOf q) = true) ->
            forall e rc, lastEvent tr = Some e -> receiptOf e = Some rc ->
              status rc = StatusString "reverted" ->
              exists message, o = Returned (Failure message))
    (executeSwap h fromToken toToken amount s) [].
Proof.
  prog_steps.
  all: cbn [app]; intros [q [Hq Hread]] ev rc Hlast Hrc Hst;
    try (eexists; reflexivity).
  all: in_cases Hq; try discriminate Hread.
  all: cbn in Hlast; injection Hlast as <-; cbn in Hrc; injection Hrc as <-.
  all: rewrite Hst in *; discriminate.
Qed.

(** C6 fails on the special pair.  [getSwapQuote] prices aprMON to MON
    along the two-hop path [aprMON, WMON]; the three-hop special path is
    known to [executeSwap] alone. *)
Lemma quote_ignores_special_path :
  calls (Scenario.world (Scenario.calm [1000000000000000000; 998800000000000000] 0 0))
        (getSwapQuote (Scenario.host Scenario.wallet) "aprMON" "MON" "1")
  = [ readContract SWAP_ROUTER_ADDRESS
        (getAmountsOut 1000000000000000000 [address aprMON; address WMON]) ]
  /\
  map swapPath
      (calls (Scenario.world (Scenario.calm [1000000000000000000; 998800000000000000] 0 0))
             (executeSwap (Scenario.host Scenario.wallet) "aprMON" "MON" "1" (2 # 1)))
  = [ None; None; None; Some specialPath; None ].
Proof. split; vm_compute; reflexivity. Qed.

Lemma getSwapQuote_canonical (h : Host.t) fromToken toToken amount :
  always (fun tr (_ : Outcome (Result Quote)) => quotesCanonical fromToken toToken tr)
    (getSwapQuote h fromToken toToken amount) [].
Proof.
  prog_steps.
  all: cbn [app]; intros ev path Hin Hp; in_cases Hin;
    cbn [quotedPath callOf] in Hp; try discriminate Hp.
  all: injection Hp as <-; eexists; split; [ eassumption | ].
  all: do 2 eexists; repeat split; eassumption.
Qed.

Lemma executeSwap_quotes_canonical (h : Host.t) fromToken toToken amount (s : Q) :
  always (fun tr (_ : Outcome (Result Swapped)) => quotesCanonical fromToken toToken tr)
    (executeSwap h fromToken toToken amount s) [].
Proof.
  prog_steps.
  all: cbn [app]; intros ev path Hin Hp; in_cases Hin;
    cbn [quotedPath callOf] in Hp; try discriminate Hp.
  all: injection Hp as <-; eexists; split; [ eassumption | ].
  all: do 2 eexists; repeat split; eassumption.
Qed.

Lemma executeSwap_selected_path (h : Host.t) fromToken toToken amount (s : Q) :
  always (fun tr (_ : Outcome (Result Swapped)) => swapsAlongSelectedPath fromToken toToken tr)
    (executeSwap h fromToken toToken amount s) [].
Proof.
  prog_steps.
  all: cbn [app]; intros ev path Hin Hp; in_cases Hin;
    cbn [swapPath callOf] in Hp; try discriminate Hp.
  all: injection Hp as <-; eexists; split; [ eassumption | ].
  all: destruct (fst _ =? "aprMON")%string eqn:Hsource;
    destruct (snd _ =? "MON")%string eqn:Hdest; cbn [andb] in *.
  all: first [ match goal with
               | H : true = false |- _ => discriminate H
               | H : false = true |- _ => discriminate H
               end
             | reflexivity
             | do 2 eexists; repeat split; eassumption ].
Qed.

(** C6, amended.  The path [getSwapQuote] asks the router to price is,
    for every pair, the canonical two-hop path, the wrapped asset standing
    for a native endpoint; no exception is looked up.  [executeSwap] looks
    the pair up first: aprMON to MON goes along the special path, every
    other pair is priced and swapped along the canonical path. *)
Theorem path_selection :
  (forall (h : Host.t) (fromToken toToken amount : string) (w : World),
      quotesCanonical fromToken toToken (trace w (getSwapQuote h fromToken toToken amount))) /\
  (forall (h : Host.t) (fromToken toToken amount : string) (slippagePercent : Q) (w : World),
      quotesCanonical fromToken toToken
        (trace w (executeSwap h fromToken toToken amount slippagePercent)) /\
      swapsAlongSelectedPath fromToken toToken
        (trace w (executeSwap h fromToken toToken amount slippagePercent))) /\
  tokenInfo "MON" = inr WMON.
Proof.
  split; [ | split ].
  - intros h fromToken toToken amount w.
    exact (always_exec _ _ (getSwapQuote_canonical h fromToken toToken amount) w).
  - intros h fromToken toToken amount s w. split.
    + exact (always_exec _ _ (executeSwap_quotes_canonical h fromToken toToken amount s) w).
    + exact (always_exec _ _ (executeSwap_selected_path h fromToken toToken amount s) w).
  - reflexivity.
Qed.

(** A run of the amended C6: the quote of aprMON to MON is asked along
    the canonical path of the pair. *)
Lemma path_selection_witness :
  let w := Scenario.world (Scenario.calm [1000000000000000000; 998800000000000000] 0 0) in
  let tr := trace w (getSwapQuote (Scenario.host Scenario.wallet) "aprMON" "MON" "1") in
  let read :=
    Ev (readContract SWAP_ROUTER_ADDRESS
          (getAmountsOut 1000000000000000000 [address aprMON; address WMON]))
       (inr [1000000000000000000; 998800000000000000]) in
  In read tr /\
  quotedPath (callOf read) = Some [address aprMON; address WMON] /\
  exists tokens,
    normalize "aprMON" "MON" = inr tokens /\
    canonicalPath tokens [address aprMON; address WMON].
Proof.
  intros w tr read.
  assert (Hin : In read tr) by (vm_compute; left; reflexivity).
  assert (Hp : quotedPath (callOf read) = Some [address aprMON; address WMON])
    by reflexivity.
  refine (conj Hin (conj Hp _)).
  exact (proj1 path_selection (Scenario.host Scenario.wallet) "aprMON" "MON" "1" w
           read [address aprMON; address WMON] Hin Hp).
Defined.

End SwapFacts.

(** ** staking.ts *)

Module StakingFacts.
Import Js Viem Config Chain Runs RunsFacts Observe Spec Staking.
Local Open Scope list_scope.

Lemma stakeMON_gate (h : Host.t) (amount : string) :
  always (fun tr (o : Outcome (Result Staked)) =>
            (forall key account,
                Host.requireKey h "Private key not found in environment variables" = inr key ->
                Host.privateKeyToAccount h (Host.formatted key) = inr account ->
                toLowerCase account <> toLowerCase expectedAddress ->
                tr = [] /\ exists message, o = Returned (Failure message)) /\
            (forall r, o = Returned (Success r) ->
                toLowerCase (stakedFrom r) = toLowerCase expectedAddress) /\
            (forall e, In e tr -> isSubmission (callOf e) = true ->
                exists key account,
                  Host.requireKey h "Private key not found in environment variables" = inr key /\
                  Host.privateKeyToAccount h (Host.formatted key) = inr account /\
                  toLowerCase account = toLowerCase expectedAddress))
    (stakeMON h amount) [].
Proof.
  prog_steps.
  all: cbn [app]; split; [ | split ].
  (* a different address: nothing is called *)
  all: try (intros key account Hk Ha Hneq;
            first [ congruence
                  | split; [ reflexivity | eexists; reflexivity ]
                  | match goal with
                    | H : negb (_ =? _)%string = false |- _ =>
                        apply negb_false_iff, String.eqb_eq in H; congruence
                    end ]).
  (* a success carries the expected address *)
  all: try (intros r Hr;
            first [ discriminate Hr
                  | injection Hr as <-; cbn [stakedFrom];
                    apply String.eqb_eq, negb_false_iff; assumption ]).
  (* a submission is made for the expected address *)
  all: intros ev Hin Hsub; in_cases Hin; try discriminate Hsub;
    do 2 eexists;
    (split; [ reflexivity | split; [ eassumption | ] ]);
    apply String.eqb_eq, negb_false_iff; assumption.
Qed.

(** C8.  When the address derived from the configured key differs, up to
    the case of its letters, from
    0x5b84Dc548e45cC4f1498b95C000C748c1c953f64, [stakeMON] returns a
    failure and makes no call at all; a success carries that address, and
    a transaction is submitted for that address only. *)
Theorem stake_only_for_expected_wallet :
  forall (h : Host.t) (amount : string) (w : World),
    (forall key account,
        Host.requireKey h "Private key not found in environment variables" = inr key ->
        Host.privateKeyToAccount h (Host.formatted key) = inr account ->
        toLowerCase account <> toLowerCase expectedAddress ->
        trace w (stakeMON h amount) = [] /\
        exists message, result w (stakeMON h amount) = Returned (Failure message)) /\
    (forall r, result w (stakeMON h amount) = Returned (Success r) ->
        toLowerCase (stakedFrom r) = toLowerCase expectedAddress) /\
    (forall e, In e (trace w (stakeMON h amount)) -> isSubmission (callOf e) = true ->
        exists key account,
          Host.requireKey h "Private key not found in environment variables" = inr key /\
          Host.privateKeyToAccount h (Host.formatted key) = inr account /\
          toLowerCase account = toLowerCase expectedAddress).
Proof.
  intros h amount w.
  exact (always_exec _ _ (stakeMON_gate h amount) w).
Qed.

(** Runs of C8: with a key that derives another address the stake fails
    without a call; with the expected wallet it succeeds. *)
Lemma stake_only_for_expected_wallet_witness :
  let w := Scenario.world (Scenario.calm [] 0 (10 ^ 20)) in
  let other := Scenario.host Scenario.stranger in
  let key := "ac0974bec39a17e36ba4a6b4d238ff944bacb478cbed5efcae784d7bf4f2ff80" in
  let staked := mkStaked "1" "0xb1" 7 Scenario.wallet "deposit" in
  (Host.requireKey other "Private key not found in environment variables" = inr key /\
   Host.privateKeyToAccount other (Host.formatted key) = inr Scenario.stranger /\
   toLowerCase Scenario.stranger <> toLowerCase expectedAddress /\
   trace w (stakeMON other "1") = [] /\
   exists message, result w (stakeMON other "1") = Returned (Failure message)) /\
  (result w (stakeMON (Scenario.host Scenario.wallet) "1") = Returned (Success staked) /\
   toLowerCase (stakedFrom staked) = toLowerCase expectedAddress).
Proof.
  intros w other key staked. split.
  - assert (Hk : Host.requireKey other "Private key not found in environment variables"
                 = inr key) by reflexivity.
    assert (Ha : Host.privateKeyToAccount other (Host.formatted key)
                 = inr Scenario.stranger) by reflexivity.
    assert (Hneq : toLowerCase Scenario.stranger <> toLowerCase expectedAddress)
      by (intros H; vm_compute in H; discriminate H).
    refine (conj Hk (conj Ha (conj Hneq _))).
    exact (proj1 (stake_only_for_expected_wallet other "1" w) key Scenario.stranger Hk Ha Hneq).
  - assert (Hr : result w (stakeMON (Scenario.host Scenario.wallet) "1")
                 = Returned (Success staked)) by (vm_compute; reflexivity).
    refine (conj Hr _).
    exact (proj1 (proj2 (stake_only_for_expected_wallet (Scenario.host Scenario.wallet) "1" w))
             staked Hr).
Defined.







(** An unstake asks for no balance. *)
Lemma unstake_asks_no_balance (h : Host.t) (amount : string) (useSwap : bool) :
  always (fun tr (_ : Outcome (Result Unstaked)) =>
            forall e, In e tr -> isBalanceQuery (callOf e) = false)
    (requestUnstakeAprMON h amount useSwap) [].
Proof.
  destruct useSwap.
  all: prog_steps.
  all: cbn [app]; intros ev Hin; in_cases Hin; reflexivity.
Qed.

End StakingFacts.

(** ** wrapUnwrap.ts *)

Module WrapUnwrapFacts.
Import Js Viem Config Chain Runs RunsFacts Observe Spec WrapUnwrap.
Local Open Scope list_scope.

(** Solves a balance gate on an explicit run. *)
Ltac gate_query_threw :=
  cbn [balanceRead]; intros Hnone; first [ reflexivity | discriminate Hnone ].

Ltac gate_below :=
  cbn [balanceRead]; intros b Hsome Hlt;
  first [ discriminate Hsome
        | injection Hsome as <-;
          first [ split; [ reflexivity | eexists; reflexivity ]
                | match goal with
                  | H : (_ <? _) = false |- _ => apply Z.ltb_ge in H; lia
                  end ] ].

Ltac gate_covered :=
  cbn [balanceRead]; intros b ev Hsome Hin;
  first [ discriminate Hsome
        | injection Hsome as <-;
          first [ contradiction
                | match goal with
                  | H : (_ <? _) = false |- _ => apply Z.ltb_ge in H; exact H
                  end ] ].

Ltac gate_cases :=
  cbn [app]; unfold balanceGate; intros q rest Htr;
  first [ discriminate Htr
        | injection Htr as <- <-;
          split; [ reflexivity
                 | split; [ gate_query_threw | split; [ gate_below | gate_covered ] ] ] ].

Lemma wrapMON_balanceGate (h : Host.t) (amount : string) (amountInWei : Z) :
  parseEther amount = inr amountInWei ->
  always (balanceGate NativeBalance amountInWei) (wrapMON h amount) [].
Proof.
  intros Hp. prog_steps. all: gate_cases.
Qed.

Lemma unwrapWMON_balanceGate (h : Host.t) (amount : string) (amountInWei : Z) :
  parseEther amount = inr amountInWei ->
  always (balanceGate TokenBalance amountInWei) (unwrapWMON h amount) [].
Proof.
  intros Hp. prog_steps. all: gate_cases.
Qed.

(** A wrap or an unwrap that ends on a receipt reporting [reverted]
    returns a failure. *)
Lemma wrapMON_checks_status (h : Host.t) (amount : string) :
  always (fun tr (o : Outcome (Result Wrapped)) =>
            forall e rc, lastEvent tr = Some e -> receiptOf e = Some rc ->
              status rc = StatusString "reverted" ->
              exists message, o = Returned (Failure message))
    (wrapMON h amount) [].
Proof.
  prog_steps.
  all: cbn [app]; intros ev rc Hlast Hrc Hst; try (eexists; reflexivity).
  all: cbn in Hlast; injection Hlast as <-; cbn in Hrc; injection Hrc as <-.
  all: rewrite Hst in *; discriminate.
Qed.

Lemma unwrapWMON_checks_status (h : Host.t) (amount : string) :
  always (fun tr (o : Outcome (Result Wrapped)) =>
            forall e rc, lastEvent tr = Some e -> receiptOf e = Some rc ->
              status rc = StatusString "reverted" ->
              exists message, o = Returned (Failure message))
    (unwrapWMON h amount) [].
Proof.
  prog_steps.
  all: cbn [app]; intros ev rc Hlast Hrc Hst; try (eexists; reflexivity).
  all: cbn in Hlast; injection Hlast as <-; cbn in Hrc; injection Hrc as <-.
  all: rewrite Hst in *; discriminate.
Qed.

End WrapUnwrapFacts.

(** ** Across the operations *)

Module Orchestration.
Import Js Viem Config Chain Runs RunsFacts Observe Spec.
Import Swap WrapUnwrap Staking.
Import SwapFacts WrapUnwrapFacts StakingFacts.
Local Open Scope list_scope.

(** *** Approval *)




(** *** Balance *)

Lemma stakeMON_balanceGate (h : Host.t) (amount : string) (amountIn : Z) :
  parseUnits amount 18 = inr amountIn ->
  always (balanceGate NativeBalance amountIn) (stakeMON h amount) [].
Proof.
  intros Hp. prog_steps. all: gate_cases.
Qed.

(** C7 fails on swaps.  The wallet holds no USDC; the swap of 1 USDC asks
    for no balance, has its approval submitted and mined, and fails only
    when the router rejects the swap itself. *)
Lemma swap_submits_without_balance_check :
  let w := Scenario.world
             (Scenario.failing isSwap
                [1000000; 400000000000000] 0 0) in
  let usdc := "0xf817257fed379853cDe0fa4F97AB987181B1E5Ea" in
  let weth := "0xB5a30b0FDc5EA94A52fDc42e3E9760Cb8449Fb37" in
  (forall tr, w (readContract usdc (balanceOf Scenario.wallet)) tr = inr 0) /\
  exec w (executeSwap (Scenario.host Scenario.wallet) "USDC" "WETH" "1" (2 # 1))
  = (Returned (Failure "execution reverted"),
     [ Ev getBlock (inr (mkBlock 1700000000));
       Ev (readContract SWAP_ROUTER_ADDRESS (getAmountsOut 1000000 [usdc; weth]))
          (inr [1000000; 400000000000000]);
       Ev (writeContract Scenario.wallet usdc (approve SWAP_ROUTER_ADDRESS 1000000) None)
          (inr "0xa0");
       Ev (waitForTransactionReceipt "0xa0" 60000 1)
          (inr (mkReceipt (StatusString "success") 7 "0xa0"));
       Ev (writeContract Scenario.wallet SWAP_ROUTER_ADDRESS
             (swapExactTokensForTokens 1000000 392000000000000 [usdc; weth]
                Scenario.wallet 1700001200) None)
          (inl (ErrorObj "execution reverted")) ]).
Proof.
  split; [ intros tr | ]; vm_compute; reflexivity.
Qed.

(** C7, amended.  A wrap and a stake open with the chain's balance query,
    an unwrap with the read of the WMON balance; a balance below the
    amount ends the run there with a failure, before any transaction.  A
    swap and an unstake ask for no balance. *)
Theorem balance_checked_before_wrap_unwrap_stake :
  (forall (h : Host.t) (amount : string) (w : World) (amountInWei : Z),
      parseEther amount = inr amountInWei ->
      balanceGate NativeBalance amountInWei
        (trace w (wrapMON h amount)) (result w (wrapMON h amount))) /\
  (forall (h : Host.t) (amount : string) (w : World) (amountInWei : Z),
      parseEther amount = inr amountInWei ->
      balanceGate TokenBalance amountInWei
        (trace w (unwrapWMON h amount)) (result w (unwrapWMON h amount))) /\
  (forall (h : Host.t) (amount : string) (w : World) (amountIn : Z),
      parseUnits amount 18 = inr amountIn ->
      balanceGate NativeBalance amountIn
        (trace w (stakeMON h amount)) (result w (stakeMON h amount))) /\
  (forall (h : Host.t) (fromToken toToken amount : string) (slippagePercent : Q)
          (w : World) (e : Event),
      In e (trace w (executeSwap h fromToken toToken amount slippagePercent)) ->
      isBalanceQuery (callOf e) = false) /\
  (forall (h : Host.t) (amount : string) (useSwap : bool) (w : World) (e : Event),
      In e (trace w (requestUnstakeAprMON h amount useSwap)) ->
      isBalanceQuery (callOf e) = false).
Proof.
  split; [ | split; [ | split; [ | split ] ] ].
  - intros h amount w a Hp.
    exact (always_exec _ _ (wrapMON_balanceGate h amount a Hp) w).
  - intros h amount w a Hp.
    exact (always_exec _ _ (unwrapWMON_balanceGate h amount a Hp) w).
  - intros h amount w a Hp.
    exact (always_exec _ _ (stakeMON_balanceGate h amount a Hp) w).
  - intros h fromToken toToken amount s w e Hin.
    exact (proj2 (always_exec _ _ (executeSwap_asks_neither h fromToken toToken amount s)
                    w e Hin)).
  - intros h amount useSwap w e Hin.
    exact (always_exec _ _ (unstake_asks_no_balance h amount useSwap) w e Hin).
Qed.

(** A run of the amended C7: a wrap of 1 MON by a wallet that holds
    nothing stops at the balance query. *)
Lemma balance_checked_before_wrap_unwrap_stake_witness :
  let h := Scenario.host Scenario.wallet in
  let w := Scenario.world (Scenario.calm [] 0 0) in
  parseEther "1" = inr (10 ^ 18) /\
  balanceGate NativeBalance (10 ^ 18) (trace w (wrapMON h "1")) (result w (wrapMON h "1")) /\
  calls w (wrapMON h "1") = [ getBalance Scenario.wallet ].
Proof.
  intros h w.
  assert (Hp : parseEther "1" = inr (10 ^ 18)) by (vm_compute; reflexivity).
  refine (conj Hp (conj _ _)).
  - exact (proj1 balance_checked_before_wrap_unwrap_stake h "1" w (10 ^ 18) Hp).
  - vm_compute. reflexivity.
Defined.

(** *** Amounts *)














(** *** Reverted receipts *)

(** A stake that ends on a receipt reporting [reverted] returns a
    failure. *)
Lemma stakeMON_checks_status (h : Host.t) (amount : string) :
  always (fun tr (o : Outcome (Result Staked)) =>
            forall e rc, lastEvent tr = Some e -> receiptOf e = Some rc ->
              status rc = StatusString "reverted" ->
              exists message, o = Returned (Failure message))
    (stakeMON h amount) [].
Proof.
  prog_steps.
  all: cbn [app]; intros ev rc Hlast Hrc Hst; try (eexists; reflexivity).
  all: cbn in Hlast; injection Hlast as <-; cbn in Hrc; injection Hrc as <-.
  all: rewrite Hst in *; discriminate.
Qed.

(** An unstake does not look at the status: the official withdraw is
    mined and reverted, and the result is a success by the method
    [withdraw]. *)
Lemma reverted_unstake_reports_success :
  exec (Scenario.world (Scenario.reverting [] (10 ^ 30) 0))
       (requestUnstakeAprMON (Scenario.host Scenario.wallet) "1" false)
  = (Returned (Success
       (mkUnstaked "1" None "0xb1" 7 Scenario.wallet "withdraw"
          "Your 1 aprMON has been unstaked using the withdraw method. Please check your MON balance.")),
     [ Ev (readContract (address aprMON)
             (allowance Scenario.wallet APRIORI_STAKING_ADDRESS))
          (inr (10 ^ 30));
       Ev (writeContract Scenario.wallet APRIORI_STAKING_ADDRESS
             (stakingWithdraw 1000000000000000000 Scenario.wallet Scenario.wallet) None)
          (inr "0xb1");
       Ev (waitForTransactionReceipt "0xb1" 60000 1)
          (inr (mkReceipt (StatusString "reverted") 7 "0xb1")) ]).
Proof. vm_compute. reflexivity. Qed.

End Orchestration.

(** ** index.ts *)

Module IndexFacts.
Import Js Viem Config Chain Runs RunsFacts Observe Spec Index.
Local Open Scope list_scope.








End IndexFacts.

(** ** Decimal texts *)

Module UnitsFacts.
Import Js Viem.

Lemma append_empty (s : string) : s ++ "" = s.
Proof. induction s as [ | c s IH]; cbn; [ reflexivity | now rewrite IH ]. Qed.

Lemma append_associative (a b c : string) : (a ++ b) ++ c = a ++ (b ++ c).
Proof. induction a as [ | x a IH]; cbn; [ reflexivity | now rewrite IH ]. Qed.

Lemma length_append (a b : string) :
  String.length (a ++ b) = (String.length a + String.length b)%nat.
Proof. induction a as [ | x a IH]; cbn; [ reflexivity | now rewrite IH ]. Qed.

Lemma length_repeatChar (c : ascii) (n : nat) : String.length (repeatChar c n) = n.
Proof. induction n as [ | n IH]; cbn; [ reflexivity | now rewrite IH ]. Qed.

Lemma allChars_append (f : ascii -> bool) (a b : string) :
  allChars f (a ++ b) = allChars f a && allChars f b.
Proof.
  induction a as [ | x a IH]; cbn; [ reflexivity | ].
  now rewrite IH, andb_assoc.
Qed.

Lemma allChars_zeros (n : nat) : allChars isDigit (repeatChar "0" n) = true.
Proof. induction n as [ | n IH]; cbn; [ reflexivity | exact IH ]. Qed.

Lemma digitsValue_append (acc : Z) (a b : string) :
  digitsValue acc (a ++ b) = digitsValue (digitsValue acc a) b.
Proof. revert acc. induction a as [ | x a IH]; intros acc; cbn; [ reflexivity | apply IH ]. Qed.

Lemma digitsValue_zeros (n : nat) : digitsValue 0 (repeatChar "0" n) = 0.
Proof. induction n as [ | n IH]; cbn; [ reflexivity | exact IH ]. Qed.

(** A text cut at [n] is its two slices. *)
Lemma substring_whole (s : string) : substring 0 (String.length s) s = s.
Proof. induction s as [ | c s IH]; cbn; [ reflexivity | now rewrite IH ]. Qed.

Lemma cut (s : string) (n : nat) :
  (n <= String.length s)%nat ->
  s = substring 0 n s ++ substring n (String.length s - n) s /\
  String.length (substring 0 n s) = n /\
  String.length (substring n (String.length s - n) s) = (String.length s - n)%nat.
Proof.
  revert n. induction s as [ | c s IH]; intros n Hn.
  - cbn in Hn. assert (n = 0%nat) by lia. subst. cbn. auto.
  - destruct n as [ | n].
    + cbn [substring String.length Nat.sub].
      rewrite substring_whole. cbn. auto.
    + cbn in Hn. destruct (IH n ltac:(lia)) as (H1 & H2 & H3).
      cbn [substring String.length Nat.sub append].
      repeat split; [ now rewrite <- H1 | now rewrite H2 | exact H3 ].
Qed.

(** The digits of a positive number. *)
Lemma uint_digits (d : Decimal.uint) :
  allChars isDigit (NilEmpty.string_of_uint d) = true.
Proof. induction d; cbn; auto. Qed.

Lemma uint_value_acc (d : Decimal.uint) (acc : positive) :
  digitsValue (Zpos acc) (NilEmpty.string_of_uint d) = Zpos (Pos.of_uint_acc d acc).
Proof.
  revert acc. induction d; intros acc; cbn [NilEmpty.string_of_uint digitsValue Pos.of_uint_acc];
    [ reflexivity | .. ]; rewrite <- IHd.
  all: f_equal.
  all: match goal with
       | |- context [digitValue ?c] =>
           let v := eval vm_compute in (digitValue c) in change (digitValue c) with v
       end; lia.
Qed.

Lemma uint_value (d : Decimal.uint) :
  digitsValue 0 (NilEmpty.string_of_uint d) = Z.of_N (Pos.of_uint d).
Proof.
  induction d; cbn [NilEmpty.string_of_uint digitsValue Pos.of_uint];
    [ reflexivity | exact IHd | .. ]; apply uint_value_acc.
Qed.

(** [x.toString()] is an optional minus sign and the digits of [|x|]. *)
Lemma BigInt_toString_digits (x : Z) :
  exists digits,
    BigInt_toString x = (if x <? 0 then "-" else "") ++ digits /\
    digits <> "" /\
    allChars isDigit digits = true /\
    digitsValue 0 digits = Z.abs x.
Proof.
  destruct x as [ | p | p].
  - exists "0". repeat split. discriminate.
  - exists (NilEmpty.string_of_uint (Pos.to_uint p)).
    assert (Hnil := Unsigned.to_uint_nonnil p).
    split; [ | split; [ | split ] ].
    + change (Z.pos p <? 0) with false.
      unfold BigInt_toString, Z.to_int, NilZero.string_of_int, NilZero.string_of_uint.
      destruct (Pos.to_uint p); [ contradiction | reflexivity .. ].
    + destruct (Pos.to_uint p); cbn; congruence.
    + apply uint_digits.
    + rewrite uint_value, DecimalPos.Unsigned.of_to. reflexivity.
  - exists (NilEmpty.string_of_uint (Pos.to_uint p)).
    assert (Hnil := Unsigned.to_uint_nonnil p).
    split; [ | split; [ | split ] ].
    + change (Z.neg p <? 0) with true.
      unfold BigInt_toString, Z.to_int, NilZero.string_of_int, NilZero.string_of_uint.
      destruct (Pos.to_uint p); [ contradiction | reflexivity .. ].
    + destruct (Pos.to_uint p); cbn; congruence.
    + apply uint_digits.
    + rewrite uint_value, DecimalPos.Unsigned.of_to. reflexivity.
Qed.


Lemma digit_not_minus (c : ascii) : isDigit c = true -> c <> "-"%char.
Proof. intros H ->. vm_compute in H. discriminate H. Qed.

Lemma digit_not_dot (c : ascii) : isDigit c = true -> c <> "."%char.
Proof. intros H ->. vm_compute in H. discriminate H. Qed.

Lemma startsWith_minus_digits (digits : string) :
  digits <> "" -> allChars isDigit digits = true -> startsWith digits "-" = false.
Proof.
  destruct digits as [ | c r]; [ congruence | ].
  intros _ H. cbn in H. apply andb_prop in H as [Hc _].
  unfold startsWith. cbn [prefix].
  destruct (ascii_dec "-" c) as [<- | _]; [ vm_compute in Hc; discriminate Hc | reflexivity ].
Qed.

Lemma sliceFrom_minus (s : string) : sliceFrom (String "-" s) 1 = s.
Proof.
  unfold sliceFrom. cbn [String.length Nat.sub substring].
  rewrite Nat.sub_0_r. apply substring_whole.
Qed.

(** Trailing zeros: what is removed can be padded back. *)
Lemma trim_length (f : string) :
  (String.length (trimTrailingZeros f) <= String.length f)%nat.
Proof.
  induction f as [ | c r IH]; cbn; [ lia | ].
  destruct (Ascii.eqb c "0" && (trimTrailingZeros r =? "")%string)%bool; cbn; lia.
Qed.

Lemma trim_pad (f : string) :
  padEnd (trimTrailingZeros f) (String.length f) "0" = f.
Proof.
  unfold padEnd.
  induction f as [ | c r IH]; cbn [trimTrailingZeros]; [ reflexivity | ].
  destruct (Ascii.eqb c "0") eqn:Hc; cbn [andb].
  - apply Ascii.eqb_eq in Hc. subst c.
    destruct (trimTrailingZeros r =? "")%string eqn:Hr.
    + apply String.eqb_eq in Hr. rewrite Hr in IH. cbn in IH.
      rewrite Nat.sub_0_r in IH. cbn. now rewrite IH.
    + cbn. now rewrite IH.
  - cbn. now rewrite IH.
Qed.

Lemma trim_idem (f : string) :
  trimTrailingZeros (trimTrailingZeros f) = trimTrailingZeros f.
Proof.
  induction f as [ | c r IH]; cbn [trimTrailingZeros]; [ reflexivity | ].
  destruct (Ascii.eqb c "0" && (trimTrailingZeros r =? "")%string)%bool eqn:H;
    [ reflexivity | ].
  cbn [trimTrailingZeros]. now rewrite IH, H.
Qed.

Lemma trim_digits (f : string) :
  allChars isDigit f = true -> allChars isDigit (trimTrailingZeros f) = true.
Proof.
  induction f as [ | c r IH]; cbn [trimTrailingZeros allChars]; [ reflexivity | ].
  intros H. apply andb_prop in H as [Hc Hr].
  destruct (Ascii.eqb c "0" && (trimTrailingZeros r =? "")%string)%bool; [ reflexivity | ].
  cbn. now rewrite Hc, IH.
Qed.

(** Digits hold no point. *)
Lemma dropDigits_digits (a b : string) :
  allChars isDigit a = true -> dropDigits (a ++ b) = dropDigits b.
Proof.
  induction a as [ | c r IH]; cbn; [ reflexivity | ].
  intros H. apply andb_prop in H as [Hc Hr]. now rewrite Hc, IH.
Qed.

Lemma dropDigits_all (a : string) : allChars isDigit a = true -> dropDigits a = "".
Proof.
  intros H. rewrite <- (append_empty a). now rewrite dropDigits_digits.
Qed.

Lemma splitDot_cons (s : string) : splitDot s <> [].
Proof.
  destruct s as [ | c r]; cbn; [ discriminate | ].
  destruct (Ascii.eqb c "."); [ discriminate | ].
  destruct (splitDot r); discriminate.
Qed.

Lemma splitDot_digits (a b : string) :
  allChars isDigit a = true ->
  hd "" (splitDot (a ++ b)) = a ++ hd "" (splitDot b) /\
  tl (splitDot (a ++ b)) = tl (splitDot b).
Proof.
  induction a as [ | c r IH]; cbn [append allChars]; [ auto | ].
  intros H. apply andb_prop in H as [Hc Hr].
  destruct (IH Hr) as [Hh Ht].
  cbn [splitDot].
  destruct (Ascii.eqb c ".") eqn:Hdot.
  - apply Ascii.eqb_eq in Hdot. now apply digit_not_dot in Hc.
  - pose proof (splitDot_cons (r ++ b)) as Hne.
    destruct (splitDot (r ++ b)) as [ | h t]; [ congruence | ].
    cbn [hd tl] in *. now subst.
Qed.

Lemma splitDot_all_digits (a : string) :
  allChars isDigit a = true -> splitDot a = [a].
Proof.
  intros H. destruct (splitDot_digits a "" H) as [Hh Ht].
  rewrite append_empty in *. cbn in Hh, Ht. rewrite append_empty in Hh.
  pose proof (splitDot_cons a) as Hne.
  destruct (splitDot a) as [ | h t]; [ congruence | ].
  cbn in *. now subst.
Qed.

(** [BigInt] of digits, with or without a sign. *)
Lemma BigInt_of_digits (digits : string) :
  allChars isDigit digits = true -> BigInt_of_string digits = inr (digitsValue 0 digits).
Proof.
  intros H. destruct digits as [ | c r]; [ reflexivity | ].
  pose proof H as H'. cbn [allChars] in H'. apply andb_prop in H' as [Hc _].
  assert (Hm := digit_not_minus c Hc).
  unfold BigInt_of_string.
  destruct c as [[] [] [] [] [] [] [] []]; try (now rewrite H); congruence.
Qed.

Lemma BigInt_of_negative (digits : string) :
  digits <> "" -> allChars isDigit digits = true ->
  BigInt_of_string (String "-" digits) = inr (- digitsValue 0 digits).
Proof.
  intros Hne H. unfold BigInt_of_string. rewrite H.
  destruct digits; [ congruence | reflexivity ].
Qed.


Lemma startsWith_minus (s : string) : startsWith (String "-" s) "-" = true.
Proof.
  unfold startsWith. cbn [prefix].
  destruct (ascii_dec "-" "-"); [ destruct s; reflexivity | congruence ].
Qed.

(** What [formatUnits] writes: the sign, the integer digits or [0], and,
    after a point, the [decimals] fraction digits without their trailing
    zeros. *)
Lemma formatUnits_shape (value : Z) (decimals : nat) :
  exists integer fraction,
    formatUnits value decimals
    = (if value <? 0 then "-" else "")
      ++ (if (integer =? "")%string then "0" else integer)
      ++ (if (trimTrailingZeros fraction =? "")%string then ""
          else "." ++ trimTrailingZeros fraction) /\
    allChars isDigit integer = true /\
    allChars isDigit fraction = true /\
    String.length fraction = decimals /\
    digitsValue 0 (integer ++ fraction) = Z.abs value.
Proof.
  destruct (BigInt_toString_digits value) as (digits & Hs & Hne & Hd & Hv).
  set (display := padStart digits decimals "0").
  assert (Hlen : (decimals <= String.length display)%nat).
  { unfold display, padStart. rewrite length_append, length_repeatChar. lia. }
  assert (Hdisplay : allChars isDigit display = true).
  { unfold display, padStart. now rewrite allChars_append, allChars_zeros, Hd. }
  assert (Hvalue : digitsValue 0 display = Z.abs value).
  { unfold display, padStart. now rewrite digitsValue_append, digitsValue_zeros. }
  destruct (cut display (String.length display - decimals) ltac:(lia))
    as (Hcut & _ & HlenF).
  exists (slice display 0 (String.length display - decimals)),
         (sliceFrom display (String.length display - decimals)).
  unfold slice, sliceFrom. rewrite Nat.sub_0_r.
  rewrite Hcut, allChars_append in Hdisplay. apply andb_prop in Hdisplay as [HI HF].
  split; [ | split; [ exact HI | split; [ exact HF | split ] ] ].
  - unfold formatUnits. rewrite Hs.
    destruct (value <? 0).
    + change ("-" ++ digits) with (String "-" digits).
      rewrite startsWith_minus, sliceFrom_minus.
      fold display. unfold slice, sliceFrom. rewrite Nat.sub_0_r. reflexivity.
    + change ("" ++ digits) with digits.
      rewrite (startsWith_minus_digits digits Hne Hd).
      fold display. unfold slice, sliceFrom. rewrite Nat.sub_0_r. reflexivity.
  - rewrite HlenF. lia.
  - now rewrite <- Hcut.
Qed.

Lemma isDecimalNumber_signed (negative : bool) (integer fraction : string) :
  integer <> "" -> allChars isDigit integer = true -> allChars isDigit fraction = true ->
  isDecimalNumber ((if negative then "-" else "") ++ integer
                   ++ (if (fraction =? "")%string then "" else "." ++ fraction)) = true.
Proof.
  intros Hne Hd Hf.
  assert (Hrest : match dropDigits (integer ++ (if (fraction =? "")%string then ""
                                                 else "." ++ fraction)) with
                  | String "." r => allChars isDigit r
                  | rest => allChars isDigit rest
                  end = true).
  { rewrite (dropDigits_digits _ _ Hd).
    destruct (fraction =? "")%string; [ reflexivity | exact Hf ]. }
  destruct negative.
  - exact Hrest.
  - unfold isDecimalNumber. cbn [append].
    destruct integer as [ | c r]; [ congruence | ].
    cbn [allChars] in Hd. apply andb_prop in Hd as [Hc _].
    assert (Hm := digit_not_minus c Hc). cbn [append] in *.
    destruct c as [[] [] [] [] [] [] [] []]; try exact Hrest; congruence.
Qed.

Lemma splitDot_signed (negative : bool) (integer fraction : string) :
  allChars isDigit integer = true -> allChars isDigit fraction = true ->
  splitDot ((if negative then "-" else "") ++ integer
            ++ (if (fraction =? "")%string then "" else "." ++ fraction))
  = ((if negative then "-" else "") ++ integer)
    :: (if (fraction =? "")%string then [] else [fraction]).
Proof.
  intros Hd Hf.
  assert (Hu : splitDot (integer ++ (if (fraction =? "")%string then ""
                                     else "." ++ fraction))
               = integer :: (if (fraction =? "")%string then [] else [fraction])).
  { destruct (splitDot_digits integer
                (if (fraction =? "")%string then "" else "." ++ fraction) Hd) as [Hh Ht].
    pose proof (splitDot_cons (integer ++ (if (fraction =? "")%string then ""
                                           else "." ++ fraction))) as Hne.
    destruct (splitDot _) as [ | h t]; [ congruence | ].
    cbn [hd tl] in Hh, Ht. subst h t.
    destruct (fraction =? "")%string.
    - cbn. now rewrite append_empty.
    - cbn [append splitDot Ascii.eqb Bool.eqb hd tl].
      rewrite (splitDot_all_digits _ Hf). now rewrite append_empty. }
  destruct negative; [ | exact Hu ].
  cbn [append] in Hu |- *. cbn [splitDot].
  change (Ascii.eqb "-" ".") with false. cbv iota.
  now rewrite Hu.
Qed.

(** Parsing what [formatUnits] writes. *)
Lemma parseUnits_written (negative : bool) (integer fraction : string) (decimals : nat) :
  integer <> "" -> allChars isDigit integer = true -> allChars isDigit fraction = true ->
  String.length fraction = decimals ->
  parseUnits ((if negative then "-" else "") ++ integer
              ++ (if (trimTrailingZeros fraction =? "")%string then ""
                  else "." ++ trimTrailingZeros fraction)) decimals
  = BigInt_of_string ((if negative then "-" else "") ++ integer ++ fraction).
Proof.
  intros Hne Hd Hf Hlen.
  pose proof (trim_digits _ Hf) as Ht.
  unfold parseUnits.
  rewrite (isDecimalNumber_signed negative integer _ Hne Hd Ht).
  rewrite (splitDot_signed negative integer _ Hd Ht).
  cbv zeta. cbn [negb hd tl].
  assert (Hsign : startsWith ((if negative then "-" else "") ++ integer) "-" = negative).
  { destruct negative; [ apply startsWith_minus | ].
    exact (startsWith_minus_digits integer Hne Hd). }
  rewrite Hsign.
  assert (Hint : (if negative then sliceFrom ((if negative then "-" else "") ++ integer) 1
                  else (if negative then "-" else "") ++ integer) = integer).
  { destruct negative; [ apply sliceFrom_minus | reflexivity ]. }
  rewrite Hint.
  assert (Hfrac : trimTrailingZeros
                    match (if (trimTrailingZeros fraction =? "")%string then []
                           else [trimTrailingZeros fraction]) with
                    | [] => "0"
                    | f :: _ => f
                    end = trimTrailingZeros fraction).
  { destruct (trimTrailingZeros fraction =? "")%string eqn:He.
    - apply String.eqb_eq in He. now rewrite He.
    - apply trim_idem. }
  rewrite Hfrac.
  destruct decimals as [ | d].
  - destruct fraction; [ | discriminate Hlen ]. reflexivity.
  - assert (Hfit : (S d <? String.length (trimTrailingZeros fraction))%nat = false).
    { apply Nat.ltb_ge. rewrite <- Hlen. apply trim_length. }
    rewrite Hfit, <- Hlen, trim_pad. reflexivity.
Qed.

(** The round trip: [parseUnits] reads back what [formatUnits] wrote. *)
Lemma parseUnits_formatUnits (value : Z) (decimals : nat) :
  parseUnits (formatUnits value decimals) decimals = inr value.
Proof.
  destruct (formatUnits_shape value decimals) as (integer & fraction & Hs & HI & HF & HL & HV).
  rewrite Hs.
  set (integer' := if (integer =? "")%string then "0" else integer).
  assert (Hne : integer' <> "").
  { unfold integer'. destruct (integer =? "")%string eqn:He; [ discriminate | ].
    now apply String.eqb_neq in He. }
  assert (HI' : allChars isDigit integer' = true).
  { unfold integer'. destruct (integer =? "")%string; [ reflexivity | exact HI ]. }
  assert (HV' : digitsValue 0 (integer' ++ fraction) = Z.abs value).
  { unfold integer'. destruct (integer =? "")%string eqn:He; [ | exact HV ].
    apply String.eqb_eq in He. subst integer. exact HV. }
  rewrite (parseUnits_written (value <? 0) integer' fraction decimals Hne HI' HF HL).
  assert (Hall : allChars isDigit (integer' ++ fraction) = true)
    by now rewrite allChars_append, HI', HF.
  destruct (value <? 0) eqn:Hneg.
  - change ("-" ++ integer' ++ fraction) with (String "-" (integer' ++ fraction)).
    rewrite BigInt_of_negative; [ | | exact Hall ].
    + rewrite HV'. apply Z.ltb_lt in Hneg. f_equal. lia.
    + destruct integer'; [ congruence | discriminate ].
  - change ("" ++ integer' ++ fraction) with (integer' ++ fraction).
    rewrite (BigInt_of_digits _ Hall), HV'. apply Z.ltb_ge in Hneg. f_equal. lia.
Qed.

End UnitsFacts.

(** ** config.ts: balances *)

Module BalancesFacts.
Import Js Viem Config Chain Runs RunsFacts Observe Spec Balances Laws.
Local Open Scope list_scope.

(** What [getTokenBalance] returns for a symbol of the registry is the
    balance the chain answered, written with the decimals of the symbol. *)
Lemma getTokenBalance_registry (address : Address) (symbol : string) (t : TokenConfig)
  (tr0 : list Event) :
  lookup symbol = Some t ->
  always (fun tr (o : Outcome string) =>
            exists e, tr = tr0 ++ [e] /\
              callOf e = balanceCall address symbol t /\
              match balanceRead e with
              | Some b => o = Returned (formatUnits b (decimals t))
              | None => exists error, o = Raised error
              end)
    (getTokenBalance address symbol) tr0.
Proof.
  intros Ht. unfold getTokenBalance, balanceCall.
  destruct (symbol =? "MON")%string eqn:Hm.
  - apply String.eqb_eq in Hm. subst symbol.
    vm_compute in Ht. injection Ht as <-.
    prog_steps.
    all: eexists; split; [ reflexivity | split; [ reflexivity | ] ]; cbn [balanceRead].
    + eexists; reflexivity.
    + reflexivity.
  - rewrite Ht.
    prog_steps.
    all: eexists; split; [ reflexivity | split; [ reflexivity | ] ]; cbn [balanceRead].
    + eexists; reflexivity.
    + reflexivity.
Qed.

Lemma pushed_for (address : Address) (symbol : string) (tr0 : list Event) :
  In symbol keys ->
  always (fun tr (o : Outcome Balance) =>
            exists e r, tr = tr0 ++ [e] /\ o = Returned r /\ pushedFor address symbol e r)
    (pushed address symbol) tr0.
Proof.
  intros Hin.
  assert (Ht : exists t, lookup symbol = Some t).
  { unfold keys in Hin. cbn in Hin.
    repeat (destruct Hin as [<- | Hin]; [ eexists; reflexivity | ]). contradiction. }
  destruct Ht as [t Ht].
  unfold pushed. apply always_tryCatch, always_bind.
  eapply always_mono; [ | apply (getTokenBalance_registry address symbol t tr0 Ht) ].
  intros tr o (e & -> & Hc & Hb).
  unfold afterBind, afterCatch, decimalsOf. rewrite Ht.
  destruct (balanceRead e) as [b | ] eqn:He.
  - subst o. cbn [always bind lift].
    exists e. eexists. split; [ reflexivity | split; [ reflexivity | ] ].
    exists t. rewrite He. cbn [balanceSymbol balanceAmount balanceDecimals balanceError].
    repeat split; first [ assumption | reflexivity ].
  - destruct Hb as [error ->]. cbn [always bind lift].
    exists e. eexists. split; [ reflexivity | split; [ reflexivity | ] ].
    exists t. rewrite He. cbn [balanceSymbol balanceAmount balanceDecimals balanceError].
    repeat split; first [ assumption | reflexivity ].
Qed.

Lemma Portfolio_snoc (address : Address) symbols es rs symbol e r :
  Portfolio address symbols es rs -> pushedFor address symbol e r ->
  Portfolio address (symbols ++ [symbol]) (es ++ [e]) (rs ++ [r]).
Proof.
  induction 1 as [ | s e' r' ss es rs Hp _ IH]; intros H; cbn.
  - repeat constructor. exact H.
  - constructor; [ exact Hp | exact (IH H) ].
Qed.

Lemma forEachSymbol_portfolio (address : Address) :
  forall (symbols done : list string) (results : list Balance) (tr0 : list Event),
    (forall symbol, In symbol symbols -> In symbol keys) ->
    Portfolio address done tr0 results ->
    always (fun tr (o : Outcome (list Balance)) =>
              exists rs, o = Returned rs /\ Portfolio address (done ++ symbols) tr rs)
      (forEachSymbol address symbols results) tr0.
Proof.
  induction symbols as [ | symbol rest IH]; intros done results tr0 Hkeys Hdone.
  - cbn. exists results. rewrite app_nil_r. auto.
  - cbn [forEachSymbol]. apply always_bind.
    eapply always_mono; [ | apply (pushed_for address symbol tr0); apply Hkeys; now left ].
    intros tr o (e & r & -> & -> & Hp). cbn [afterBind].
    replace (done ++ symbol :: rest) with ((done ++ [symbol]) ++ rest)
      by (rewrite <- app_assoc; reflexivity).
    apply IH.
    + intros s Hs. apply Hkeys. now right.
    + now apply Portfolio_snoc.
Qed.

Lemma getTokenBalanceList_portfolio (address : Address) :
  always (fun tr (o : Outcome (list Balance)) =>
            exists rs, o = Returned rs /\ Portfolio address keys tr rs)
    (getTokenBalanceList address) [].
Proof.
  unfold getTokenBalanceList.
  apply (forEachSymbol_portfolio address keys [] [] []); [ auto | constructor ].
Qed.


Lemma Portfolio_symbols (address : Address) symbols es rs :
  Portfolio address symbols es rs ->
  map balanceSymbol rs = symbols /\
  List.length es = List.length symbols /\
  (forall r, In r rs -> balanceError r = true -> balanceAmount r = "0").
Proof.
  induction 1 as [ | s e r ss es rs Hp _ (IH1 & IH2 & IH3)]; cbn.
  - repeat split. intros r [].
  - destruct Hp as (t & _ & _ & Hs & _ & Hb).
    split; [ now rewrite Hs, IH1 | split; [ now rewrite IH2 | ] ].
    intros r' [<- | Hin] Herr; [ | now apply IH3 ].
    destruct (balanceRead e); destruct Hb as [Ha He]; congruence.
Qed.

(** X1.  For a symbol of the registry, [getTokenBalance] makes one balance
    query, the chain's own for MON and a [balanceOf] read at the token's
    contract otherwise, and the text it returns is the balance answered,
    written with the decimals of the symbol: parsed back with these
    decimals it is that balance again, no digit lost.  For a symbol that
    is no property of the registry it returns the text [0] without a
    call. *)
Theorem balance_text_reads_back :
  forall (address : Address) (symbol : string) (w : World),
    (forall (t : TokenConfig) (text : string),
        lookup symbol = Some t ->
        result w (getTokenBalance address symbol) = Returned text ->
        exists e b,
          trace w (getTokenBalance address symbol) = [e] /\
          callOf e = balanceCall address symbol t /\
          balanceRead e = Some b /\
          text = formatUnits b (decimals t) /\
          parseUnits text (decimals t) = inr b) /\
    (lookup symbol = None -> inherited symbol = false ->
     exec w (getTokenBalance address symbol) = (Returned "0", [])).
Proof.
  intros address symbol w. split.
  - intros t text Ht Hr.
    destruct (always_exec _ _ (getTokenBalance_registry address symbol t [] Ht) w)
      as (e & Htr & Hc & Hb).
    exists e. destruct (balanceRead e) as [b | ].
    + exists b. rewrite Hr in Hb. injection Hb as ->.
      repeat split; try assumption. apply UnitsFacts.parseUnits_formatUnits.
    + destruct Hb as [error Hb]. congruence.
  - intros Hnone Hinh. unfold getTokenBalance.
    destruct (symbol =? "MON")%string eqn:Hm.
    + apply String.eqb_eq in Hm. subst symbol. discriminate Hnone.
    + now rewrite Hnone, Hinh.
Qed.

(** Runs of X1: a USDC balance of 1,500,000 units reads [1.5]; the
    unknown symbol [DOGE] reads [0]. *)
Lemma balance_text_reads_back_witness :
  let w := Scenario.world (Scenario.calm [] 0 1500000) in
  let usdc := mkToken "USD Coin" "USDC" 6 "0xf817257fed379853cDe0fa4F97AB987181B1E5Ea" in
  (lookup "USDC" = Some usdc /\
   result w (getTokenBalance Scenario.wallet "USDC") = Returned "1.5" /\
   exists e b,
     trace w (getTokenBalance Scenario.wallet "USDC") = [e] /\
     callOf e = balanceCall Scenario.wallet "USDC" usdc /\
     balanceRead e = Some b /\
     "1.5" = formatUnits b (decimals usdc) /\
     parseUnits "1.5" (decimals usdc) = inr b) /\
  (lookup "DOGE" = None /\ inherited "DOGE" = false /\
   exec w (getTokenBalance Scenario.wallet "DOGE") = (Returned "0", [])).
Proof.
  intros w usdc.
  assert (Ht : lookup "USDC" = Some usdc) by reflexivity.
  assert (Hr : result w (getTokenBalance Scenario.wallet "USDC") = Returned "1.5")
    by (vm_compute; reflexivity).
  assert (Hn : lookup "DOGE" = None) by reflexivity.
  assert (Hi : inherited "DOGE" = false) by reflexivity.
  split.
  - refine (conj Ht (conj Hr _)).
    exact (proj1 (balance_text_reads_back Scenario.wallet "USDC" w) usdc "1.5" Ht Hr).
  - refine (conj Hn (conj Hi _)).
    exact (proj2 (balance_text_reads_back Scenario.wallet "DOGE" w) Hn Hi).
Defined.

(** X3.  [getTokenBalanceList] returns, however the network answers, one
    element for each symbol of the registry, in the order of the registry,
    after one balance query for each: a query that throws yields the
    amount [0] with the error flag and the loop goes on. *)
Theorem portfolio_has_one_element_per_symbol :
  forall (address : Address) (w : World),
    exists results,
      result w (getTokenBalanceList address) = Returned results /\
      Portfolio address keys (trace w (getTokenBalanceList address)) results /\
      map balanceSymbol results = keys /\
      List.length (trace w (getTokenBalanceList address)) = List.length keys.
Proof.
  intros address w.
  destruct (always_exec _ _ (getTokenBalanceList_portfolio address) w) as (rs & Hr & Hp).
  exists rs. destruct (Portfolio_symbols _ _ _ _ Hp) as (Hs & Hl & _).
  auto.
Qed.

End BalancesFacts.

(** ** The registry and the spelling of symbols *)

Module RegistryFacts.
Import Js Viem Config Chain Swap.
Local Open Scope list_scope.

Lemma lowerChar_upperChar (c : ascii) : lowerChar (upperChar c) = lowerChar c.
Proof. destruct c as [[] [] [] [] [] [] [] []]; reflexivity. Qed.

Lemma upperChar_lowerChar (c : ascii) : upperChar (lowerChar c) = upperChar c.
Proof. destruct c as [[] [] [] [] [] [] [] []]; reflexivity. Qed.

Lemma toLowerCase_toUpperCase (s : string) : toLowerCase (toUpperCase s) = toLowerCase s.
Proof.
  induction s as [ | c r IH]; cbn; [ reflexivity | ].
  rewrite lowerChar_upperChar. f_equal. exact IH.
Qed.

Lemma toUpperCase_toLowerCase (s : string) : toUpperCase (toLowerCase s) = toUpperCase s.
Proof.
  induction s as [ | c r IH]; cbn; [ reflexivity | ].
  rewrite upperChar_lowerChar. f_equal. exact IH.
Qed.


(** No two keys of the registry are equal up to case: a symbol equal to a
    key up to case resolves to that key. *)
Lemma findKey_complete (s k : string) :
  In k keys -> toLowerCase s = toLowerCase k -> findKey s = Some k.
Proof.
  intros Hin H. unfold findKey. rewrite H.
  unfold keys in Hin. cbn in Hin.
  repeat (destruct Hin as [<- | Hin]; [ reflexivity | ]). contradiction.
Qed.

Lemma findKey_native (s : string) :
  toUpperCase s = "MON" -> findKey s = Some "MON".
Proof.
  intros H. apply findKey_complete; [ now left | ].
  now rewrite <- toLowerCase_toUpperCase, H.
Qed.

(** The clause that accepts [MON] is never decisive: [normalize] is the
    lookup of both symbols. *)
Lemma normalize_findKey (fromToken toToken : string) :
  normalize fromToken toToken
  = match findKey fromToken, findKey toToken with
    | None, _ => inl (notSupported "Source" fromToken)
    | Some _, None => inl (notSupported "Destination" toToken)
    | Some source, Some dest => inr (source, dest)
    end.
Proof.
  unfold normalize, canonical.
  destruct (toUpperCase fromToken =? "MON")%string eqn:Hf.
  - apply String.eqb_eq in Hf. rewrite (findKey_native _ Hf). cbn [isNone andb negb].
    destruct (toUpperCase toToken =? "MON")%string eqn:Ht.
    + apply String.eqb_eq in Ht. rewrite (findKey_native _ Ht). reflexivity.
    + destruct (findKey toToken); reflexivity.
  - destruct (findKey fromToken); cbn [isNone andb negb]; [ | reflexivity ].
    destruct (toUpperCase toToken =? "MON")%string eqn:Ht.
    + apply String.eqb_eq in Ht. rewrite (findKey_native _ Ht). reflexivity.
    + destruct (findKey toToken); reflexivity.
Qed.







End RegistryFacts.

(** Closes a conjunction of facts at hand. *)
Ltac at_hand :=
  repeat (split; [ first [ eassumption | reflexivity ] | ]);
  first [ eassumption | reflexivity ].

(** ** swap.ts: what is submitted, and what is reported *)

Module SwapShape.
Import Js Viem Config Chain Runs RunsFacts Observe Spec Swap Parts.
Local Open Scope list_scope.

(** The quote is the router's second amount, written with the decimals
    of the destination. *)
Lemma getSwapQuote_output (h : Host.t) fromToken toToken amount :
  always (fun tr (o : Outcome (Result Quote)) =>
            forall q, o = Returned (Success q) ->
              exists tokens dest e amounts E,
                normalize fromToken toToken = inr tokens /\
                tokenInfo (snd tokens) = inr dest /\
                tr = [e] /\
                quotedAmounts e = Some amounts /\
                nth_error amounts 1 = Some E /\
                quoteFromToken q = fst tokens /\
                quoteToToken q = snd tokens /\
                quoteFromAmount q = amount /\
                quoteToAmount q = formatUnits E (decimals dest))
    (getSwapQuote h fromToken toToken amount) [].
Proof.
  prog_steps.
  all: cbn [app]; intros q Hq; try discriminate Hq.
  injection Hq as <-.
  match goal with
  | H : second ?amounts = inr ?E |- _ =>
      assert (Hn : nth_error amounts 1 = Some E)
        by (unfold second in H; destruct (nth_error amounts 1); congruence)
  end.
  do 5 eexists.
  split; [ reflexivity | split; [ eassumption | split; [ reflexivity | ] ] ].
  split; [ reflexivity | split; [ exact Hn | ] ].
  repeat split; reflexivity.
Qed.




Lemma tokenInfo_native (t : TokenConfig) : tokenInfo "MON" = inr t -> decimals t = 18%nat.
Proof. vm_compute. intros H. injection H as <-. reflexivity. Qed.

(** Native value travels with a swap whose source is MON, and with no
    other transaction; it is the parsed amount.  Such a swap is preceded
    by no approval. *)
Lemma executeSwap_value (h : Host.t) fromToken toToken amount (s : Q) :
  always (fun tr (_ : Outcome (Result Swapped)) =>
            forall tokens, normalize fromToken toToken = inr tokens ->
              (forall e v, In e tr -> sentValue (callOf e) = Some v ->
                 fst tokens = "MON" /\ parseUnits amount 18 = inr v /\
                 isSwap (callOf e) = true) /\
              (fst tokens = "MON" -> forall e, In e tr -> isApprove (callOf e) = false))
    (executeSwap h fromToken toToken amount s) [].
Proof.
  prog_steps.
  all: cbn [app]; intros tokens Ht; first [ discriminate Ht | injection Ht as <- | idtac ].
  all: cbn [fst snd] in *.
  all: split;
    [ intros ev val Hin Hv; in_cases Hin; cbn [sentValue callOf] in Hv;
      try discriminate Hv; injection Hv as <-
    | intros Hmon ev Hin; in_cases Hin; try reflexivity ].
  all: try match goal with
       | H : (fst ?p =? "MON")%string = true |- _ => apply String.eqb_eq in H
       end.
  all: try match goal with
       | H : fst ?p = "MON", H' : tokenInfo (fst ?p) = inr ?t |- _ =>
           rewrite H in H'; apply tokenInfo_native in H'
       end.
  all: try (split; [ assumption | split; [ congruence | reflexivity ] ]).
  all: match goal with
       | H : fst ?p = "MON", H' : (fst ?p =? "MON")%string = false |- _ =>
           rewrite H in H'; discriminate H'
       | H : fst ?p = "MON", H' : ((fst ?p =? "aprMON")%string && _)%bool = true |- _ =>
           rewrite H in H'; discriminate H'
       end.
Qed.


(** A slippage that is no whole number of tenths of a percent: the
    conversion to a bigint throws, no swap is submitted, and the result
    is a failure. *)
Lemma executeSwap_slippage_not_tenths (h : Host.t) fromToken toToken amount (s : Q)
  (error : Thrown) :
  slippageFactor s = inl error ->
  always (fun tr (o : Outcome (Result Swapped)) =>
            (forall e, In e tr -> isSwap (callOf e) = false) /\
            exists message, o = Returned (Failure message))
    (executeSwap h fromToken toToken amount s) [].
Proof.
  intros Hs.
  prog_steps.
  all: try congruence.
  all: cbn [app]; split; [ intros ev Hin; in_cases Hin; reflexivity | eexists; reflexivity ].
Qed.

(** The factor of a slippage between 0 and 100 percent. *)
Lemma slippageFactor_range (s : Q) (factor : Z) :
  slippageFactor s = inr factor -> (0 <= s)%Q -> (s <= 100 # 1)%Q -> 0 <= factor <= 1000.
Proof.
  unfold slippageFactor, timesTen. intros H H0 H100.
  assert (Hlo : (inject_Z 0 <= s * (10 # 1))%Q) by (unfold inject_Z; lra).
  assert (Hhi : (s * (10 # 1) <= inject_Z 1000)%Q) by (clear Hlo; unfold inject_Z; lra).
  cbv zeta in H. generalize dependent (s * (10 # 1))%Q. intros product H Hlo Hhi.
  assert (Hrange : forall x : Q,
             (inject_Z 0 <= x)%Q -> (x <= inject_Z 1000)%Q -> isInteger x = true ->
             0 <= Qnum x / Z.pos (Qden x) <= 1000).
  { intros x Hx0 Hx1 Hi.
    rewrite (NumberFacts.isInteger_value x Hi) in Hx0, Hx1.
    rewrite <- Zle_Qle in Hx0, Hx1. lia. }
  destruct (isInteger product) eqn:Hi.
  - cbn [BigInt_of_number] in H. rewrite Hi in H.
    pose proof (Hrange product Hlo Hhi Hi) as Hbps.
    assert (Hf : factor = 1000 - Qnum product / Z.pos (Qden product)) by congruence.
    lia.
  - rewrite (NumberFacts.nearest_finite product 0 1000) in H by (lia || assumption).
    cbn [BigInt_of_number] in H.
    destruct (isInteger (double product)) eqn:Hd; [ | discriminate H ].
    destruct (NumberFacts.double_between product 0 1000) as [Ha Hb];
      try (lia || assumption).
    pose proof (Hrange (double product) Ha Hb Hd) as Hbps.
    assert (Hf : factor
                 = 1000 - Qnum (double product) / Z.pos (Qden (double product)))
      by congruence.
    lia.
Qed.

Lemma amountOutMin_range (E factor : Z) :
  0 <= E -> 0 <= factor <= 1000 -> 0 <= amountOutMin E factor <= E.
Proof.
  intros HE Hf. unfold amountOutMin.
  rewrite Z.quot_div_nonneg by nia.
  split; [ apply Z.div_pos; nia | apply Z.div_le_upper_bound; nia ].
Qed.


(** X2.  A quote that succeeds made one call, the router's
    [getAmountsOut]; it names the two symbols in the spelling of the
    registry, repeats the input amount as given, and its output amount is
    the second amount the router answered, written with the decimals of
    the destination: parsed back with these decimals it is that amount
    again. *)
Theorem quote_reads_back :
  forall (h : Host.t) (fromToken toToken amount : string) (w : World) (q : Quote),
    result w (getSwapQuote h fromToken toToken amount) = Returned (Success q) ->
    exists tokens dest e amounts E,
      normalize fromToken toToken = inr tokens /\
      tokenInfo (snd tokens) = inr dest /\
      trace w (getSwapQuote h fromToken toToken amount) = [e] /\
      quotedAmounts e = Some amounts /\
      nth_error amounts 1 = Some E /\
      quoteFromToken q = fst tokens /\
      quoteToToken q = snd tokens /\
      quoteFromAmount q = amount /\
      quoteToAmount q = formatUnits E (decimals dest) /\
      parseUnits (quoteToAmount q) (decimals dest) = inr E.
Proof.
  intros h fromToken toToken amount w q Hr.
  destruct (always_exec _ _ (getSwapQuote_output h fromToken toToken amount) w q Hr)
    as (tokens & dest & e & amounts & E & H1 & H2 & H3 & H4 & H5 & H6 & H7 & H8 & H9).
  exists tokens, dest, e, amounts, E.
  repeat (split; [ assumption | ]).
  rewrite H9. apply UnitsFacts.parseUnits_formatUnits.
Qed.

(** A run of X2: 1 MON is quoted at 3,450,000 units of USDC, reported as
    3.45. *)
Lemma quote_reads_back_witness :
  let w := Scenario.world (Scenario.calm [1000000000000000000; 3450000] 0 0) in
  let q := mkQuote "MON" "USDC" "1" "3.45" in
  result w (getSwapQuote (Scenario.host Scenario.wallet) "mon" "usdc" "1")
  = Returned (Success q) /\
  exists tokens dest e amounts E,
    normalize "mon" "usdc" = inr tokens /\
    tokenInfo (snd tokens) = inr dest /\
    trace w (getSwapQuote (Scenario.host Scenario.wallet) "mon" "usdc" "1") = [e] /\
    quotedAmounts e = Some amounts /\
    nth_error amounts 1 = Some E /\
    quoteFromToken q = fst tokens /\
    quoteToToken q = snd tokens /\
    quoteFromAmount q = "1" /\
    quoteToAmount q = formatUnits E (decimals dest) /\
    parseUnits (quoteToAmount q) (decimals dest) = inr E.
Proof.
  intros w q.
  assert (Hr : result w (getSwapQuote (Scenario.host Scenario.wallet) "mon" "usdc" "1")
               = Returned (Success q)) by (vm_compute; reflexivity).
  refine (conj Hr _).
  exact (quote_reads_back (Scenario.host Scenario.wallet) "mon" "usdc" "1" w q Hr).
Defined.



(** X9.  In a run of [executeSwap], native value is sent with a swap whose
    source is MON and with no other transaction, and it is the input
    amount parsed with 18 decimals; a swap whose source is MON is
    preceded by no approval. *)
Theorem native_value_goes_with_native_source_only :
  forall (h : Host.t) (fromToken toToken amount : string) (slippagePercent : Q)
         (w : World) (tokens : string * string),
    normalize fromToken toToken = inr tokens ->
    (forall e v,
        In e (trace w (executeSwap h fromToken toToken amount slippagePercent)) ->
        sentValue (callOf e) = Some v ->
        fst tokens = "MON" /\ parseUnits amount 18 = inr v /\ isSwap (callOf e) = true) /\
    (fst tokens = "MON" ->
     forall e, In e (trace w (executeSwap h fromToken toToken amount slippagePercent)) ->
               isApprove (callOf e) = false).
Proof.
  intros h fromToken toToken amount s w tokens Hn.
  exact (always_exec _ _ (executeSwap_value h fromToken toToken amount s) w tokens Hn).
Qed.

(** A run of X9: 1 MON to USDC sends 10^18 with the swap, after the block
    and the quote, and approves nothing. *)
Lemma native_value_goes_with_native_source_only_witness :
  let w := Scenario.world (Scenario.calm [1000000000000000000; 3450000] 0 0) in
  let p := executeSwap (Scenario.host Scenario.wallet) "mon" "usdc" "1" (2 # 1) in
  let e := Ev (writeContract Scenario.wallet SWAP_ROUTER_ADDRESS
                 (swapExactETHForTokens 3381000
                    [ address WMON; "0xf817257fed379853cDe0fa4F97AB987181B1E5Ea" ]
                    Scenario.wallet 1700001200) (Some 1000000000000000000))
              (inr "0xb1") in
  normalize "mon" "usdc" = inr ("MON", "USDC") /\
  In e (trace w p) /\
  sentValue (callOf e) = Some 1000000000000000000 /\
  parseUnits "1" 18 = inr 1000000000000000000 /\
  (forall e', In e' (trace w p) -> isApprove (callOf e') = false).
Proof.
  intros w p e.
  assert (Hn : normalize "mon" "usdc" = inr ("MON", "USDC")) by reflexivity.
  assert (Hin : In e (trace w p)) by (vm_compute; do 2 right; left; reflexivity).
  assert (Hv : sentValue (callOf e) = Some 1000000000000000000) by reflexivity.
  destruct (native_value_goes_with_native_source_only
              (Scenario.host Scenario.wallet) "mon" "usdc" "1" (2 # 1) w ("MON", "USDC") Hn)
    as [Hvalue Hnone].
  refine (conj Hn (conj Hin (conj Hv (conj _ _)))).
  - exact (proj1 (proj2 (Hvalue e _ Hin Hv))).
  - exact (Hnone eq_refl).
Defined.



(** X11.  For a slippage between 0 and 100 percent and an expected output
    that is not negative, the floor of every swap submitted lies between
    zero and the expected output. *)
Theorem floor_lies_between_zero_and_expected_output :
  forall (h : Host.t) (fromToken toToken amount : string) (slippagePercent : Q)
         (w : World) (e : Event) (m E : Z),
    (0 <= slippagePercent)%Q -> (slippagePercent <= 100 # 1)%Q ->
    In e (trace w (executeSwap h fromToken toToken amount slippagePercent)) ->
    swapFloor (callOf e) = Some m ->
    ExpectedOutput (trace w (executeSwap h fromToken toToken amount slippagePercent))
      (callOf e) E ->
    0 <= E ->
    0 <= m <= E.
Proof.
  intros h fromToken toToken amount s w e m E H0 H100 Hin Hm HE HE0.
  destruct (slippageFactor s) as [error | factor] eqn:Hf.
  - destruct (always_exec _ _
                (executeSwap_slippage_not_tenths h fromToken toToken amount s error Hf) w)
      as [Hno _].
    specialize (Hno e Hin). unfold isSwap in Hno. rewrite Hm in Hno. discriminate Hno.
  - destruct (always_exec _ _
                (SwapFacts.executeSwap_floor h fromToken toToken amount s factor Hf)
                w e m Hin Hm) as [_ Hall].
    rewrite (Hall E HE).
    apply amountOutMin_range; [ exact HE0 | ].
    exact (slippageFactor_range s factor Hf H0 H100).
Qed.

(** A run of X11: 1,000,000 expected at 2%, a floor of 980,000. *)
Lemma floor_lies_between_zero_and_expected_output_witness :
  let w := Scenario.world (Scenario.calm [1000000000000000000; 1000000] 0 0) in
  let p := executeSwap (Scenario.host Scenario.wallet) "MON" "USDC" "1" (2 # 1) in
  let e := Ev (writeContract Scenario.wallet SWAP_ROUTER_ADDRESS
                 (swapExactETHForTokens 980000
                    [ address WMON; "0xf817257fed379853cDe0fa4F97AB987181B1E5Ea" ]
                    Scenario.wallet 1700001200) (Some 1000000000000000000))
              (inr "0xb1") in
  (0 <= 2 # 1)%Q /\ (2 # 1 <= 100 # 1)%Q /\
  In e (trace w p) /\
  swapFloor (callOf e) = Some 980000 /\
  ExpectedOutput (trace w p) (callOf e) 1000000 /\
  0 <= 980000 <= 1000000.
Proof.
  intros w p e.
  assert (H0 : (0 <= 2 # 1)%Q) by (unfold Qle; cbn; lia).
  assert (H100 : (2 # 1 <= 100 # 1)%Q) by (unfold Qle; cbn; lia).
  assert (Hin : In e (trace w p)) by (vm_compute; do 2 right; left; reflexivity).
  assert (Hm : swapFloor (callOf e) = Some 980000) by reflexivity.
  assert (HE : ExpectedOutput (trace w p) (callOf e) 1000000).
  { eapply quotedByRouter
      with (q := Ev (readContract SWAP_ROUTER_ADDRESS
                       (getAmountsOut 1000000000000000000
                          [address WMON; "0xf817257fed379853cDe0fa4F97AB987181B1E5Ea"]))
                    (inr [1000000000000000000; 1000000])).
    - vm_compute. right; left; reflexivity.
    - reflexivity.
    - reflexivity. }
  refine (conj H0 (conj H100 (conj Hin (conj Hm (conj HE _))))).
  apply (floor_lies_between_zero_and_expected_output (Scenario.host Scenario.wallet)
           "MON" "USDC" "1" (2 # 1) w e 980000 1000000 H0 H100 Hin Hm HE).
  lia.
Defined.


(** X6.  A symbol of ASCII characters that equals no key of the
    registry up to case makes the quote and the swap fail before any call,
    with the message that names the side, the symbol as given, and the
    keys of the registry; the source is looked at first. *)
Theorem unsupported_symbol_fails_before_the_network :
  forall (h : Host.t) (fromToken toToken amount : string) (slippagePercent : Q)
         (w : World),
    let supported :=
      " is not supported. Supported tokens: MON, WMON, aprMON, USDC, USDT, WETH, WBTC, DAK, COG, YAKI, shMON, gMON"%string in
    (isAscii fromToken = true -> findKey fromToken = None ->
     let message := ("Source token " ++ fromToken ++ supported)%string in
     exec w (getSwapQuote h fromToken toToken amount) = (Returned (Failure message), []) /\
     (forall key account,
         Host.requireKey h "Private key not found in environment variables" = inr key ->
         Host.privateKeyToAccount h (Host.formatted key) = inr account ->
         exec w (executeSwap h fromToken toToken amount slippagePercent)
         = (Returned (Failure message), []))) /\
    (forall source,
     findKey fromToken = Some source -> isAscii toToken = true -> findKey toToken = None ->
     let message := ("Destination token " ++ toToken ++ supported)%string in
     exec w (getSwapQuote h fromToken toToken amount) = (Returned (Failure message), []) /\
     (forall key account,
         Host.requireKey h "Private key not found in environment variables" = inr key ->
         Host.privateKeyToAccount h (Host.formatted key) = inr account ->
         exec w (executeSwap h fromToken toToken amount slippagePercent)
         = (Returned (Failure message), []))).
Proof.
  intros h fromToken toToken amount s w supported.
  assert (Hfail : forall message,
             normalize fromToken toToken = inl (ErrorObj message) ->
             exec w (getSwapQuote h fromToken toToken amount)
             = (Returned (Failure message), []) /\
             (forall key account,
                 Host.requireKey h "Private key not found in environment variables"
                 = inr key ->
                 Host.privateKeyToAccount h (Host.formatted key) = inr account ->
                 exec w (executeSwap h fromToken toToken amount s)
                 = (Returned (Failure message), []))).
  { intros message Hn. split.
    - unfold getSwapQuote, getSwapQuote_try. rewrite Hn. reflexivity.
    - intros key account Hk Ha.
      unfold executeSwap, executeSwap_try. rewrite Hk. cbn [bind lift].
      rewrite Ha. cbn [bind lift]. rewrite Hn. reflexivity. }
  split.
  - intros _ Hf message. apply Hfail.
    rewrite RegistryFacts.normalize_findKey, Hf. reflexivity.
  - intros source Hf _ Ht message. apply Hfail.
    rewrite RegistryFacts.normalize_findKey, Hf, Ht. reflexivity.
Qed.

(** X6 at the pairs DOGE to MON and usdc to DOGE. *)
Lemma unsupported_symbol_fails_before_the_network_witness :
  let h := Scenario.host Scenario.wallet in
  let w := Scenario.world (Scenario.calm [] 0 0) in
  let message :=
    "Source token DOGE is not supported. Supported tokens: MON, WMON, aprMON, USDC, USDT, WETH, WBTC, DAK, COG, YAKI, shMON, gMON"%string in
  let other :=
    "Destination token DOGE is not supported. Supported tokens: MON, WMON, aprMON, USDC, USDT, WETH, WBTC, DAK, COG, YAKI, shMON, gMON"%string in
  isAscii "DOGE" = true /\
  findKey "DOGE" = None /\
  findKey "usdc" = Some "USDC" /\
  exec w (getSwapQuote h "DOGE" "MON" "1") = (Returned (Failure message), []) /\
  exec w (executeSwap h "DOGE" "MON" "1" (2 # 1)) = (Returned (Failure message), []) /\
  exec w (getSwapQuote h "usdc" "DOGE" "1") = (Returned (Failure other), []).
Proof.
  intros h w message other.
  assert (Hascii : isAscii "DOGE" = true) by reflexivity.
  assert (Hf : findKey "DOGE" = None) by reflexivity.
  assert (Hu : findKey "usdc" = Some "USDC") by reflexivity.
  destruct (proj1 (unsupported_symbol_fails_before_the_network h "DOGE" "MON" "1" (2 # 1) w)
              Hascii Hf)
    as [Hquote Hswap].
  refine (conj Hascii (conj Hf (conj Hu (conj Hquote (conj _ _))))).
  - exact (Hswap _ Scenario.wallet eq_refl eq_refl).
  - exact (proj1 (proj2 (unsupported_symbol_fails_before_the_network
                           h "usdc" "DOGE" "1" (2 # 1) w)
                    "USDC" Hu Hascii Hf)).
Defined.

End SwapShape.

(** ** wrapUnwrap.ts and staking.ts: the one transaction *)

Module Transactions.
Import Js Viem Config Chain Runs RunsFacts Observe Spec Parts.
Import WrapUnwrap Staking.
Local Open Scope list_scope.

(** Closed lookups that stepping leaves as hypotheses. *)
Ltac closed_facts :=
  repeat match goal with
    | H : wmonAddress = _ |- _ =>
        vm_compute in H; first [ discriminate H | injection H as <- ]
    end.

Ltac none_or_one :=
  cbn [app]; unfold submissions; cbn [map callOf filter isSubmission];
  first [ left; reflexivity
        | right; do 2 eexists; at_hand ].

Lemma wrapMON_one_transaction (h : Host.t) (amount : string) :
  always (fun tr (_ : Outcome (Result Wrapped)) =>
            submissions tr = [] \/
            exists account value,
              getWalletClient h = inr account /\
              parseEther amount = inr value /\
              submissions tr
              = [ writeContract account (address WMON) wmonDeposit (Some value) ])
    (wrapMON h amount) [].
Proof.
  prog_steps. all: closed_facts. all: none_or_one.
Qed.

Lemma unwrapWMON_one_transaction (h : Host.t) (amount : string) :
  always (fun tr (_ : Outcome (Result Wrapped)) =>
            submissions tr = [] \/
            exists account value,
              getWalletClient h = inr account /\
              parseEther amount = inr value /\
              submissions tr
              = [ writeContract account (address WMON) (wmonWithdraw value) None ])
    (unwrapWMON h amount) [].
Proof.
  prog_steps. all: closed_facts. all: none_or_one.
Qed.

Lemma stakeMON_one_transaction (h : Host.t) (amount : string) :
  always (fun tr (_ : Outcome (Result Staked)) =>
            submissions tr = [] \/
            exists account value,
              Balances.getWalletAddressFromEnv h = inr account /\
              parseUnits amount 18 = inr value /\
              submissions tr
              = [ writeContract account (address aprMON)
                    (stakingDeposit value account) (Some value) ])
    (stakeMON h amount) [].
Proof.
  prog_steps.
  all: cbn [app]; unfold submissions; cbn [map callOf filter isSubmission];
    first [ left; reflexivity | right; do 2 eexists ].
  all: unfold Balances.getWalletAddressFromEnv.
  all: match goal with
       | H : Host.requireKey _ _ = inr _ |- _ => rewrite H
       end.
  all: at_hand.
Qed.

(** X14.  A wrap, an unwrap and a stake submit at most one transaction
    each: the deposit into the WMON contract carrying the parsed amount as
    value, the withdrawal of the parsed amount from the WMON contract
    without value, and the deposit into the staking contract of the parsed
    amount, carried as value, for the account itself. *)
Theorem wrap_unwrap_stake_submit_one_transaction :
  forall (h : Host.t) (amount : string) (w : World),
    (submissions (trace w (wrapMON h amount)) = [] \/
     exists account value,
       getWalletClient h = inr account /\
       parseEther amount = inr value /\
       submissions (trace w (wrapMON h amount))
       = [ writeContract account (address WMON) wmonDeposit (Some value) ]) /\
    (submissions (trace w (unwrapWMON h amount)) = [] \/
     exists account value,
       getWalletClient h = inr account /\
       parseEther amount = inr value /\
       submissions (trace w (unwrapWMON h amount))
       = [ writeContract account (address WMON) (wmonWithdraw value) None ]) /\
    (submissions (trace w (stakeMON h amount)) = [] \/
     exists account value,
       Balances.getWalletAddressFromEnv h = inr account /\
       parseUnits amount 18 = inr value /\
       submissions (trace w (stakeMON h amount))
       = [ writeContract account (address aprMON)
             (stakingDeposit value account) (Some value) ]).
Proof.
  intros h amount w. split; [ | split ].
  - exact (always_exec _ _ (wrapMON_one_transaction h amount) w).
  - exact (always_exec _ _ (unwrapWMON_one_transaction h amount) w).
  - exact (always_exec _ _ (stakeMON_one_transaction h amount) w).
Qed.

End Transactions.

(** ** index.ts: the tools *)

Module ToolsFacts.
Import Js Viem Config Chain Runs RunsFacts Observe Spec Parts.
Import Index Balances Format Tools Laws.
Local Open Scope list_scope.

(** A response that does not open with the success mark. *)
Ltac not_a_success Ht Hs :=
  first [ discriminate Ht
        | injection Ht as <-; vm_compute in Hs; discriminate Hs ].

Ltac closed_facts :=
  repeat match goal with
    | H : WrapUnwrap.wmonAddress = _ |- _ =>
        vm_compute in H; first [ discriminate H | injection H as <- ]
    end.

(** What is left is the run that succeeded. *)
Ltac the_success_run :=
  do 5 eexists;
  split; [ first [ reflexivity | eassumption ] | ];
  split; [ first [ reflexivity | eassumption ] | ];
  split; [ reflexivity | ];
  split; [ apply Z.ltb_ge; assumption | assumption ].

Ltac success_only :=
  closed_facts;
  cbn [app]; intros text Ht Hs;
  first [ not_a_success Ht Hs | the_success_run ].

Lemma execute_wrap_success (h : Host.t) (amount : string) :
  always (fun tr (o : Outcome ContentResponse) =>
            forall text, o = Returned (textResponse text) ->
              startsWith text "## ✅" = true ->
              exists (account : Address) (value balance : Z) (hash : Hash)
                     (receipt : Receipt),
                WrapUnwrap.getWalletClient h = inr account /\
                parseEther amount = inr value /\
                tr = [ Ev (getBalance account) (inr balance);
                       Ev (writeContract account (address WMON) wmonDeposit (Some value))
                          (inr hash);
                       Ev (waitForTransactionReceipt hash 60000 1) (inr receipt) ] /\
                value <= balance /\
                WrapUnwrap.statusFails (status receipt) = false)
    (execute_wrap h amount) [].
Proof. prog_steps. all: success_only. Qed.

Lemma deposit_success (h : Host.t) (amount : string) :
  always (fun tr (o : Outcome ContentResponse) =>
            forall text, o = Returned (textResponse text) ->
              startsWith text "## ✅" = true ->
              exists (account : Address) (value balance : Z) (hash : Hash)
                     (receipt : Receipt),
                WrapUnwrap.getWalletClient h = inr account /\
                parseEther amount = inr value /\
                tr = [ Ev (getBalance account) (inr balance);
                       Ev (writeContract account (address WMON) wmonDeposit (Some value))
                          (inr hash);
                       Ev (waitForTransactionReceipt hash 60000 1) (inr receipt) ] /\
                value <= balance /\
                WrapUnwrap.statusFails (status receipt) = false)
    (deposit h amount) [].
Proof. prog_steps. all: success_only. Qed.

Lemma execute_unwrap_success (h : Host.t) (amount : string) :
  always (fun tr (o : Outcome ContentResponse) =>
            forall text, o = Returned (textResponse text) ->
              startsWith text "## ✅" = true ->
              exists (account : Address) (value balance : Z) (hash : Hash)
                     (receipt : Receipt),
                WrapUnwrap.getWalletClient h = inr account /\
                parseEther amount = inr value /\
                tr = [ Ev (readContract (address WMON) (balanceOf account)) (inr balance);
                       Ev (writeContract account (address WMON) (wmonWithdraw value) None)
                          (inr hash);
                       Ev (waitForTransactionReceipt hash 60000 1) (inr receipt) ] /\
                value <= balance /\
                WrapUnwrap.statusFails (status receipt) = false)
    (execute_unwrap h amount) [].
Proof. prog_steps. all: success_only. Qed.

Lemma withdraw_success (h : Host.t) (amount : string) :
  always (fun tr (o : Outcome ContentResponse) =>
            forall text, o = Returned (textResponse text) ->
              startsWith text "## ✅" = true ->
              exists (account : Address) (value balance : Z) (hash : Hash)
                     (receipt : Receipt),
                WrapUnwrap.getWalletClient h = inr account /\
                parseEther amount = inr value /\
                tr = [ Ev (readContract (address WMON) (balanceOf account)) (inr balance);
                       Ev (writeContract account (address WMON) (wmonWithdraw value) None)
                          (inr hash);
                       Ev (waitForTransactionReceipt hash 60000 1) (inr receipt) ] /\
                value <= balance /\
                WrapUnwrap.statusFails (status receipt) = false)
    (withdraw h amount) [].
Proof. prog_steps. all: success_only. Qed.

Lemma execute_stake_success (h : Host.t) (amount : string) :
  always (fun tr (o : Outcome ContentResponse) =>
            forall text, o = Returned (textResponse text) ->
              startsWith text "## ‚úÖ" = true ->
              exists (account : Address) (value balance : Z) (hash : Hash)
                     (receipt : Receipt),
                getWalletAddressFromEnv h = inr account /\
                parseUnits amount 18 = inr value /\
                tr = [ Ev (getBalance account) (inr balance);
                       Ev (writeContract account (address aprMON)
                             (stakingDeposit value account) (Some value))
                          (inr hash);
                       Ev (waitForTransactionReceipt hash 60000 1) (inr receipt) ] /\
                value <= balance /\
                Staking.statusFails (status receipt) = false)
    (execute_stake h amount) [].
Proof.
  prog_steps.
  all: cbn [app]; intros text Ht Hs.
  all: try (not_a_success Ht Hs).
  all: unfold getWalletAddressFromEnv.
  all: match goal with
       | H : Host.requireKey _ "Private key not found in environment variables" = inr _
         |- _ => rewrite H
       end.
  all: the_success_run.
Qed.


(** X15.  The tools [execute-wrap] and [deposit] answer with a text that
    opens with the success mark only after this run: the balance query
    answered a balance that covers the parsed amount, the deposit carrying
    that amount was submitted to the WMON contract, and its receipt came
    back with the status [success] or [1].  Likewise [execute-unwrap] and
    [withdraw], with the read of the WMON balance and the withdrawal. *)
Theorem wrap_tools_report_success_after_a_successful_receipt :
  forall (h : Host.t) (amount : string) (w : World) (text : string),
    (result w (execute_wrap h amount) = Returned (textResponse text) ->
     startsWith text "## ✅" = true ->
     exists (account : Address) (value balance : Z) (hash : Hash) (receipt : Receipt),
       WrapUnwrap.getWalletClient h = inr account /\
       parseEther amount = inr value /\
       trace w (execute_wrap h amount)
       = [ Ev (getBalance account) (inr balance);
           Ev (writeContract account (address WMON) wmonDeposit (Some value))
              (inr hash);
           Ev (waitForTransactionReceipt hash 60000 1) (inr receipt) ] /\
       value <= balance /\
       WrapUnwrap.statusFails (status receipt) = false) /\
    (result w (deposit h amount) = Returned (textResponse text) ->
     startsWith text "## ✅" = true ->
     exists (account : Address) (value balance : Z) (hash : Hash) (receipt : Receipt),
       WrapUnwrap.getWalletClient h = inr account /\
       parseEther amount = inr value /\
       trace w (deposit h amount)
       = [ Ev (getBalance account) (inr balance);
           Ev (writeContract account (address WMON) wmonDeposit (Some value))
              (inr hash);
           Ev (waitForTransactionReceipt hash 60000 1) (inr receipt) ] /\
       value <= balance /\
       WrapUnwrap.statusFails (status receipt) = false) /\
    (result w (execute_unwrap h amount) = Returned (textResponse text) ->
     startsWith text "## ✅" = true ->
     exists (account : Address) (value balance : Z) (hash : Hash) (receipt : Receipt),
       WrapUnwrap.getWalletClient h = inr account /\
       parseEther amount = inr value /\
       trace w (execute_unwrap h amount)
       = [ Ev (readContract (address WMON) (balanceOf account)) (inr balance);
           Ev (writeContract account (address WMON) (wmonWithdraw value) None)
              (inr hash);
           Ev (waitForTransactionReceipt hash 60000 1) (inr receipt) ] /\
       value <= balance /\
       WrapUnwrap.statusFails (status receipt) = false) /\
    (result w (withdraw h amount) = Returned (textResponse text) ->
     startsWith text "## ✅" = true ->
     exists (account : Address) (value balance : Z) (hash : Hash) (receipt : Receipt),
       WrapUnwrap.getWalletClient h = inr account /\
       parseEther amount = inr value /\
       trace w (withdraw h amount)
       = [ Ev (readContract (address WMON) (balanceOf account)) (inr balance);
           Ev (writeContract account (address WMON) (wmonWithdraw value) None)
              (inr hash);
           Ev (waitForTransactionReceipt hash 60000 1) (inr receipt) ] /\
       value <= balance /\
       WrapUnwrap.statusFails (status receipt) = false).
Proof.
  intros h amount w text. split; [ | split; [ | split ] ].
  - exact (always_exec _ _ (execute_wrap_success h amount) w text).
  - exact (always_exec _ _ (deposit_success h amount) w text).
  - exact (always_exec _ _ (execute_unwrap_success h amount) w text).
  - exact (always_exec _ _ (withdraw_success h amount) w text).
Qed.

(** A run of X15: 1 MON is wrapped by a wallet that holds 2. *)
Lemma wrap_tools_report_success_after_a_successful_receipt_witness :
  let h := Scenario.host Scenario.wallet in
  let w := Scenario.world (Scenario.calm [] 0 (2 * 10 ^ 18)) in
  let text := match result w (execute_wrap h "1") with
              | Returned r => hd "" (content r)
              | Raised _ => ""
              end in
  result w (execute_wrap h "1") = Returned (textResponse text) /\
  startsWith text "## ✅" = true /\
  exists (account : Address) (value balance : Z) (hash : Hash) (receipt : Receipt),
    WrapUnwrap.getWalletClient h = inr account /\
    parseEther "1" = inr value /\
    trace w (execute_wrap h "1")
    = [ Ev (getBalance account) (inr balance);
        Ev (writeContract account (address WMON) wmonDeposit (Some value)) (inr hash);
        Ev (waitForTransactionReceipt hash 60000 1) (inr receipt) ] /\
    value <= balance /\
    WrapUnwrap.statusFails (status receipt) = false.
Proof.
  intros h w text.
  assert (Hr : result w (execute_wrap h "1") = Returned (textResponse text))
    by (vm_compute; reflexivity).
  assert (Hs : startsWith text "## ✅" = true) by (vm_compute; reflexivity).
  refine (conj Hr (conj Hs _)).
  exact (proj1 (wrap_tools_report_success_after_a_successful_receipt h "1" w text) Hr Hs).
Defined.

(** X16.  The tool [execute-stake] answers with a text that opens with
    the success mark of staking.ts only after this run: the balance query
    answered a balance that covers the parsed amount, the deposit of that
    amount, carried as value, was submitted to the staking contract for
    the account itself, and its receipt came back with a status other than
    [reverted]. *)
Theorem stake_tool_reports_success_after_a_receipt_not_reverted :
  forall (h : Host.t) (amount : string) (w : World) (text : string),
    result w (execute_stake h amount) = Returned (textResponse text) ->
    startsWith text "## ‚úÖ" = true ->
    exists (account : Address) (value balance : Z) (hash : Hash) (receipt : Receipt),
      getWalletAddressFromEnv h = inr account /\
      parseUnits amount 18 = inr value /\
      trace w (execute_stake h amount)
      = [ Ev (getBalance account) (inr balance);
          Ev (writeContract account (address aprMON)
                (stakingDeposit value account) (Some value))
             (inr hash);
          Ev (waitForTransactionReceipt hash 60000 1) (inr receipt) ] /\
      value <= balance /\
      Staking.statusFails (status receipt) = false.
Proof.
  intros h amount w text.
  exact (always_exec _ _ (execute_stake_success h amount) w text).
Qed.

(** A run of X16: 1 MON is staked by the expected wallet, which holds
    2. *)
Lemma stake_tool_reports_success_after_a_receipt_not_reverted_witness :
  let h := Scenario.host Scenario.wallet in
  let w := Scenario.world (Scenario.calm [] 0 (2 * 10 ^ 18)) in
  let text := match result w (execute_stake h "1") with
              | Returned r => hd "" (content r)
              | Raised _ => ""
              end in
  result w (execute_stake h "1") = Returned (textResponse text) /\
  startsWith text "## ‚úÖ" = true /\
  exists (account : Address) (value balance : Z) (hash : Hash) (receipt : Receipt),
    getWalletAddressFromEnv h = inr account /\
    parseUnits "1" 18 = inr value /\
    trace w (execute_stake h "1")
    = [ Ev (getBalance account) (inr balance);
        Ev (writeContract account (address aprMON)
              (stakingDeposit value account) (Some value))
           (inr hash);
        Ev (waitForTransactionReceipt hash 60000 1) (inr receipt) ] /\
    value <= balance /\
    Staking.statusFails (status receipt) = false.
Proof.
  intros h w text.
  assert (Hr : result w (execute_stake h "1") = Returned (textResponse text))
    by (vm_compute; reflexivity).
  assert (Hs : startsWith text "## ‚úÖ" = true) by (vm_compute; reflexivity).
  refine (conj Hr (conj Hs _)).
  exact (stake_tool_reports_success_after_a_receipt_not_reverted h "1" w text Hr Hs).
Defined.

End ToolsFacts.

(** ** Failing closed *)

Module Closed.
Import Js Viem Config Chain Runs RunsFacts Observe Spec Parts.
Import Swap WrapUnwrap Staking Index Balances Format Tools Laws.

Ltac resolves := prog_steps; eexists; reflexivity.

Lemma getSwapQuote_resolves (h : Host.t) fromToken toToken amount :
  always (fun _ (o : Outcome (Result Quote)) => exists r, o = Returned r)
    (getSwapQuote h fromToken toToken amount) [].
Proof. resolves. Qed.

Lemma executeSwap_resolves (h : Host.t) fromToken toToken amount (s : Q) :
  always (fun _ (o : Outcome (Result Swapped)) => exists r, o = Returned r)
    (executeSwap h fromToken toToken amount s) [].
Proof. resolves. Qed.

Lemma wrapMON_resolves (h : Host.t) amount :
  always (fun _ (o : Outcome (Result Wrapped)) => exists r, o = Returned r)
    (wrapMON h amount) [].
Proof. resolves. Qed.

Lemma unwrapWMON_resolves (h : Host.t) amount :
  always (fun _ (o : Outcome (Result Wrapped)) => exists r, o = Returned r)
    (unwrapWMON h amount) [].
Proof. resolves. Qed.

Lemma stakeMON_resolves (h : Host.t) amount :
  always (fun _ (o : Outcome (Result Staked)) => exists r, o = Returned r)
    (stakeMON h amount) [].
Proof. resolves. Qed.

Lemma requestUnstakeAprMON_resolves (h : Host.t) amount (useSwap : bool) :
  always (fun _ (o : Outcome (Result Unstaked)) => exists r, o = Returned r)
    (requestUnstakeAprMON h amount useSwap) [].
Proof. destruct useSwap; resolves. Qed.

Lemma execute_transfer_resolves (h : Host.t) to amount token :
  always (fun _ (o : Outcome ContentResponse) => exists r, o = Returned r)
    (execute_transfer h to amount token) [].
Proof. resolves. Qed.

Lemma get_mon_balance_resolves (h : Host.t) address :
  always (fun _ (o : Outcome ContentResponse) => exists r, o = Returned r)
    (get_mon_balance h address) [].
Proof. resolves. Qed.

Lemma get_token_balance_resolves (h : Host.t) address token :
  always (fun _ (o : Outcome ContentResponse) => exists r, o = Returned r)
    (get_token_balance h address token) [].
Proof. resolves. Qed.

Lemma get_my_balance_resolves (h : Host.t) :
  always (fun _ (o : Outcome ContentResponse) => exists r, o = Returned r)
    (get_my_balance h) [].
Proof. resolves. Qed.

Lemma execute_wrap_resolves (h : Host.t) amount :
  always (fun _ (o : Outcome ContentResponse) => exists r, o = Returned r)
    (execute_wrap h amount) [].
Proof. resolves. Qed.

Lemma execute_unwrap_resolves (h : Host.t) amount :
  always (fun _ (o : Outcome ContentResponse) => exists r, o = Returned r)
    (execute_unwrap h amount) [].
Proof. resolves. Qed.

Lemma deposit_resolves (h : Host.t) amount :
  always (fun _ (o : Outcome ContentResponse) => exists r, o = Returned r)
    (deposit h amount) [].
Proof. resolves. Qed.

Lemma withdraw_resolves (h : Host.t) amount :
  always (fun _ (o : Outcome ContentResponse) => exists r, o = Returned r)
    (withdraw h amount) [].
Proof. resolves. Qed.

Lemma execute_stake_resolves (h : Host.t) amount :
  always (fun _ (o : Outcome ContentResponse) => exists r, o = Returned r)
    (execute_stake h amount) [].
Proof. resolves. Qed.


Lemma portfolioText_from (balances : list Balance) (responseText : string) :
  portfolioText balances responseText = responseText ++ portfolioText balances "".
Proof.
  revert responseText.
  induction balances as [ | balance rest IH]; intros responseText; cbn [portfolioText].
  - now rewrite UnitsFacts.append_empty.
  - rewrite IH. rewrite (IH (append "" _)). cbn [append].
    now rewrite UnitsFacts.append_associative.
Qed.

(** The portfolio tools answer with the portfolio, whatever the network
    does: the handler of their own is never reached. *)
Lemma get_token_portfolio_text (h : Host.t) (address : string) :
  always (fun tr (o : Outcome ContentResponse) =>
            exists results,
              Portfolio address keys tr results /\
              o = Returned (textResponse
                              (("Portfolio for " ++ address ++ " (Popular tokens):" ++ nl ++ nl)
                               ++ portfolioText results "")))
    (get_token_portfolio h address) [].
Proof.
  unfold get_token_portfolio. apply always_tryCatch, always_bind.
  eapply always_mono; [ | apply BalancesFacts.getTokenBalanceList_portfolio ].
  intros tr o (rs & -> & Hp). cbn [afterBind afterCatch always].
  exists rs. split; [ exact Hp | ]. now rewrite portfolioText_from.
Qed.

Lemma get_my_portfolio_text (h : Host.t) (address : string) :
  getWalletAddressFromEnv h = inr address ->
  always (fun tr (o : Outcome ContentResponse) =>
            exists results,
              Portfolio address keys tr results /\
              o = Returned (textResponse
                              (("Portfolio for your wallet (" ++ address ++ "):" ++ nl ++ nl)
                               ++ portfolioText results "")))
    (get_my_portfolio h) [].
Proof.
  intros Ha. unfold get_my_portfolio. rewrite Ha. apply always_tryCatch, always_bind.
  eapply always_mono; [ | apply BalancesFacts.getTokenBalanceList_portfolio ].
  intros tr o (rs & -> & Hp). cbn [afterBind afterCatch always].
  exists rs. split; [ exact Hp | ]. now rewrite portfolioText_from.
Qed.

(** X4.  The tools [get-token-portfolio] and [get-my-portfolio] answer
    with the portfolio text however the network behaves: one balance query
    for each symbol of the registry, one line for each, and the text of
    their own handler, [Failed to retrieve ...], is never the answer.  A
    query that throws shows as the line [Error fetching balance]. *)
Theorem portfolio_tools_always_answer_with_the_portfolio :
  forall (h : Host.t) (w : World),
    (forall address,
        exists results,
          Portfolio address keys (trace w (get_token_portfolio h address)) results /\
          result w (get_token_portfolio h address)
          = Returned (textResponse
                        (("Portfolio for " ++ address ++ " (Popular tokens):" ++ nl ++ nl)
                         ++ portfolioText results ""))) /\
    (forall address,
        getWalletAddressFromEnv h = inr address ->
        exists results,
          Portfolio address keys (trace w (get_my_portfolio h)) results /\
          result w (get_my_portfolio h)
          = Returned (textResponse
                        (("Portfolio for your wallet (" ++ address ++ "):" ++ nl ++ nl)
                         ++ portfolioText results ""))) /\
    (forall symbol amount decimals rest,
        portfolioText (mkBalance symbol amount decimals true :: rest) ""
        = ("- " ++ symbol ++ ": Error fetching balance" ++ nl) ++ portfolioText rest "").
Proof.
  intros h w. split; [ | split ].
  - intros address. exact (always_exec _ _ (get_token_portfolio_text h address) w).
  - intros address Ha. exact (always_exec _ _ (get_my_portfolio_text h address Ha) w).
  - intros symbol amount decimals rest. cbn [portfolioText balanceError balanceSymbol].
    now rewrite portfolioText_from.
Qed.

(** A run of X4: every query throws, and the answer is still the
    portfolio of the wallet. *)
Lemma portfolio_tools_always_answer_with_the_portfolio_witness :
  let h := Scenario.host Scenario.wallet in
  let w := Scenario.world (Scenario.failing (fun _ => true) [] 0 0) in
  getWalletAddressFromEnv h = inr Scenario.wallet /\
  exists results,
    Portfolio Scenario.wallet keys (trace w (get_my_portfolio h)) results /\
    result w (get_my_portfolio h)
    = Returned (textResponse
                  (("Portfolio for your wallet (" ++ Scenario.wallet ++ "):" ++ nl ++ nl)
                   ++ portfolioText results "")).
Proof.
  intros h w.
  assert (Ha : getWalletAddressFromEnv h = inr Scenario.wallet) by reflexivity.
  refine (conj Ha _).
  exact (proj1 (proj2 (portfolio_tools_always_answer_with_the_portfolio h w))
           Scenario.wallet Ha).
Defined.


Lemma getTokenBalanceList_resolves (address : Address) :
  always (fun _ (o : Outcome (list Balance)) => exists r, o = Returned r)
    (getTokenBalanceList address) [].
Proof.
  eapply always_mono; [ | apply BalancesFacts.getTokenBalanceList_portfolio ].
  intros tr o (rs & -> & _). eexists; reflexivity.
Qed.

Lemma get_token_portfolio_resolves (h : Host.t) (address : string) :
  always (fun _ (o : Outcome ContentResponse) => exists r, o = Returned r)
    (get_token_portfolio h address) [].
Proof.
  eapply always_mono; [ | apply get_token_portfolio_text ].
  intros tr o (rs & _ & ->). eexists; reflexivity.
Qed.

Lemma get_my_portfolio_resolves (h : Host.t) :
  always (fun _ (o : Outcome ContentResponse) => exists r, o = Returned r)
    (get_my_portfolio h) [].
Proof.
  destruct (getWalletAddressFromEnv h) as [error | address] eqn:Ha.
  - unfold get_my_portfolio. rewrite Ha. cbn. eexists; reflexivity.
  - eapply always_mono; [ | apply (get_my_portfolio_text h address Ha) ].
    intros tr o (rs & _ & ->). eexists; reflexivity.
Qed.

(** X12.  No operation and no tool rejects: however the network settles
    their calls, the quote, the swap, the wrap, the unwrap, the stake, the
    unstake and the balance list resolve to a result, and every tool
    resolves to a response; this holds of [deposit] and [withdraw] too,
    which have no handler of their own. *)
Theorem operations_and_tools_never_reject :
  forall (h : Host.t) (w : World),
    (forall fromToken toToken amount,
        exists r, result w (getSwapQuote h fromToken toToken amount) = Returned r) /\
    (forall fromToken toToken amount slippagePercent,
        exists r, result w (executeSwap h fromToken toToken amount slippagePercent)
                  = Returned r) /\
    (forall amount, exists r, result w (wrapMON h amount) = Returned r) /\
    (forall amount, exists r, result w (unwrapWMON h amount) = Returned r) /\
    (forall amount, exists r, result w (stakeMON h amount) = Returned r) /\
    (forall amount useSwap,
        exists r, result w (requestUnstakeAprMON h amount useSwap) = Returned r) /\
    (forall address, exists r, result w (getTokenBalanceList address) = Returned r) /\
    (forall to amount token,
        exists r, result w (execute_transfer h to amount token) = Returned r) /\
    (forall address, exists r, result w (get_mon_balance h address) = Returned r) /\
    (forall address token,
        exists r, result w (get_token_balance h address token) = Returned r) /\
    (forall address, exists r, result w (get_token_portfolio h address) = Returned r) /\
    (exists r, result w (get_my_balance h) = Returned r) /\
    (exists r, result w (get_my_portfolio h) = Returned r) /\
    (forall amount, exists r, result w (execute_wrap h amount) = Returned r) /\
    (forall amount, exists r, result w (execute_unwrap h amount) = Returned r) /\
    (forall amount, exists r, result w (deposit h amount) = Returned r) /\
    (forall amount, exists r, result w (withdraw h amount) = Returned r) /\
    (forall amount, exists r, result w (execute_stake h amount) = Returned r).
Proof.
  intros h w.
  repeat match goal with |- _ /\ _ => split end; intros.
  - exact (always_exec _ _ (getSwapQuote_resolves h _ _ _) w).
  - exact (always_exec _ _ (executeSwap_resolves h _ _ _ _) w).
  - exact (always_exec _ _ (wrapMON_resolves h _) w).
  - exact (always_exec _ _ (unwrapWMON_resolves h _) w).
  - exact (always_exec _ _ (stakeMON_resolves h _) w).
  - exact (always_exec _ _ (requestUnstakeAprMON_resolves h _ _) w).
  - exact (always_exec _ _ (getTokenBalanceList_resolves _) w).
  - exact (always_exec _ _ (execute_transfer_resolves h _ _ _) w).
  - exact (always_exec _ _ (get_mon_balance_resolves h _) w).
  - exact (always_exec _ _ (get_token_balance_resolves h _ _) w).
  - exact (always_exec _ _ (get_token_portfolio_resolves h _) w).
  - exact (always_exec _ _ (get_my_balance_resolves h) w).
  - exact (always_exec _ _ (get_my_portfolio_resolves h) w).
  - exact (always_exec _ _ (execute_wrap_resolves h _) w).
  - exact (always_exec _ _ (execute_unwrap_resolves h _) w).
  - exact (always_exec _ _ (deposit_resolves h _) w).
  - exact (always_exec _ _ (withdraw_resolves h _) w).
  - exact (always_exec _ _ (execute_stake_resolves h _) w).
Qed.

Lemma requireKey_missing (h : Host.t) (message : string) :
  Host.TEST_WALLET_PRIVATE_KEY h = None \/ Host.TEST_WALLET_PRIVATE_KEY h = Some "" ->
  Host.requireKey h message = inl (ErrorObj message).
Proof.
  unfold Host.requireKey. intros [-> | ->]; reflexivity.
Qed.

(** X13.  When the key is not set, or is set to the empty text, every
    operation that signs fails with the message [Private key not found in
    environment variables] and every tool answers, all without a call to
    the network: the tools that check the key with their own text, [deposit]
    and [withdraw] with the formatted failure of the operation, and
    [get-my-balance] with the text of the address that could not be
    derived.  The helper [executeTransfer] throws. *)
Theorem missing_key_stops_before_the_network :
  forall (h : Host.t) (w : World),
    Host.TEST_WALLET_PRIVATE_KEY h = None \/ Host.TEST_WALLET_PRIVATE_KEY h = Some "" ->
    let notFound := "Private key not found in environment variables" in
    (forall fromToken toToken amount slippagePercent,
        exec w (executeSwap h fromToken toToken amount slippagePercent)
        = (Returned (Failure notFound), [])) /\
    (forall amount, exec w (wrapMON h amount) = (Returned (Failure notFound), [])) /\
    (forall amount, exec w (unwrapWMON h amount) = (Returned (Failure notFound), [])) /\
    (forall amount, exec w (stakeMON h amount) = (Returned (Failure notFound), [])) /\
    (forall amount useSwap,
        exec w (requestUnstakeAprMON h amount useSwap)
        = (Returned (Failure notFound), [])) /\
    (forall to amount token,
        exec w (execute_transfer h to amount token)
        = (Returned (textResponse noKeyText), [])) /\
    (forall amount,
        exec w (execute_wrap h amount) = (Returned (textResponse noKeyText), [])) /\
    (forall amount,
        exec w (execute_unwrap h amount) = (Returned (textResponse noKeyText), [])) /\
    (forall amount,
        exec w (execute_stake h amount) = (Returned (textResponse noKeyText), [])) /\
    (forall amount,
        exec w (deposit h amount)
        = (Returned (formatTransactionResult (Failure notFound) "wrap"), [])) /\
    (forall amount,
        exec w (withdraw h amount)
        = (Returned (formatTransactionResult (Failure notFound) "unwrap"), [])) /\
    exec w (get_my_balance h)
    = (Returned (textResponse (noAddressText h (ErrorObj notFound))), []) /\
    (forall to amount token,
        exec w (executeTransfer h to amount token)
        = (Raised (ErrorObj "No test wallet private key found in .env file"), [])).
Proof.
  intros h w Hk notFound.
  pose proof (requireKey_missing h notFound Hk) as Hn.
  pose proof (requireKey_missing h "" Hk) as He.
  pose proof (requireKey_missing h "No test wallet private key found in .env file" Hk) as Ht.
  unfold notFound in *.
  repeat match goal with |- _ /\ _ => split end; intros.
  - unfold executeSwap, executeSwap_try. rewrite Hn. reflexivity.
  - unfold wrapMON, wrapMON_try, getWalletClient. rewrite Hn. reflexivity.
  - unfold unwrapWMON, unwrapWMON_try, getWalletClient. rewrite Hn. reflexivity.
  - unfold stakeMON, stakeMON_try. rewrite Hn. reflexivity.
  - unfold requestUnstakeAprMON, requestUnstakeAprMON_try. rewrite Hn. reflexivity.
  - unfold execute_transfer. rewrite He. reflexivity.
  - unfold execute_wrap. rewrite He. reflexivity.
  - unfold execute_unwrap. rewrite He. reflexivity.
  - unfold execute_stake. rewrite He. reflexivity.
  - unfold deposit, wrapMON, wrapMON_try, getWalletClient. rewrite Hn. reflexivity.
  - unfold withdraw, unwrapWMON, unwrapWMON_try, getWalletClient. rewrite Hn. reflexivity.
  - unfold get_my_balance, getWalletAddressFromEnv. rewrite Hn. reflexivity.
  - unfold executeTransfer. rewrite Ht. reflexivity.
Qed.

(** X13 on a host without a key: the swap fails and the wrap tool
    answers, without a call. *)
Lemma missing_key_stops_before_the_network_witness :
  let h := Host.mk None (fun _ => inr Scenario.wallet) Scenario.messages in
  let w := Scenario.world (Scenario.calm [] 0 0) in
  (Host.TEST_WALLET_PRIVATE_KEY h = None \/ Host.TEST_WALLET_PRIVATE_KEY h = Some "") /\
  exec w (executeSwap h "MON" "USDC" "1" (2 # 1))
  = (Returned (Failure "Private key not found in environment variables"), []) /\
  exec w (execute_wrap h "1") = (Returned (textResponse noKeyText), []).
Proof.
  intros h w.
  assert (Hk : Host.TEST_WALLET_PRIVATE_KEY h = None
               \/ Host.TEST_WALLET_PRIVATE_KEY h = Some "") by (left; reflexivity).
  destruct (missing_key_stops_before_the_network h w Hk)
    as (Hswap & _ & _ & _ & _ & _ & Hwrap & _).
  exact (conj Hk (conj (Hswap "MON" "USDC" "1" (2 # 1)) (Hwrap "1"))).
Defined.

End Closed.

(** ** index.ts: symbols in upper case, and the transfer *)

Module TransferFacts.
Import Js Viem Config Chain Runs RunsFacts Observe Spec Parts.
Import Index Balances Tools Laws.
Local Open Scope list_scope.

(** A key that is not in upper case is lost by upper-casing. *)
Lemma upper_cased_key_is_lost (token k : string) :
  In k keys -> k <> toUpperCase k -> toLowerCase token = toLowerCase k ->
  lookup (toUpperCase token) = None.
Proof.
  intros Hin Hk Hl.
  rewrite <- RegistryFacts.toUpperCase_toLowerCase, Hl,
    RegistryFacts.toUpperCase_toLowerCase.
  unfold keys in Hin. cbn [map fst TOKEN_MAP In] in Hin.
  repeat (destruct Hin as [<- | Hin];
          [ first [ reflexivity | exfalso; apply Hk; reflexivity ] | ]).
  contradiction.
Qed.

(** X7.  The tools that put the symbol in upper case before they look it
    up cannot reach the keys of the registry that are not in upper case,
    aprMON, shMON and gMON: in whatever spelling such a symbol is given,
    [get-token-balance] and [execute-transfer] answer that the token is
    not supported, and the helper [executeTransfer] throws, all without a
    call; the swap functions, which compare without regard to case, do
    find the key. *)
Theorem upper_casing_tools_cannot_reach_mixed_case_symbols :
  forall (h : Host.t) (address to amount token k : string) (w : World),
    In k keys -> k <> toUpperCase k -> toLowerCase token = toLowerCase k ->
    exec w (get_token_balance h address token)
    = (Returned (textResponse (notSupportedText (toUpperCase token))), []) /\
    (forall key, Host.requireKey h "" = inr key ->
       exec w (execute_transfer h to amount token)
       = (Returned (textResponse (notSupportedText (toUpperCase token))), [])) /\
    (forall key, Host.requireKey h "No test wallet private key found in .env file" = inr key ->
       exec w (executeTransfer h to amount token)
       = (Raised (ErrorObj (notSupportedText (toUpperCase token))), [])) /\
    findKey token = Some k.
Proof.
  intros h address to amount token k w Hin Hk Hl.
  pose proof (upper_cased_key_is_lost token k Hin Hk Hl) as Hnone.
  split; [ | split; [ | split ] ].
  - unfold get_token_balance. rewrite Hnone. reflexivity.
  - intros key Hkey. unfold execute_transfer. rewrite Hkey, Hnone. reflexivity.
  - intros key Hkey. unfold executeTransfer. rewrite Hkey, Hnone. reflexivity.
  - exact (RegistryFacts.findKey_complete token k Hin Hl).
Qed.

(** X7 at the symbol [aprMON], given as the registry spells it. *)
Lemma upper_casing_tools_cannot_reach_mixed_case_symbols_witness :
  let h := Scenario.host Scenario.wallet in
  let w := Scenario.world (Scenario.calm [] 0 (10 ^ 18)) in
  In "aprMON" keys /\ "aprMON" <> toUpperCase "aprMON" /\
  toLowerCase "aprMON" = toLowerCase "aprMON" /\
  exec w (get_token_balance h Scenario.wallet "aprMON")
  = (Returned (textResponse (notSupportedText "APRMON")), []) /\
  exec w (execute_transfer h Scenario.recipient "1" "aprMON")
  = (Returned (textResponse (notSupportedText "APRMON")), []) /\
  findKey "aprMON" = Some "aprMON".
Proof.
  intros h w.
  assert (Hin : In "aprMON" keys) by (cbn; tauto).
  assert (Hk : "aprMON" <> toUpperCase "aprMON") by (intros H; vm_compute in H; discriminate H).
  assert (Hl : toLowerCase "aprMON" = toLowerCase "aprMON") by reflexivity.
  destruct (upper_casing_tools_cannot_reach_mixed_case_symbols
              h Scenario.wallet Scenario.recipient "1" "aprMON" "aprMON" w Hin Hk Hl)
    as (Hbalance & Htransfer & _ & Hfound).
  refine (conj Hin (conj Hk (conj Hl (conj Hbalance (conj _ Hfound))))).
  exact (Htransfer _ eq_refl).
Defined.


(** The gate of a transfer: the native balance, and only that it is not
    zero. *)
Ltac transfer_gate Hbad :=
  cbn [app]; split; [ | split ];
  [ intros ev Hin; in_cases Hin; cbn [balanceQuery callOf]; discriminate
  | intros ev Hin Hsub; in_cases Hin; cbn [isSubmission callOf] in Hsub;
    first [ discriminate Hsub
          | do 2 eexists;
            split; [ reflexivity | split; [ reflexivity | split; [ reflexivity | ] ] ];
            match goal with
            | H : (_ =? 0) = false |- _ => apply Z.eqb_neq in H; exact H
            end ]
  | intros Hbad ev Hin; in_cases Hin;
    first [ reflexivity
          | match goal with
            | H : parseUnits _ _ = inr _ |- _ =>
                unfold parseUnits in H; rewrite Hbad in H; discriminate H
            end ] ].

Lemma execute_transfer_gate (h : Host.t) (to amount token : string) :
  always (fun tr (_ : Outcome ContentResponse) => transferGate amount tr)
    (execute_transfer h to amount token) [].
Proof.
  unfold transferGate. prog_steps. all: transfer_gate Hbad.
Qed.

Lemma executeTransfer_gate (h : Host.t) (to amount token : string) :
  always (fun tr (_ : Outcome ContentResponse) => transferGate amount tr)
    (executeTransfer h to amount token) [].
Proof.
  unfold transferGate. prog_steps. all: transfer_gate Hbad.
Qed.

(** X17.  A transfer, by the tool [execute-transfer] or by the helper
    [executeTransfer], of MON or of a token, is gated by the native balance
    alone: the token's balance is never read, a transaction is submitted
    only right after the chain's balance query has answered a balance other
    than zero, whatever the amount, and an amount that is no decimal number
    is found out after that query, before any submission. *)
Theorem transfer_is_gated_by_the_native_balance_alone :
  forall (h : Host.t) (to amount token : string) (w : World),
    transferGate amount (trace w (execute_transfer h to amount token)) /\
    transferGate amount (trace w (executeTransfer h to amount token)).
Proof.
  intros h to amount token w. split.
  - exact (always_exec _ _ (execute_transfer_gate h to amount token) w).
  - exact (always_exec _ _ (executeTransfer_gate h to amount token) w).
Qed.

(** A run of X17: 5 USDC are sent by a wallet whose native balance is one
    unit; the amount [abc] stops after the balance query. *)
Lemma transfer_is_gated_by_the_native_balance_alone_witness :
  let h := Scenario.host Scenario.wallet in
  let w := Scenario.world (Scenario.calm [] 0 1) in
  let q := Ev (getBalance Scenario.wallet) (inr 1) in
  let e := Ev (writeContract Scenario.wallet "0xf817257fed379853cDe0fa4F97AB987181B1E5Ea"
                 (transfer Scenario.recipient 5000000) None)
              (inr "0xb1") in
  (In e (trace w (execute_transfer h Scenario.recipient "5" "usdc")) /\
   isSubmission (callOf e) = true /\
   exists q' balance,
     trace w (execute_transfer h Scenario.recipient "5" "usdc") = [q'; e] /\
     balanceQuery (callOf q') = Some NativeBalance /\
     balanceRead q' = Some balance /\
     balance <> 0) /\
  (isDecimalNumber "abc" = false /\
   trace w (execute_transfer h Scenario.recipient "abc" "usdc") = [q] /\
   isSubmission (callOf q) = false).
Proof.
  intros h w q e. split.
  - assert (Hin : In e (trace w (execute_transfer h Scenario.recipient "5" "usdc")))
      by (vm_compute; right; left; reflexivity).
    assert (Hsub : isSubmission (callOf e) = true) by reflexivity.
    refine (conj Hin (conj Hsub _)).
    destruct (transfer_is_gated_by_the_native_balance_alone
                h Scenario.recipient "5" "usdc" w) as [(_ & Hgate & _) _].
    exact (Hgate e Hin Hsub).
  - assert (Hbad : isDecimalNumber "abc" = false) by reflexivity.
    assert (Htr : trace w (execute_transfer h Scenario.recipient "abc" "usdc") = [q])
      by (vm_compute; reflexivity).
    refine (conj Hbad (conj Htr _)).
    destruct (transfer_is_gated_by_the_native_balance_alone
                h Scenario.recipient "abc" "usdc" w) as [(_ & _ & Hnone) _].
    apply (Hnone Hbad q). rewrite Htr. now left.
Defined.

End TransferFacts.

(** ** staking.ts: the unstake that swaps *)

Module UnstakeBySwap.
Import Js Viem Config Chain Runs RunsFacts Observe Spec Parts.
Import Swap Staking Laws.
Local Open Scope list_scope.

(** The closed computations of the swap of aprMON to MON at 5%. *)
Ltac special_pair :=
  repeat match goal with
    | H : normalize "aprMON" "MON" = _ |- _ =>
        vm_compute in H; first [ discriminate H | injection H as <- ]
    | H : slippageFactor (5 # 1) = _ |- _ =>
        vm_compute in H; first [ discriminate H | injection H as <- ]
    | H : parseUnits "1000000000" 18 = _ |- _ =>
        vm_compute in H; first [ discriminate H | injection H as <- ]
    | H : tokenInfo (fst ("aprMON", "MON")) = _ |- _ =>
        vm_compute in H; first [ discriminate H | injection H as <- ]
    | H : tokenInfo (snd ("aprMON", "MON")) = _ |- _ =>
        vm_compute in H; first [ discriminate H | injection H as <- ]
    | H : (_ && _)%bool = false |- _ => vm_compute in H; discriminate H
    | H : (_ =? _)%string = false |- _ => vm_compute in H; discriminate H
    end.

Lemma requestUnstakeAprMON_by_swap (h : Host.t) (amount : string) :
  always (unstakesBySwap amount) (requestUnstakeAprMON h amount true) [].
Proof.
  unfold unstakesBySwap.
  prog_steps.
  all: special_pair.
  all: try match goal with
       | H1 : parseUnits ?a 18 = inr _, H2 : parseUnits ?a (decimals _) = inr _ |- _ =>
           cbn [decimals] in H2; rewrite H1 in H2; injection H2 as <-
       end.
  all: cbn [app]; split; [ | split ].
  (* neither a withdrawal nor a transfer *)
  all: try (intros ev Hin; in_cases Hin; split; reflexivity).
  (* the swap *)
  all: try (intros ev m Hin Hm; in_cases Hin; cbn [swapFloor callOf] in Hm;
            first [ discriminate Hm
                  | injection Hm as <-; eexists;
                    split; [ reflexivity | split; [ reflexivity | split; reflexivity ] ] ]).
  (* the report *)
  all: intros u Hu;
    first [ discriminate Hu
          | injection Hu as <-; split; [ reflexivity | eexists; split; reflexivity ] ].
Qed.

(** X18.  An unstake with [useSwap], the default, goes through the swap of
    aprMON to MON at a slippage of 5%: it never submits the withdrawal
    from the staking contract nor the transfer to it; the swap it submits
    goes along the special path for the parsed amount, with the floor of
    95% of 99.88% of that amount; and a success names the method [swap]
    and, as the amount received, 99.88% of the input. *)
Theorem unstake_by_default_is_a_swap_at_five_percent :
  forall (h : Host.t) (amount : string) (w : World),
    unstakesBySwap amount
      (trace w (requestUnstakeAprMON h amount true))
      (result w (requestUnstakeAprMON h amount true)).
Proof.
  intros h amount w.
  exact (always_exec _ _ (requestUnstakeAprMON_by_swap h amount) w).
Qed.

(** A run of X18: 1 aprMON, against an allowance that suffices. *)
Lemma unstake_by_default_is_a_swap_at_five_percent_witness :
  let h := Scenario.host Scenario.wallet in
  let w := Scenario.world (Scenario.calm [] (10 ^ 30) 0) in
  let p := requestUnstakeAprMON h "1" true in
  let e := Ev (writeContract Scenario.wallet SWAP_ROUTER_ADDRESS
                 (swapExactTokensForETH 1000000000000000000 948860000000000000
                    specialPath Scenario.wallet 1700001200) None)
              (inr "0xb1") in
  let u := mkUnstaked "1" (Some "0.9988") "0xb1" 7 Scenario.wallet "swap"
             "Your 1 aprMON has been converted to approximately 0.9988 MON using the swap method." in
  (In e (trace w p) /\
   swapFloor (callOf e) = Some 948860000000000000 /\
   exists amountIn,
     parseUnits "1" 18 = inr amountIn /\
     swapPath (callOf e) = Some specialPath /\
     swapAmountIn (callOf e) = Some amountIn /\
     948860000000000000 = Z.quot (Z.quot (amountIn * 9988) 10000 * 950) 1000) /\
  (result w p = Returned (Success u) /\
   method u = "swap" /\
   exists amountIn,
     parseUnits "1" 18 = inr amountIn /\
     receivedAmount u = Some (formatUnits (Z.quot (amountIn * 9988) 10000) 18)).
Proof.
  intros h w p e u.
  destruct (unstake_by_default_is_a_swap_at_five_percent h "1" w) as (_ & Hswap & Hreport).
  split.
  - assert (Hin : In e (trace w p)) by (vm_compute; do 4 right; left; reflexivity).
    assert (Hm : swapFloor (callOf e) = Some 948860000000000000) by reflexivity.
    refine (conj Hin (conj Hm _)).
    exact (Hswap e _ Hin Hm).
  - assert (Hr : result w p = Returned (Success u)) by (vm_compute; reflexivity).
    refine (conj Hr _).
    exact (Hreport u Hr).
Defined.

End UnstakeBySwap.

(** ** Which amounts parse *)

Module AmountFacts.
Import Js Viem Config Chain Runs RunsFacts Observe Spec.
Import UnitsFacts.

Lemma dropDigits_split (s : string) :
  exists digits, s = digits ++ dropDigits s /\ allChars isDigit digits = true.
Proof.
  induction s as [ | c r (digits & Hr & Hd)]; [ now exists "" | ].
  cbn [dropDigits]. destruct (isDigit c) eqn:Hc.
  - exists (String c digits). cbn. rewrite Hc, Hd. now rewrite <- Hr.
  - now exists "".
Qed.

Lemma not_minus (c : ascii) (r : string) :
  c <> "-"%char ->
  match String c r with String "-" r' => r' | _ => String c r end = String c r.
Proof.
  intros H. destruct c as [[] [] [] [] [] [] [] []]; try reflexivity; congruence.
Qed.

(** A decimal number is an optional sign, digits, and possibly a point
    and digits. *)
Lemma decimal_shape (value : string) :
  isDecimalNumber value = true ->
  exists (negative point : bool) (integer fraction : string),
    value = (if negative then "-" else "") ++ integer
            ++ (if point then "." ++ fraction else "") /\
    allChars isDigit integer = true /\
    allChars isDigit fraction = true.
Proof.
  unfold isDecimalNumber. intros H.
  assert (Hu : exists (negative : bool) unsigned,
             value = (if negative then "-" else "") ++ unsigned /\
             match dropDigits unsigned with
             | String "." r => allChars isDigit r
             | rest => allChars isDigit rest
             end = true).
  { destruct value as [ | c r]; [ now exists false, "" | ].
    destruct (Ascii.eqb c "-") eqn:Hc.
    - apply Ascii.eqb_eq in Hc. subst c. now exists true, r.
    - apply Ascii.eqb_neq in Hc. rewrite (not_minus c r Hc) in H.
      now exists false, (String c r). }
  destruct Hu as (negative & unsigned & -> & Hrest).
  destruct (dropDigits_split unsigned) as (integer & Hs & Hd).
  destruct (dropDigits unsigned) as [ | c rest] eqn:Hdrop.
  - exists negative, false, integer, "". rewrite Hs at 1. auto.
  - destruct (Ascii.eqb c ".") eqn:Hc.
    + apply Ascii.eqb_eq in Hc. subst c.
      exists negative, true, integer, rest. rewrite Hs at 1. auto.
    + (* a rest that is all digits is empty *)
      assert (Hall : allChars isDigit (String c rest) = true).
      { apply Ascii.eqb_neq in Hc.
        destruct c as [[] [] [] [] [] [] [] []]; try exact Hrest; congruence. }
      assert (Hnone : dropDigits (dropDigits unsigned) = dropDigits unsigned).
      { clear. induction unsigned as [ | c r IH]; cbn; [ reflexivity | ].
        destruct (isDigit c) eqn:Hc; [ exact IH | ]. cbn. now rewrite Hc. }
      rewrite Hdrop in Hnone. rewrite (dropDigits_all _ Hall) in Hnone. discriminate.
Qed.


Lemma splitDot_shape (negative point : bool) (integer fraction : string) :
  allChars isDigit integer = true -> allChars isDigit fraction = true ->
  splitDot ((if negative then "-" else "") ++ integer
            ++ (if point then "." ++ fraction else ""))
  = ((if negative then "-" else "") ++ integer)
    :: (if point then [fraction] else []).
Proof.
  intros Hd Hf.
  assert (Hu : splitDot (integer ++ (if point then "." ++ fraction else ""))
               = integer :: (if point then [fraction] else [])).
  { destruct (splitDot_digits integer (if point then "." ++ fraction else "") Hd)
      as [Hh Ht].
    pose proof (splitDot_cons (integer ++ (if point then "." ++ fraction else "")))
      as Hne.
    destruct (splitDot _) as [ | h t]; [ congruence | ].
    cbn [hd tl] in Hh, Ht. subst h t.
    destruct point.
    - cbn [append splitDot Ascii.eqb Bool.eqb hd tl].
      rewrite (splitDot_all_digits _ Hf). now rewrite append_empty.
    - cbn. now rewrite append_empty. }
  destruct negative; [ | exact Hu ].
  cbn [append] in Hu |- *. cbn [splitDot].
  change (Ascii.eqb "-" ".") with false. cbv iota.
  now rewrite Hu.
Qed.

Lemma startsWith_minus_unsigned (integer : string) :
  allChars isDigit integer = true -> startsWith integer "-" = false.
Proof.
  destruct integer; [ reflexivity | ].
  intros H. now apply startsWith_minus_digits.
Qed.

Lemma allChars_substring (f : ascii -> bool) (s : string) :
  allChars f s = true -> forall a n, allChars f (substring a n s) = true.
Proof.
  induction s as [ | c r IH]; intros H a n.
  - destruct a, n; reflexivity.
  - cbn in H. apply andb_prop in H as [Hc Hr].
    destruct a as [ | a]; destruct n as [ | n]; cbn; auto.
    now rewrite Hc, IH.
Qed.

Lemma substring_nonempty (s : string) (n : nat) :
  s <> "" -> substring 0 (S n) s <> "".
Proof. destruct s; [ congruence | discriminate ]. Qed.

Lemma allChars_padStart (s : string) (n : nat) :
  allChars isDigit s = true -> allChars isDigit (padStart s n "0") = true.
Proof.
  intros H. unfold padStart. now rewrite allChars_append, allChars_zeros, H.
Qed.

Lemma allChars_padEnd (s : string) (n : nat) :
  allChars isDigit s = true -> allChars isDigit (padEnd s n "0") = true.
Proof.
  intros H. unfold padEnd. now rewrite allChars_append, allChars_zeros, H.
Qed.

Lemma digitValue_nonneg (c : ascii) : 0 <= digitValue c.
Proof. unfold digitValue. apply Nat2Z.is_nonneg. Qed.

Lemma digitsValue_nonneg (s : string) : forall acc, 0 <= acc -> 0 <= digitsValue acc s.
Proof.
  induction s as [ | c r IH]; intros acc H; cbn [digitsValue]; [ exact H | ].
  apply IH. pose proof (digitValue_nonneg c). lia.
Qed.

Lemma BigInt_toString_nonneg (x : Z) :
  0 <= x -> allChars isDigit (BigInt_toString x) = true /\ BigInt_toString x <> "".
Proof.
  intros H. destruct (BigInt_toString_digits x) as (digits & Hs & Hne & Hd & _).
  assert (Hx : (x <? 0) = false) by now apply Z.ltb_ge.
  rewrite Hx in Hs. cbn in Hs. rewrite Hs. auto.
Qed.

Lemma addOne_digits (digits : string) :
  allChars isDigit digits = true ->
  exists next, addOne digits = inr next /\ allChars isDigit next = true /\ next <> "".
Proof.
  intros H. unfold addOne. rewrite (BigInt_of_digits _ H).
  pose proof (digitsValue_nonneg digits 0 ltac:(lia)) as Hv.
  destruct (BigInt_toString_nonneg (digitsValue 0 digits + 1) ltac:(lia)) as [Hd Hne].
  eexists; split; [ reflexivity | auto ].
Qed.

Lemma BigInt_of_signed (negative : bool) (digits : string) :
  allChars isDigit digits = true -> (negative = true -> digits <> "") ->
  exists v, BigInt_of_string ((if negative then "-" else "") ++ digits) = inr v.
Proof.
  intros H Hne. destruct negative.
  - eexists. change ("-" ++ digits) with (String "-" digits).
    now apply BigInt_of_negative; [ apply Hne | ].
  - eexists. now apply BigInt_of_digits.
Qed.

Lemma padEnd_nonempty (s : string) (n : nat) : padEnd s (S n) "0" <> "".
Proof.
  unfold padEnd. destruct s; [ discriminate | discriminate ].
Qed.

(** The rounded unit is a digit or ten, never negative. *)
Lemma roundUnit_nonneg (unit right : string) : 0 <= roundUnit unit right.
Proof.
  unfold roundUnit. apply NumberFacts.Math_round_nonneg, NumberFacts.double_nonneg.
  unfold decimalValue, Qle. cbn [Qnum Qden].
  pose proof (digitsValue_nonneg (unit ++ right) 0 ltac:(lia)). lia.
Qed.

(** Every decimal number parses, for a token of at least one decimal. *)
Lemma parseUnits_decimal (value : string) (d : nat) :
  isDecimalNumber value = true -> exists v, parseUnits value (S d) = inr v.
Proof.
  intros Hv.
  destruct (decimal_shape value Hv) as (negative & point & integer & fraction & Hs & Hi & Hf).
  unfold parseUnits. rewrite Hv. cbn [negb].
  rewrite Hs, (splitDot_shape negative point integer fraction Hi Hf).
  cbv zeta. cbn [hd tl].
  assert (Hsign : startsWith ((if negative then "-" else "") ++ integer) "-" = negative).
  { destruct negative; [ apply startsWith_minus | ].
    exact (startsWith_minus_unsigned integer Hi). }
  rewrite Hsign.
  assert (Hint : (if negative then sliceFrom ((if negative then "-" else "") ++ integer) 1
                  else (if negative then "-" else "") ++ integer) = integer).
  { destruct negative; [ apply sliceFrom_minus | reflexivity ]. }
  rewrite Hint.
  set (fraction1 := trimTrailingZeros
                      match (if point then [fraction] else []) with
                      | [] => "0"
                      | f :: _ => f
                      end).
  assert (Hf1 : allChars isDigit fraction1 = true).
  { unfold fraction1. apply trim_digits. destruct point; [ exact Hf | reflexivity ]. }
  destruct (S d <? String.length fraction1)%nat.
  - (* surplus decimals are rounded *)
    set (left := slice fraction1 0 d).
    assert (Hleft : allChars isDigit left = true) by now apply allChars_substring.
    set (r := roundUnit (slice fraction1 d (S d)) (sliceFrom fraction1 (S d))).
    assert (Hr : 0 <= r) by apply roundUnit_nonneg.
    assert (Hf2 : exists f2,
               (if 9 <? r
                then match addOne left with
                     | inl e => inl e
                     | inr l => inr (padStart (l ++ "0") (String.length left + 1) "0")
                     end
                else inr (left ++ BigInt_toString r)) = inr f2 /\
               allChars isDigit f2 = true /\ f2 <> "").
    { destruct (9 <? r).
      - destruct (addOne_digits left Hleft) as (l & -> & Hl & Hne).
        eexists. split; [ reflexivity | split ].
        + apply allChars_padStart. now rewrite allChars_append, Hl.
        + unfold padStart. destruct (repeatChar _ _); [ | discriminate ].
          destruct l; [ congruence | discriminate ].
      - destruct (BigInt_toString_nonneg r Hr) as [Hd Hne].
        eexists. split; [ reflexivity | split ].
        + now rewrite allChars_append, Hleft, Hd.
        + destruct left; [ exact Hne | discriminate ]. }
    destruct Hf2 as (f2 & -> & Hd2 & Hne2).
    destruct (S d <? String.length f2)%nat.
    + destruct (addOne_digits integer Hi) as (i & -> & Hdi & Hnei).
      apply BigInt_of_signed.
      * rewrite allChars_append, Hdi. now apply allChars_substring, allChars_substring.
      * intros _. destruct i; [ congruence | discriminate ].
    + apply BigInt_of_signed.
      * rewrite allChars_append, Hi. now apply allChars_substring.
      * intros _. unfold slice. rewrite Nat.sub_0_r.
        pose proof (substring_nonempty f2 d Hne2).
        destruct integer; [ assumption | discriminate ].
  - apply BigInt_of_signed.
    + rewrite allChars_append, Hi. now apply allChars_padEnd.
    + intros _. pose proof (padEnd_nonempty fraction1 d).
      destruct integer; [ assumption | discriminate ].
Qed.


Lemma parseUnits_not_decimal (value : string) (decimals : nat) :
  isDecimalNumber value = false ->
  parseUnits value decimals = inl (LibError (InvalidDecimalNumber value)).
Proof.
  intros H. unfold parseUnits. now rewrite H.
Qed.

Lemma wrapMON_opens (h : Host.t) (amount : string) (account : Address) (value : Z) :
  WrapUnwrap.getWalletClient h = inr account ->
  parseEther amount = inr value ->
  always (fun tr (_ : Outcome (Result WrapUnwrap.Wrapped)) =>
            exists q rest, tr = q :: rest /\ callOf q = getBalance account)
    (WrapUnwrap.wrapMON h amount) [].
Proof.
  intros Ha Hp. prog_steps.
  all: first [ do 2 eexists; split; reflexivity | discriminate ].
Qed.

Lemma unwrapWMON_opens (h : Host.t) (amount : string) (account : Address) (value : Z) :
  WrapUnwrap.getWalletClient h = inr account ->
  parseEther amount = inr value ->
  always (fun tr (_ : Outcome (Result WrapUnwrap.Wrapped)) =>
            exists q rest,
              tr = q :: rest /\ callOf q = readContract (address WMON) (balanceOf account))
    (WrapUnwrap.unwrapWMON h amount) [].
Proof.
  intros Ha Hp. prog_steps.
  all: repeat match goal with
         | H : WrapUnwrap.wmonAddress = _ |- _ =>
             vm_compute in H; first [ discriminate H | injection H as <- ]
         end.
  all: first [ do 2 eexists; split; reflexivity | discriminate ].
Qed.

Lemma requestUnstakeAprMON_opens (h : Host.t) (amount : string) (useSwap : bool)
  (account : Address) (value : Z) :
  WrapUnwrap.getWalletClient h = inr account ->
  parseUnits amount 18 = inr value ->
  always (fun tr (_ : Outcome (Result Staking.Unstaked)) =>
            exists q rest,
              tr = q :: rest /\
              callOf q = readContract (address aprMON)
                           (allowance account Staking.APRIORI_STAKING_ADDRESS))
    (Staking.requestUnstakeAprMON h amount useSwap) [].
Proof.
  unfold WrapUnwrap.getWalletClient. intros Ha Hp.
  destruct (Host.requireKey h "Private key not found in environment variables")
    as [ | key] eqn:Hk; [ discriminate Ha | ].
  destruct useSwap; prog_steps.
  all: cbn [app]; do 2 eexists; split; reflexivity.
Qed.

(** X19.  The amount is checked locally by the decimal-number test and by
    nothing else: with a token of at least one decimal, every amount that
    is a decimal number parses, the empty text, a lone point and a lone
    minus sign among them, and every other amount is refused with the
    invalid-decimal-number error.  So a wrap, an unwrap and an unstake of
    an amount that is a decimal number, by an account that could be
    derived, all reach the network: their run opens with the balance
    query, the read of the WMON balance, and the read of the allowance. *)
Theorem amounts_are_checked_by_the_decimal_test_alone :
  (forall value decimals,
      isDecimalNumber value = true -> exists v, parseUnits value (S decimals) = inr v) /\
  (forall value decimals,
      isDecimalNumber value = false ->
      parseUnits value decimals = inl (LibError (InvalidDecimalNumber value))) /\
  (forall (h : Host.t) (amount : string) (w : World) (account : Address),
      isDecimalNumber amount = true ->
      WrapUnwrap.getWalletClient h = inr account ->
      (exists q rest,
          trace w (WrapUnwrap.wrapMON h amount) = q :: rest /\
          callOf q = getBalance account) /\
      (exists q rest,
          trace w (WrapUnwrap.unwrapWMON h amount) = q :: rest /\
          callOf q = readContract (address WMON) (balanceOf account)) /\
      (forall useSwap,
          exists q rest,
            trace w (Staking.requestUnstakeAprMON h amount useSwap) = q :: rest /\
            callOf q = readContract (address aprMON)
                         (allowance account Staking.APRIORI_STAKING_ADDRESS))).
Proof.
  split; [ exact parseUnits_decimal | split; [ exact parseUnits_not_decimal | ] ].
  intros h amount w account Hd Ha.
  destruct (parseUnits_decimal amount 17 Hd) as [value Hp].
  split; [ | split ].
  - exact (always_exec _ _ (wrapMON_opens h amount account value Ha Hp) w).
  - exact (always_exec _ _ (unwrapWMON_opens h amount account value Ha Hp) w).
  - intros useSwap.
    exact (always_exec _ _
             (requestUnstakeAprMON_opens h amount useSwap account value Ha Hp) w).
Qed.

(** A run of X19: the empty amount is a decimal number, parses to zero,
    and its wrap is submitted with the value zero. *)
Lemma amounts_are_checked_by_the_decimal_test_alone_witness :
  let h := Scenario.host Scenario.wallet in
  let w := Scenario.world (Scenario.calm [] 0 0) in
  isDecimalNumber "" = true /\
  (exists v, parseUnits "" 18 = inr v) /\
  WrapUnwrap.getWalletClient h = inr Scenario.wallet /\
  (exists q rest,
      trace w (WrapUnwrap.wrapMON h "") = q :: rest /\
      callOf q = getBalance Scenario.wallet) /\
  calls w (WrapUnwrap.wrapMON h "")
  = [ getBalance Scenario.wallet;
      writeContract Scenario.wallet (address WMON) wmonDeposit (Some 0);
      waitForTransactionReceipt "0xb1" 60000 1 ].
Proof.
  intros h w.
  assert (Hd : isDecimalNumber "" = true) by reflexivity.
  assert (Ha : WrapUnwrap.getWalletClient h = inr Scenario.wallet) by reflexivity.
  destruct amounts_are_checked_by_the_decimal_test_alone as (Hparse & _ & Hopens).
  refine (conj Hd (conj (Hparse "" 17%nat Hd) (conj Ha (conj _ _)))).
  - exact (proj1 (Hopens h "" w Scenario.wallet Hd Ha)).
  - vm_compute. reflexivity.
Defined.

End AmountFacts.
